(** * hailtop.batch.Batch and hail.fs: a shallow embedding

    The development follows three source files:
    - [hailtop/batch/batch.py]  (class [Batch]: job and resource factories,
      [write_output], [run] with its depth-first linearization),
    - [hail/fs/local_fs.py]     (class [LocalFS], method [open]),
    - [hail/fs/router_fs.py]    (class [RouterFS], method [stat]).

    Python objects are mutable and shared, so jobs and resources live in
    stores indexed by object identity; methods thread the store explicitly and
    return either a value or the exception they raise. *)

From Stdlib Require Import Ascii ZArith Lia.
From stdpp Require Import base option list relations gmap strings sets.

Open Scope string_scope.
Open Scope list_scope.
Open Scope nat_scope.

(** ** Exceptions and results *)

(** The exception classes that the modelled code raises or lets through.
    [OtherError cls] stands for an exception of any other class. *)
Inductive Exn : Type :=
| BatchException (msg : string)
| AssertionError
| KeyError
| IndexError
| FileNotFoundError (arg : string)
| OtherError (cls : string).

Inductive Result (A : Type) : Type :=
| Ok (a : A)
| Raise (e : Exn).
Arguments Ok {A} a.
Arguments Raise {A} e.

#[global] Instance Exn_eq_dec : EqDecision Exn.
Proof. solve_decision. Defined.

(** What the interpreter raises when a call would nest deeper than its
    recursion limit allows. *)
Definition RecursionError : Exn := OtherError "RecursionError".

(** Statements in sequence: an exception ends the sequence. *)
#[global] Instance Result_ret : MRet Result := λ A a, Ok a.
#[global] Instance Result_bind : MBind Result := λ A B k r,
  match r with
  | Ok a => k a
  | Raise e => Raise e
  end.

(** Object identities ([id(obj)] in Python). *)
Abbreviation job_ref := nat (only parsing).
Abbreviation res_ref := nat (only parsing).

(** ** Job objects (class [job.Job] and its two subclasses)

    Modelled from the spec: [job.py] is not among the sources; the record has
    the attributes of a Job Descriptor that [batch.py] reads or that its
    calls into the job set: the token, the name and attributes handed to
    the constructor, the execution parameters, the explicit predecessor
    jobs, the resources mentioned by the body, the inverse name table and the
    position assigned by [run]. *)
Module job.

Inductive Class := BashJob | PythonJob.

Record Job : Type := mk {
  cls : Class;
  _token : string;
  name : option string;
  attributes : gmap string string;
  _shell : option string;
  _image : option string;
  _memory : option string;
  _cpu : option string;
  _storage : option string;
  _timeout : option Z;
  _spot : option bool;
  _regions : option (list string);
  _dependencies : list job_ref;        (* iteration order of the set *)
  _mentioned : gset res_ref;
  _resources_inverse : gmap res_ref string;
  _job_id : option nat;
}.

Definition set_job_id (i : nat) (j : Job) : Job :=
  mk (cls j) (_token j) (name j) (attributes j) (_shell j) (_image j)
     (_memory j) (_cpu j) (_storage j) (_timeout j) (_spot j) (_regions j)
     (_dependencies j) (_mentioned j) (_resources_inverse j) (Some i).

End job.

#[global] Instance job_Class_eq_dec : EqDecision job.Class.
Proof. solve_decision. Defined.

(** ** The dependency graph read off the job store *)

Section graph.
Context (h : gmap nat job.Job).

(** [j._dependencies], in the order in which the [for] loops see it. *)
Definition deps (j : job_ref) : list job_ref :=
  match h !! j with
  | Some o => job._dependencies o
  | None => []
  end.

End graph.

(** ** [Batch.run]: the linearization (batch.py, lines 680-704) *)

(** The closure [schedule_job] with its two captured variables [seen] and
    [ordered_jobs] as explicit state.  Every call of [schedule_job] nests
    one frame deeper, and the interpreter raises [RecursionError] for a call
    that would exceed its recursion limit: [depth] is the number of calls of
    [schedule_job] that may nest, the recursion limit less the frames that
    are in use when [run] starts the traversal.  The exception leaves the
    closure and [run]; the two captured variables are local to [run]. *)
Fixpoint schedule_job (h : gmap nat job.Job) (depth : nat) (j : job_ref)
    (st : gset nat * list nat) : Result (gset nat * list nat) :=
  match depth with
  | 0 => Raise RecursionError
  | S depth' =>
      if decide (j ∈ st.1) then Ok st
      else
        match foldl (λ acc p, acc ≫= schedule_job h depth' p)
                    (Ok ({[j]} ∪ st.1, st.2)) (deps h j) with
        | Ok st' => Ok (st'.1, st'.2 ++ [j])
        | Raise e => Raise e
        end
  end.

(** [for j in self._jobs: schedule_job(j)] *)
Definition schedule_all (h : gmap nat job.Job) (depth : nat)
    (js : list job_ref) (st : gset nat * list nat)
    : Result (gset nat * list nat) :=
  foldl (λ acc p, acc ≫= schedule_job h depth p) (Ok st) js.

(** [enumerate(l, start)] *)
Fixpoint enumerate {A} (start : nat) (l : list A) : list (nat * A) :=
  match l with
  | [] => []
  | x :: l' => (start, x) :: enumerate (S start) l'
  end.

(** [{j: i for i, j in enumerate(ordered_jobs, start=1)}]: a later entry for
    the same key replaces an earlier one. *)
Definition job_index_of (ordered_jobs : list job_ref) : gmap nat nat :=
  foldl (λ m ij, <[ij.2 := ij.1]> m) ∅ (enumerate 1 ordered_jobs).

Definition cycle_error : Exn :=
  BatchException "cycle detected in dependency graph".

(** The inner loop [for d in j._dependencies: if job_index[d] >= i: raise]. *)
Fixpoint check_dependencies (job_index : gmap nat nat) (i : nat)
    (ds : list job_ref) : Result unit :=
  match ds with
  | [] => Ok tt
  | d :: ds' =>
      match job_index !! d with
      | None => Raise KeyError
      | Some k =>
          if decide (i ≤ k) then Raise cycle_error
          else check_dependencies job_index i ds'
      end
  end.

(** The outer loop [for j in ordered_jobs], which assigns [j._job_id] before
    it checks the dependencies of [j]; the store it returns on [Raise] holds
    the positions assigned so far. *)
Fixpoint assign_job_ids (job_index : gmap nat nat) (js : list job_ref)
    (h : gmap nat job.Job) : Result unit * gmap nat job.Job :=
  match js with
  | [] => (Ok tt, h)
  | j :: js' =>
      match job_index !! j with
      | None => (Raise KeyError, h)
      | Some i =>
          let h' := alter (job.set_job_id i) j h in
          match check_dependencies job_index i (deps h' j) with
          | Ok _ => assign_job_ids job_index js' h'
          | Raise e => (Raise e, h')
          end
      end
  end.

(** ** Resource objects (class [resource.Resource] and its subclasses)

    Modelled from the spec: [resource.py] is not among the sources.  The four
    variants of the data model are four disjoint classes; a resource carries
    its uid (the [n] of ["__RESOURCE__n"], process-unique and never reused),
    the name it was created with, its producing job, the members of a group
    and the output destinations recorded on it. *)
Module resource.

Inductive Class :=
| InputResourceFile
| JobResourceFile
| ResourceGroup
| PythonResult.

Record Resource : Type := mk {
  cls : Class;
  _uid : nat;
  _value : string;
  _source : option job_ref;
  _input_path : option string;
  _resources : list (string * res_ref);      (* members of a group *)
  _output_paths : list string;
}.

Definition add_path (dest : string) (r : Resource) : Resource :=
  mk (cls r) (_uid r) (_value r) (_source r) (_input_path r) (_resources r)
     (_output_paths r ++ [dest]).

End resource.

#[global] Instance resource_Class_eq_dec : EqDecision resource.Class.
Proof. solve_decision. Defined.

(** ** The Batch object and the world around it *)

Inductive Backend :=
| LocalBackend
| ServiceBackend (regions : list string).

(** A Python value by its type: a string, an integer, [None], or an object
    of another class, given by the name of the class. *)
Inductive PyValue :=
| PyStr (s : string)
| PyInt (z : Z)
| PyNone
| PyObject (type_name : string).

(** One invocation of [self._backend._run(self, dry_run, verbose,
    delete_scratch_on_exit, **backend_kwargs)]: the arguments, with the job
    list the Batch held at that time. *)
Record BackendCall := mkBackendCall {
  call_jobs : list job_ref;
  call_dry_run : bool;
  call_verbose : bool;
  call_delete_scratch_on_exit : bool;
  call_backend_kwargs : list (string * PyValue);
}.

(** The attributes of [Batch.__init__] (batch.py, lines 159-207).  Left out
    are the Python-function tables and the batch handle, which none of the
    modelled methods reads. *)
Record BatchObj : Type := mkBatch {
  _jobs : list job_ref;
  _resource_map : gmap nat res_ref;
  _input_resources : gset res_ref;
  _uid : nat;                                  (* the n of "__BATCH__n" *)
  _job_tokens : gset string;
  _backend : Backend;
  name : option string;
  attributes : gmap string string;
  requester_pays_project : option string;
  _default_image : option string;
  _default_memory : option string;
  _default_cpu : option string;
  _default_storage : option string;
  _default_timeout : option Z;
  _default_shell : option string;
  _default_python_image : option string;
  _default_spot : option bool;
  _DEPRECATED_project : option string;
  _DEPRECATED_fs : bool;                       (* [is not None] *)
  _cancel_after_n_failures : option nat;
}.

Definition with_jobs (js : list job_ref) (b : BatchObj) : BatchObj :=
  mkBatch js (_resource_map b) (_input_resources b) (_uid b) (_job_tokens b)
    (_backend b) (name b) (attributes b) (requester_pays_project b)
    (_default_image b) (_default_memory b) (_default_cpu b)
    (_default_storage b) (_default_timeout b) (_default_shell b)
    (_default_python_image b) (_default_spot b) (_DEPRECATED_project b)
    (_DEPRECATED_fs b) (_cancel_after_n_failures b).

Definition with_resource_map (m : gmap nat res_ref) (b : BatchObj) : BatchObj :=
  mkBatch (_jobs b) m (_input_resources b) (_uid b) (_job_tokens b)
    (_backend b) (name b) (attributes b) (requester_pays_project b)
    (_default_image b) (_default_memory b) (_default_cpu b)
    (_default_storage b) (_default_timeout b) (_default_shell b)
    (_default_python_image b) (_default_spot b) (_DEPRECATED_project b)
    (_DEPRECATED_fs b) (_cancel_after_n_failures b).

Definition with_DEPRECATED_fs (fs : bool) (b : BatchObj) : BatchObj :=
  mkBatch (_jobs b) (_resource_map b) (_input_resources b) (_uid b)
    (_job_tokens b) (_backend b) (name b) (attributes b)
    (requester_pays_project b) (_default_image b) (_default_memory b)
    (_default_cpu b) (_default_storage b) (_default_timeout b)
    (_default_shell b) (_default_python_image b) (_default_spot b)
    (_DEPRECATED_project b) fs (_cancel_after_n_failures b).

(** Everything a method of [Batch] can read or change: the Batch itself, the
    stores of job and resource objects, the class-level counters, the stream
    of strings that [secret_alnum_string] will return (with the number of
    draws made so far), and the log of backend invocations. *)
Record World : Type := mkWorld {
  self : BatchObj;
  job_store : gmap nat job.Job;
  resource_store : gmap nat resource.Resource;
  Resource_counter : nat;
  Batch_counter : nat;
  entropy : nat → string;
  draws : nat;
  backend_calls : list BackendCall;
  fs_closed : nat;           (* number of [_DEPRECATED_fs.close()] calls *)
}.

Definition with_self (f : BatchObj → BatchObj) (w : World) : World :=
  mkWorld (f (self w)) (job_store w) (resource_store w) (Resource_counter w)
    (Batch_counter w) (entropy w) (draws w) (backend_calls w) (fs_closed w).

Definition with_job_store (f : gmap nat job.Job → gmap nat job.Job)
    (w : World) : World :=
  mkWorld (self w) (f (job_store w)) (resource_store w) (Resource_counter w)
    (Batch_counter w) (entropy w) (draws w) (backend_calls w) (fs_closed w).

Definition with_resource_store
    (f : gmap nat resource.Resource → gmap nat resource.Resource)
    (w : World) : World :=
  mkWorld (self w) (job_store w) (f (resource_store w)) (Resource_counter w)
    (Batch_counter w) (entropy w) (draws w) (backend_calls w) (fs_closed w).

(** ** Methods as state transformers

    A method maps the world to the value it returns or the exception it
    raises, and to the world it leaves behind.  [None] is no Python outcome:
    it marks a loop bound that was too small, or a reference that denotes
    no object of the stores. *)
Definition M (A : Type) : Type := World → option (Result A * World).

#[global] Instance M_ret : MRet M := λ A a w, Some (Ok a, w).
#[global] Instance M_bind : MBind M := λ A B k m w,
  match m w with
  | None => None
  | Some (Raise e, w') => Some (Raise e, w')
  | Some (Ok a, w') => k a w'
  end.

Definition raise {A} (e : Exn) : M A := λ w, Some (Raise e, w).
Definition stuck {A} : M A := λ _, None.
Definition get : M World := λ w, Some (Ok w, w).
Definition modify (f : World → World) : M unit := λ w, Some (Ok tt, f w).

(** ** External collaborators

    Functions of the Python library and of the backend that the modelled
    methods call and that the repository does not define: [url_scheme]
    (hailtop.utils), [os.path.expanduser], [os.path.abspath], the evaluation
    by [eval] of a template as an f-string in the scope of
    [_new_resource_group] (seeing [root] and [name]). *)
Class Externals := {
  url_scheme : string → string;
  expanduser : string → string;
  abspath : string → string;
  eval_fstring : string → string → string → Result string;
}.

(** ** Calls into the absent modules *)

(** [secret_alnum_string(n)] (hailtop.utils): the next string of the stream.
    The stream is arbitrary, so the length [n] does not constrain it. *)
Definition secret_alnum_string (n : nat) : M string := λ w,
  Some (Ok (entropy w (draws w)),
        mkWorld (self w) (job_store w) (resource_store w) (Resource_counter w)
          (Batch_counter w) (entropy w) (S (draws w)) (backend_calls w)
          (fs_closed w)).

(** Modelled from the spec: the constructors [job.BashJob] and
    [job.PythonJob] ([job.py] is not among the sources).  A Job Descriptor is
    created with the token, name, attributes and shell it is given, no
    execution parameter, no dependency and no mentioned resource; the new
    object gets an identity that no job object has. *)
Definition new_job_object (c : job.Class) (token : string)
    (name : option string) (attributes : gmap string string)
    (shell : option string) : M job_ref := λ w,
  let r := fresh (dom (job_store w)) in
  let o := job.mk c token name attributes shell None None None None None None
             None [] ∅ ∅ None in
  Some (Ok r, with_job_store (insert r o) w).

(** Modelled from the spec: the setters [j.image], [j.memory], [j.cpu],
    [j.storage], [j.timeout], [j.spot] and [j.regions] of a Job Descriptor,
    each storing the execution parameter it is given. *)
Definition update_job (j : job_ref) (f : job.Job → job.Job) : M unit := λ w,
  match job_store w !! j with
  | None => None
  | Some _ => Some (Ok tt, with_job_store (alter f j) w)
  end.

Definition set_image (v : string) (o : job.Job) : job.Job :=
  job.mk (job.cls o) (job._token o) (job.name o) (job.attributes o)
    (job._shell o) (Some v) (job._memory o) (job._cpu o) (job._storage o)
    (job._timeout o) (job._spot o) (job._regions o) (job._dependencies o)
    (job._mentioned o) (job._resources_inverse o) (job._job_id o).

Definition set_memory (v : string) (o : job.Job) : job.Job :=
  job.mk (job.cls o) (job._token o) (job.name o) (job.attributes o)
    (job._shell o) (job._image o) (Some v) (job._cpu o) (job._storage o)
    (job._timeout o) (job._spot o) (job._regions o) (job._dependencies o)
    (job._mentioned o) (job._resources_inverse o) (job._job_id o).

Definition set_cpu (v : string) (o : job.Job) : job.Job :=
  job.mk (job.cls o) (job._token o) (job.name o) (job.attributes o)
    (job._shell o) (job._image o) (job._memory o) (Some v) (job._storage o)
    (job._timeout o) (job._spot o) (job._regions o) (job._dependencies o)
    (job._mentioned o) (job._resources_inverse o) (job._job_id o).

Definition set_storage (v : string) (o : job.Job) : job.Job :=
  job.mk (job.cls o) (job._token o) (job.name o) (job.attributes o)
    (job._shell o) (job._image o) (job._memory o) (job._cpu o) (Some v)
    (job._timeout o) (job._spot o) (job._regions o) (job._dependencies o)
    (job._mentioned o) (job._resources_inverse o) (job._job_id o).

Definition set_timeout (v : Z) (o : job.Job) : job.Job :=
  job.mk (job.cls o) (job._token o) (job.name o) (job.attributes o)
    (job._shell o) (job._image o) (job._memory o) (job._cpu o) (job._storage o)
    (Some v) (job._spot o) (job._regions o) (job._dependencies o)
    (job._mentioned o) (job._resources_inverse o) (job._job_id o).

Definition set_spot (v : bool) (o : job.Job) : job.Job :=
  job.mk (job.cls o) (job._token o) (job.name o) (job.attributes o)
    (job._shell o) (job._image o) (job._memory o) (job._cpu o) (job._storage o)
    (job._timeout o) (Some v) (job._regions o) (job._dependencies o)
    (job._mentioned o) (job._resources_inverse o) (job._job_id o).

Definition set_regions (v : list string) (o : job.Job) : job.Job :=
  job.mk (job.cls o) (job._token o) (job.name o) (job.attributes o)
    (job._shell o) (job._image o) (job._memory o) (job._cpu o) (job._storage o)
    (job._timeout o) (job._spot o) (Some v) (job._dependencies o)
    (job._mentioned o) (job._resources_inverse o) (job._job_id o).

(** [if x is not None: j.setter(x)] *)
Definition apply_default {A} (x : option A) (setter : A → job.Job → job.Job)
    (j : job_ref) : M unit :=
  match x with
  | Some v => update_job j (setter v)
  | None => mret tt
  end.

(** Modelled from the spec: the constructors of the resource classes
    ([resource.py] is not among the sources).  A new resource takes its uid
    from the class-level counter, which is then advanced, and an identity
    that no resource object has; nothing is recorded on it yet. *)
Definition new_resource_object (c : resource.Class) (value : string)
    (source : option job_ref) (members : list (string * res_ref))
    : M res_ref := λ w,
  let r := fresh (dom (resource_store w)) in
  let o := resource.mk c (Resource_counter w) value source None members [] in
  Some (Ok r,
        mkWorld (self w) (job_store w) (<[r := o]> (resource_store w))
          (S (Resource_counter w)) (Batch_counter w) (entropy w) (draws w)
          (backend_calls w) (fs_closed w)).

(** [resource._uid] *)
Definition uid_of (r : res_ref) : M nat := λ w,
  match resource_store w !! r with
  | None => None
  | Some o => Some (Ok (resource._uid o), w)
  end.

(** Modelled from the spec: the method [_add_output_path] of a resource
    ([resource.py] is not among the sources).  A file or a callable result
    records the destination on itself; a group hands [dest.identifier] to
    each of its members, as the docstring of [write_output] says. *)
Definition add_output_path_file (r : res_ref) (dest : string)
    (s : gmap nat resource.Resource) : gmap nat resource.Resource :=
  alter (resource.add_path dest) r s.

Definition _add_output_path (r : res_ref) (dest : string) : M unit := λ w,
  match resource_store w !! r with
  | None => None
  | Some o =>
      match resource.cls o with
      | resource.ResourceGroup =>
          Some (Ok tt,
                with_resource_store
                  (λ s, foldl (λ s m, add_output_path_file m.2
                                        (dest +:+ "." +:+ m.1) s)
                              s (resource._resources o)) w)
      | _ => Some (Ok tt, with_resource_store (add_output_path_file r dest) w)
      end
  end.

(** ** Python values handed to the methods *)

(** What [write_output] is given as [resource]: an instance of [Resource]
    (by identity), or a value that is none. *)
Inductive Argument :=
| PyResource (r : res_ref)
| PyOther (v : PyValue).

(** [type(v)] as an f-string prints it. *)
Definition type_repr (v : PyValue) : string :=
  match v with
  | PyStr _ => "<class 'str'>"
  | PyInt _ => "<class 'int'>"
  | PyNone => "<class 'NoneType'>"
  | PyObject t => "<class '" +:+ t +:+ "'>"
  end.

Definition newline : string := String "010"%char EmptyString.

(** [d[name] = r] on a dict kept in insertion order. *)
Fixpoint dict_set {A} (k : string) (v : A) (d : list (string * A))
    : list (string * A) :=
  match d with
  | [] => [(k, v)]
  | (k', v') :: d' =>
      if decide (k' = k) then (k, v) :: d' else (k', v') :: dict_set k v d'
  end.

(** ** The methods of [Batch] (batch.py) *)
Module Batch.
Section methods.
Context `{Externals}.

Definition name_error : Exn :=
  BatchException "'name' is not a valid attribute. Use the name argument instead.".

(** [Batch.__init__], lines 144-207.  [backend_config] is what
    [configuration_of] returns and [service_regions] the regions of a
    default-constructed [ServiceBackend].  The uid is taken, and the class
    counter advanced, before any check; when a check fails the object under
    construction is dropped. *)
Definition __init__ (name : option string) (backend : option Backend)
    (attributes : option (gmap string string))
    (requester_pays_project default_image default_memory default_cpu
       default_storage : option string)
    (default_timeout : option Z)
    (default_shell default_python_image : option string)
    (default_spot : option bool) (project : option string)
    (cancel_after_n_failures : option nat)
    (backend_config : string) (service_regions : list string) : M unit := λ w,
  let uid := Batch_counter w in
  let counted (b : BatchObj) :=
    mkWorld b (job_store w) (resource_store w) (Resource_counter w) (S uid)
      (entropy w) (draws w) (backend_calls w) (fs_closed w) in
  let chosen :=
    match backend with
    | Some b => Ok b
    | None =>
        if decide (backend_config = "service")
        then Ok (ServiceBackend service_regions)
        else if decide (backend_config = "local") then Ok LocalBackend
        else Raise AssertionError
    end in
  match chosen with
  | Raise e => Some (Raise e, counted (self w))
  | Ok b =>
      let attributes := default ∅ attributes in
      if decide ("name" ∈ dom attributes)
      then Some (Raise name_error, counted (self w))
      else
        Some (Ok tt,
              counted (mkBatch [] ∅ ∅ uid ∅ b name attributes
                         requester_pays_project default_image default_memory
                         default_cpu default_storage default_timeout
                         default_shell default_python_image default_spot
                         project false cancel_after_n_failures))
  end.

(** The loop of [_unique_job_token], lines 250-251: as long as the
    candidate is in [self._job_tokens], draw again.  The loop has no bound
    in Python; [fuel] bounds the number of redraws. *)
Fixpoint redraw (fuel : nat) (n : nat) (token : string) : M string :=
  match fuel with
  | 0 => stuck
  | S fuel' =>
      w ← get;
      if decide (token ∈ _job_tokens (self w))
      then token' ← secret_alnum_string n; redraw fuel' n token'
      else mret token
  end.

(** [_unique_job_token], lines 248-252. *)
Definition _unique_job_token (fuel : nat) (n : nat) : M string :=
  token ← secret_alnum_string n;
  redraw fuel n token.

(** [self._jobs.append(j)] *)
Definition append_job (j : job_ref) : M unit :=
  modify (with_self (λ b, with_jobs (_jobs b ++ [j]) b)).

(** [if isinstance(self._backend, ServiceBackend): j.regions(...)] *)
Definition apply_regions (j : job_ref) : M unit :=
  w ← get;
  match _backend (self w) with
  | ServiceBackend regions => update_job j (set_regions regions)
  | LocalBackend => mret tt
  end.

(** [new_bash_job], lines 299-325. *)
Definition new_bash_job (fuel : nat) (name : option string)
    (attributes : option (gmap string string)) (shell : option string)
    : M job_ref :=
  w ← get;
  let attributes := default ∅ attributes in
  let shell := match shell with
               | None => _default_shell (self w)
               | Some s => Some s
               end in
  token ← _unique_job_token fuel 5;
  j ← new_job_object job.BashJob token name attributes shell;
  apply_default (_default_image (self w)) set_image j;;
  apply_default (_default_memory (self w)) set_memory j;;
  apply_default (_default_cpu (self w)) set_cpu j;;
  apply_default (_default_storage (self w)) set_storage j;;
  apply_default (_default_timeout (self w)) set_timeout j;;
  apply_default (_default_spot (self w)) set_spot j;;
  apply_regions j;;
  append_job j;;
  mret j.

(** [new_job], line 271: an alias. *)
Definition new_job (fuel : nat) (name : option string)
    (attributes : option (gmap string string)) (shell : option string)
    : M job_ref :=
  new_bash_job fuel name attributes shell.

(** [new_python_job], lines 376-399. *)
Definition new_python_job (fuel : nat) (name : option string)
    (attributes : option (gmap string string)) : M job_ref :=
  w ← get;
  let attributes := default ∅ attributes in
  token ← _unique_job_token fuel 5;
  j ← new_job_object job.PythonJob token name attributes None;
  apply_default (_default_python_image (self w)) set_image j;;
  apply_default (_default_memory (self w)) set_memory j;;
  apply_default (_default_cpu (self w)) set_cpu j;;
  apply_default (_default_storage (self w)) set_storage j;;
  apply_default (_default_timeout (self w)) set_timeout j;;
  apply_default (_default_spot (self w)) set_spot j;;
  apply_regions j;;
  append_job j;;
  mret j.

(** [self._resource_map[uid] = r] *)
Definition register (uid : nat) (r : res_ref) : M unit :=
  modify (with_self (λ b, with_resource_map (<[uid := r]> (_resource_map b)) b)).

(** [self._resource_map.update(m)]: the entries of [m] win. *)
Definition register_all (m : gmap nat res_ref) : M unit :=
  modify (with_self (λ b, with_resource_map (m ∪ _resource_map b) b)).

(** [_new_job_resource_file], lines 401-406. *)
Definition _new_job_resource_file (source : option job_ref)
    (value : option string) : M res_ref :=
  value ← match value with
          | None => secret_alnum_string 5
          | Some v => mret v
          end;
  jrf ← new_resource_object resource.JobResourceFile value source [];
  uid ← uid_of jrf;
  register uid jrf;;
  mret jrf.

(** [_new_python_result], lines 442-447. *)
Definition _new_python_result (source : option job_ref)
    (value : option string) : M res_ref :=
  value ← match value with
          | None => secret_alnum_string 5
          | Some v => mret v
          end;
  jrf ← new_resource_object resource.PythonResult value source [];
  uid ← uid_of jrf;
  register uid jrf;;
  mret jrf.

Definition not_a_string (name : string) (code : PyValue) : Exn :=
  BatchException ("value for name '" +:+ name +:+ "' is not a string. Found '"
                  +:+ type_repr code +:+ "' instead.").

(** The loop of [_new_resource_group], lines 430-435, over the items of
    [mappings] in insertion order, with the dicts [d] and
    [new_resource_map] it fills. *)
Fixpoint group_members (source : option job_ref) (root : string)
    (items : list (string * PyValue)) (d : list (string * res_ref))
    (new_resource_map : gmap nat res_ref)
    : M (list (string * res_ref) * gmap nat res_ref) :=
  match items with
  | [] => mret (d, new_resource_map)
  | (name, code) :: items' =>
      match code with
      | PyStr code =>
          match eval_fstring root name code with
          | Raise e => raise e
          | Ok value =>
              r ← _new_job_resource_file source (Some value);
              uid ← uid_of r;
              group_members source root items' (dict_set name r d)
                (<[uid := r]> new_resource_map)
          end
      | _ => raise (not_a_string name code)
      end
  end.

(** [_new_resource_group], lines 424-440.  [mappings] is a dict, given by
    its items. *)
Definition _new_resource_group (source : option job_ref)
    (mappings : list (string * PyValue)) (root : option string)
    : M res_ref :=
  root ← match root with
         | None => secret_alnum_string 5
         | Some r => mret r
         end;
  dm ← group_members source root mappings [] ∅;
  register_all dm.2;;
  rg ← new_resource_object resource.ResourceGroup root source dm.1;
  uid ← uid_of rg;
  register_all {[uid := rg]};;
  mret rg.

(** [resource._source] when it is an instance of the job class [c] that
    does not hold [r] in its [_mentioned] set; [None] otherwise. *)
Definition unmentioned_source (c : job.Class) (r : res_ref)
    (o : resource.Resource) : M (option job.Job) := λ w,
  match resource._source o with
  | None => Some (Ok None, w)
  | Some j =>
      match job_store w !! j with
      | None => None
      | Some jo =>
          if decide (job.cls jo = c)
          then if decide (r ∈ job._mentioned jo) then Some (Ok None, w)
               else Some (Ok (Some jo), w)
          else Some (Ok None, w)
      end
  end.

Definition not_a_resource (resource : PyValue) : Exn :=
  BatchException ("'write_output' only accepts Resource inputs. Found '"
                  +:+ type_repr resource +:+ "'.").

Definition undefined_resource (name hint : string) : Exn :=
  BatchException ("undefined resource '" +:+ name +:+ "'" +:+ newline +:+ hint).

Definition bash_hint : string :=
  "Hint: resources must be defined within the job methods 'command' or 'declare_resource_group'".

Definition python_hint : string :=
  "Hint: resources must be bound as a result using the PythonJob 'call' method".

(** [name = resource._source._resources_inverse[resource]], then the raise. *)
Definition raise_undefined (jo : job.Job) (r : res_ref) (hint : string)
    : M unit :=
  match job._resources_inverse jo !! r with
  | None => raise KeyError
  | Some name => raise (undefined_resource name hint)
  end.

(** [write_output], lines 599-621. *)
Definition write_output (resource : Argument) (dest : string) : M unit :=
  match resource with
  | PyResource r =>
      w ← get;
      match resource_store w !! r with
      | None => stuck
      | Some o =>
          src ← (if decide (resource.cls o = resource.JobResourceFile)
                 then unmentioned_source job.BashJob r o else mret None);
          match src with
          | Some jo => raise_undefined jo r bash_hint
          | None =>
              src ← (if decide (resource.cls o = resource.PythonResult)
                     then unmentioned_source job.PythonJob r o else mret None);
              match src with
              | Some jo => raise_undefined jo r python_hint
              | None =>
                  let dest :=
                    match _backend (self w) with
                    | LocalBackend =>
                        if decide (url_scheme dest = "")
                        then abspath (expanduser dest) else dest
                    | ServiceBackend _ => dest
                    end in
                  _add_output_path r dest
              end
          end
      end
  | PyOther v => raise (not_a_resource v)
  end.
End methods.
End Batch.

(** ** [LocalFS.open] (local_fs.py, lines 13-20) *)

(** The operating system behind the built-in [open], [os.makedirs] and
    [os.path.dirname]: each call returns a value or raises, and changes the
    state of the file system. *)
Class OperatingSystem (OS Handle : Type) := {
  builtin_open : string → string → Z → OS → Result Handle * OS;
  os_makedirs : string → OS → Result unit * OS;
  os_path_dirname : string → string;
}.

(** The calls a method makes to the operating system, in order. *)
Inductive Syscall :=
| SysOpen (path mode : string) (buffering : Z)
| SysMakedirs (path : string).

(** [c in s] for a one-character [c]. *)
Fixpoint contains_char (c : ascii) (s : string) : bool :=
  match s with
  | EmptyString => false
  | String c' s' => if decide (c' = c) then true else contains_char c s'
  end.

Module LocalFS.
Section methods.
Context {OS Handle : Type} `{OperatingSystem OS Handle}.

(** [open]: the result, the file system left behind and the calls made. *)
Definition open (path mode : string) (buffer_size : Z) (s : OS)
    : Result Handle * OS * list Syscall :=
  if contains_char "w" mode then
    match builtin_open path mode buffer_size s with
    | (Raise (FileNotFoundError _), s1) =>
        match os_makedirs (os_path_dirname path) s1 with
        | (Raise e, s2) =>
            (Raise e, s2,
             [SysOpen path mode buffer_size;
              SysMakedirs (os_path_dirname path)])
        | (Ok _, s2) =>
            let '(r, s3) := builtin_open path mode buffer_size s2 in
            (r, s3,
             [SysOpen path mode buffer_size;
              SysMakedirs (os_path_dirname path);
              SysOpen path mode buffer_size])
        end
    | (r, s1) => (r, s1, [SysOpen path mode buffer_size])
    end
  else
    let '(r, s1) := builtin_open path mode buffer_size s in
    (r, s1, [SysOpen path mode buffer_size]).
End methods.
End LocalFS.

(** ** [RouterFS.stat] (router_fs.py, lines 150-223) *)

Module stat_result.
Inductive FileType := FILE | DIRECTORY.

Record StatResult := mk {
  path : string;
  size : Z;
  typ : FileType;
  owner : option string;
  modification_time : option Z;
}.
End stat_result.

(** The asynchronous file system [self.afs] as the façade sees it when a
    call is made: [afs_statfile_size path] is the outcome of
    [await (await self.afs.statfile(path)).size()] and [afs_isdir path] the
    outcome of [await self.afs.isdir(path)].  [asyncio.gather] raises the
    exception that comes first in time: [stat_isdir_fails_first path] tells
    whether, when both coroutines of [stat] fail, the directory probe is the
    first to fail. *)
Class AsyncFS := {
  afs_statfile_size : string → Result Z;
  afs_isdir : string → Result bool;
  stat_isdir_fails_first : string → bool;
}.

(** [path[-1]]: the last character, [None] on the empty string. *)
Fixpoint last_char (s : string) : option ascii :=
  match s with
  | EmptyString => None
  | String c EmptyString => Some c
  | String _ s' => last_char s'
  end.

(** [_stat_result], lines 150-156. *)
Definition _stat_result (is_dir : bool) (size_bytes : Z) (path : string)
    : stat_result.StatResult :=
  stat_result.mk path size_bytes
    (if is_dir then stat_result.DIRECTORY else stat_result.FILE) None None.

Module RouterFS.
Section methods.
Context `{AsyncFS}.

(** [_async_is_dir], lines 203-206; indexing the empty string raises. *)
Definition _async_is_dir (path : string) : Result bool :=
  match last_char path with
  | None => Raise IndexError
  | Some c =>
      if decide (c ≠ "/"%char) then afs_isdir (path +:+ "/")
      else afs_isdir path
  end.

(** The local coroutine [size_bytes_or_none], lines 212-216. *)
Definition size_bytes_or_none (path : string) : Result (option Z) :=
  match afs_statfile_size path with
  | Ok n => Ok (Some n)
  | Raise (FileNotFoundError _) => Ok None
  | Raise e => Raise e
  end.

(** [stat], lines 211-223.  [asyncio.gather] runs both coroutines and
    raises what the first failing one raised. *)
Definition stat (path : string) : Result stat_result.StatResult :=
  match size_bytes_or_none path, _async_is_dir path with
  | Raise e_size, Raise e_dir =>
      if stat_isdir_fails_first path then Raise e_dir else Raise e_size
  | Raise e, Ok _ => Raise e
  | Ok _, Raise e => Raise e
  | Ok size_bytes, Ok is_dir =>
      match size_bytes with
      | None =>
          if negb is_dir then Raise (FileNotFoundError path)
          else Ok (_stat_result true 0 path)
      | Some n => Ok (_stat_result is_dir n path)
      end
  end.
End methods.
End RouterFS.

(** ** Specification vocabulary for [run] *)




(** Every job of [js] has an index, above the index of each dependency. *)
Definition forward (idx : gmap nat nat) (h : gmap nat job.Job) (js : list nat) : Prop :=
  ∀ x, x ∈ js → ∃ i, idx !! x = Some i ∧
    ∀ d, d ∈ deps h x → ∃ k, idx !! d = Some k ∧ k < i.


(** [j._job_id] *)
Definition position_in (h : gmap nat job.Job) (j : job_ref) : option nat :=
  h !! j ≫= job._job_id.

Definition position (w : World) (j : job_ref) : option nat :=
  position_in (job_store w) j.

(** The jobs of the Batch are objects of the store. *)
Definition allocated (w : World) : Prop :=
  ∀ j, j ∈ _jobs (self w) → is_Some (job_store w !! j).





(** ** Concrete inputs *)

(** A template without braces, backslashes and double quotes: as an
    f-string it evaluates to itself. *)
Fixpoint plain_template (s : string) : bool :=
  match s with
  | EmptyString => true
  | String c s' =>
      if decide (c = "{"%char ∨ c = "}"%char ∨ c = "\"%char ∨ c = "034"%char)
      then false else plain_template s'
  end.

(** Collaborators for the concrete inputs below: only [gs://] counts as a
    scheme, the working directory is [/home/user], and plain templates
    evaluate to themselves (no other template is used). *)
Definition example_externals : Externals := {|
  url_scheme := λ s, if String.prefix "gs://" s then "gs" else "";
  expanduser := λ s, s;
  abspath := λ s, "/home/user/" +:+ s;
  eval_fstring := λ root name code,
    if plain_template code then Ok code else Raise (OtherError "SyntaxError");
|}.

Definition example_job (c : job.Class) (dependencies : list job_ref) : job.Job :=
  job.mk c "token" None ∅ None None None None None None None None
    dependencies ∅ ∅ None.

Definition example_batch (jobs : list job_ref) (backend : Backend) : BatchObj :=
  mkBatch jobs ∅ ∅ 0 ∅ backend None ∅ None None None None None None None None
    None None false None.

Definition example_world (jobs : list job_ref) (store : gmap nat job.Job) : World :=
  mkWorld (example_batch jobs LocalBackend) store ∅ 0 1 (λ _, "aaaaa") 0 [] 0.

(** Job 2 depends on job 1 and was created first. *)
Definition chain_world : World :=
  example_world [2; 1]
    (<[1 := example_job job.BashJob []]> (<[2 := example_job job.BashJob [1]]> ∅)).



(** The destinations recorded on resource [r]. *)
Definition output_paths (w : World) (r : res_ref) : option (list string) :=
  resource._output_paths <$> resource_store w !! r.

(** [r] is a resource produced by a job that has not mentioned it. *)
Definition unmentioned_product (w : World) (r : res_ref) : Prop :=
  ∃ o j jo,
    resource_store w !! r = Some o ∧
    resource.cls o ≠ resource.InputResourceFile ∧
    resource._source o = Some j ∧
    job_store w !! j = Some jo ∧
    r ∉ job._mentioned jo.

Definition example_resource (c : resource.Class) (uid : nat)
    (source : option job_ref) (members : list (string * res_ref))
    : resource.Resource :=
  resource.mk c uid "name" source None members [].

(** A bash job 1 that knows resource 5 as [ofile] and has mentioned
    nothing; an input file 3; job files 5 and 8 and a group 7 with the
    member [bed] = 8, all three produced by job 1. *)
Definition output_world : World :=
  mkWorld (example_batch [1] LocalBackend)
    (<[1 := job.mk job.BashJob "token" None ∅ None None None None None None
              None None [] ∅ {[5 := "ofile"]} None]> ∅)
    (<[3 := example_resource resource.InputResourceFile 0 None []]>
     (<[5 := example_resource resource.JobResourceFile 1 (Some 1) []]>
      (<[7 := example_resource resource.ResourceGroup 3 (Some 1) [("bed", 8)]]>
       (<[8 := example_resource resource.JobResourceFile 2 (Some 1) []]> ∅))))
    4 1 (λ _, "aaaaa") 0 [] 0.

(** [j._token] *)
Definition token_of (w : World) (j : job_ref) : option string :=
  job._token <$> job_store w !! j.

(** [j.attributes] *)
Definition attributes_of (w : World) (j : job_ref)
    : option (gmap string string) :=
  job.attributes <$> job_store w !! j.

(** A Batch without jobs, in a world whose random strings are all equal. *)
Definition empty_world : World := example_world [] ∅.

Definition reserved_name : gmap string string := {[ "name" := "x" ]}.
(** A step that cannot raise and leaves the used-token set as it is. *)
Definition quiet {A} (m : M A) : Prop :=
  ∀ w r w', m w = Some (r, w') →
    (∃ a, r = Ok a) ∧ _job_tokens (self w') = _job_tokens (self w).

(** A file system for the concrete inputs: the state is the list of the
    directories that exist, there is no file to read, a file can be created
    in an existing directory only, and a handle is the path it was opened
    with. *)
Fixpoint up_to_last_slash (s : string) : option string :=
  match s with
  | EmptyString => None
  | String c s' =>
      match up_to_last_slash s' with
      | Some d => Some (String c d)
      | None => if decide (c = "/"%char) then Some EmptyString else None
      end
  end.

Definition example_os : OperatingSystem (list string) string := {|
  builtin_open := λ path mode _ dirs,
    if contains_char "w" mode
    then if decide (default "" (up_to_last_slash path) ∈ dirs)
         then (Ok path, dirs)
         else (Raise (FileNotFoundError path), dirs)
    else (Raise (FileNotFoundError path), dirs);
  os_makedirs := λ d dirs,
    if decide (d ∈ dirs) then (Raise (OtherError "FileExistsError"), dirs)
    else (Ok tt, d :: dirs);
  os_path_dirname := λ path, default "" (up_to_last_slash path);
|}.

(** An object store for the concrete inputs: one object [data/file] of 42
    bytes, and hence one directory [data/]. *)
Definition example_afs : AsyncFS := {|
  afs_statfile_size := λ path,
    if decide (path = "data/file") then Ok 42%Z
    else Raise (FileNotFoundError path);
  afs_isdir := λ path, Ok (bool_decide (path = "data/"));
  stat_isdir_fails_first := λ _, false;
|}.

(** The mapping value of [item] is a string whose evaluation as a
    template succeeds. *)
Definition expands `{Externals} (root : string) (item : string * PyValue) : Prop :=
  ∃ code value, item.2 = PyStr code ∧ eval_fstring root item.1 code = Ok value.

(** [r] is a job resource file named [value], produced by [source], and
    the registry of the Batch holds it under its uid. *)
Definition registered_file (w : World) (source : option job_ref)
    (value : string) (r : res_ref) : Prop :=
  ∃ o, resource_store w !! r = Some o ∧
       resource.cls o = resource.JobResourceFile ∧
       resource._value o = value ∧
       resource._source o = source ∧
       resource._uid o < Resource_counter w ∧
       _resource_map (self w) !! resource._uid o = Some r.

(** [r] is the registered member minted for [item]: its name is the
    expansion of the template of [item]. *)
Definition member_of `{Externals} (w : World) (root : string)
    (source : option job_ref) (item : string * PyValue) (r : res_ref) : Prop :=
  ∃ code value, item.2 = PyStr code ∧
                eval_fstring root item.1 code = Ok value ∧
                registered_file w source value r.

(** The world after [_new_job_resource_file(source, value)]. *)
Definition minted_file (source : option job_ref) (value : string) (w : World)
    : World :=
  let r := fresh (dom (resource_store w)) in
  mkWorld
    (with_resource_map (<[Resource_counter w := r]> (_resource_map (self w)))
       (self w))
    (job_store w)
    (<[r := resource.mk resource.JobResourceFile (Resource_counter w) value
              source None [] []]> (resource_store w))
    (S (Resource_counter w)) (Batch_counter w) (entropy w) (draws w)
    (backend_calls w) (fs_closed w).
(** [secret_alnum_string] or the given root: the root in use. *)
Definition root_in_use (w : World) (root : option string) : string :=
  default (entropy w (draws w)) root.

(** A mapping with a value that is not a string in second place. *)
Definition bad_mapping : list (string * PyValue) :=
  [("a", PyStr "x"); ("b", PyInt 5)].

Definition good_mapping : list (string * PyValue) :=
  [("bed", PyStr "x.bed"); ("bim", PyStr "x.bim")].

(** The job list of the Batch holds distinct objects of the store. *)
Definition batch_wf (w : World) : Prop :=
  NoDup (_jobs (self w)) ∧ allocated w.

(** [m], started in a world with [P], does not raise, and every value it
    returns satisfies [Q] with the world it leaves. *)
Definition hoare {A} (P : World → Prop) (m : M A) (Q : A → World → Prop) : Prop :=
  ∀ w r w', P w → m w = Some (r, w') → ∃ a, r = Ok a ∧ Q a w'.

(** Job [j] exists and is not yet in the job list of the Batch. *)
Definition pending (j : job_ref) (w : World) : Prop :=
  batch_wf w ∧ is_Some (job_store w !! j) ∧ j ∉ _jobs (self w).

(** Every dependency of a job of [l] stands earlier in [l]. *)
Definition in_dependency_order (h : gmap nat job.Job) (l : list job_ref) : Prop :=
  ∀ i x d, l !! i = Some x → d ∈ deps h x → ∃ k, k < i ∧ l !! k = Some d.

(** [o'] is [o], possibly with another [_job_id]. *)
Definition same_but_job_id (o o' : job.Job) : Prop :=
  o' = o ∨ ∃ i, o' = job.set_job_id i o.

(** Job 1, then job 2 that depends on it, then job 3 that depends on
    both. *)
Definition ordered_world : World :=
  example_world [1; 2; 3]
    (<[1 := example_job job.BashJob []]>
     (<[2 := example_job job.BashJob [1]]>
      (<[3 := example_job job.PythonJob [2; 1]]> ∅))).


(** The world after [k] more calls of [secret_alnum_string]. *)
Definition drawn (k : nat) (w : World) : World :=
  mkWorld (self w) (job_store w) (resource_store w) (Resource_counter w)
    (Batch_counter w) (entropy w) (k + draws w) (backend_calls w) (fs_closed w).

(** The world in which the job object at [j] is [o]. *)
Definition placed (j : job_ref) (o : job.Job) (w : World) : World :=
  with_job_store (insert j o) w.

(** [if x is not None: setter(x)] on a job object. *)
Definition opt_set {A} (x : option A) (setter : A → job.Job → job.Job)
    (o : job.Job) : job.Job :=
  match x with
  | Some v => setter v o
  | None => o
  end.

(** The defaults of Batch [b], with [image] as the default image, applied
    to a job object in the order of the factories. *)
Definition with_defaults (b : BatchObj) (image : option string) (o : job.Job)
    : job.Job :=
  let o := opt_set image set_image o in
  let o := opt_set (_default_memory b) set_memory o in
  let o := opt_set (_default_cpu b) set_cpu o in
  let o := opt_set (_default_storage b) set_storage o in
  let o := opt_set (_default_timeout b) set_timeout o in
  let o := opt_set (_default_spot b) set_spot o in
  match _backend b with
  | ServiceBackend regions => set_regions regions o
  | LocalBackend => o
  end.

(** A service Batch with defaults for the image, the Python image, the
    memory and the shell, one job and the used token [aaaaa]; the random
    source returns [aaaaa], [aaaaa], [bbbbb], [ccccc], ... *)
Definition service_world : World :=
  mkWorld
    (mkBatch [0] ∅ ∅ 0 {["aaaaa"]} (ServiceBackend ["us-central1"]) None ∅ None
       (Some "ubuntu:22.04") (Some "4Gi") None None None (Some "/bin/sh")
       (Some "python:3.10") None None true None)
    (<[0 := example_job job.BashJob []]> ∅) ∅ 0 1
    (λ n, match n with 0 | 1 => "aaaaa" | 2 => "bbbbb" | _ => "ccccc" end)
    0 [] 0.

(** ** Input resources (batch.py, lines 408-422 and 449-542) *)

(** [s.rstrip("/")]: [s] without its trailing slashes. *)
Fixpoint rstrip_slash (s : string) : string :=
  match s with
  | EmptyString => EmptyString
  | String c s' =>
      match rstrip_slash s' with
      | EmptyString =>
          if decide (c = "/"%char) then EmptyString else String c EmptyString
      | t => String c t
      end
  end.

(** [os.path.basename(s)] (posixpath): what follows the last slash. *)
Fixpoint basename (s : string) : string :=
  match s with
  | EmptyString => EmptyString
  | String c s' =>
      if contains_char "/" s' then basename s'
      else if decide (c = "/"%char) then s' else String c s'
  end.

(** What [_new_input_resource_file] calls outside the repository's sources:
    [validate_file_scheme] of the backend, which returns or raises, and
    [AzureAsyncFS.valid_url] and [AzureAsyncFS.get_name_parts], which splits
    an Azure URL into the name and the query string. *)
Class InputExternals := {
  validate_file_scheme : Backend → string → Result unit;
  azure_valid_url : string → bool;
  azure_get_name_parts : string → Result (string * string);
}.

Definition with_input_resources (s : gset res_ref) (b : BatchObj) : BatchObj :=
  mkBatch (_jobs b) (_resource_map b) s (_uid b) (_job_tokens b)
    (_backend b) (name b) (attributes b) (requester_pays_project b)
    (_default_image b) (_default_memory b) (_default_cpu b)
    (_default_storage b) (_default_timeout b) (_default_shell b)
    (_default_python_image b) (_default_spot b) (_DEPRECATED_project b)
    (_DEPRECATED_fs b) (_cancel_after_n_failures b).

Definition set_input_path (path : string) (r : resource.Resource)
    : resource.Resource :=
  resource.mk (resource.cls r) (resource._uid r) (resource._value r)
    (resource._source r) (Some path) (resource._resources r)
    (resource._output_paths r).

(** Modelled from the spec: the method [_add_input_path] of an input
    resource file ([resource.py] is not among the sources), which records
    the source path on the resource. *)
Definition _add_input_path (r : res_ref) (path : string) : M unit := λ w,
  match resource_store w !! r with
  | None => None
  | Some _ => Some (Ok tt, with_resource_store (alter (set_input_path path) r) w)
  end.

Module BatchInputs.
Section methods.
Context `{InputExternals}.

(** [_new_input_resource_file], lines 408-422.  [root or ...] takes the
    random string when [root] is [None] or empty. *)
Definition _new_input_resource_file (input_path : string)
    (root : option string) : M res_ref :=
  w ← get;
  match validate_file_scheme (_backend (self w)) input_path with
  | Raise e => raise e
  | Ok _ =>
      file_name ← (if azure_valid_url input_path
                   then match azure_get_name_parts input_path with
                        | Ok parts => mret parts.1
                        | Raise e => raise e
                        end
                   else mret input_path);
      root ← match root with
             | Some r => if decide (r = "") then secret_alnum_string 5 else mret r
             | None => secret_alnum_string 5
             end;
      irf ← new_resource_object resource.InputResourceFile
              (root +:+ "/" +:+ basename (rstrip_slash file_name)) None [];
      _add_input_path irf input_path;;
      uid ← uid_of irf;
      Batch.register uid irf;;
      modify (with_self (λ b, with_input_resources ({[irf]} ∪ _input_resources b) b));;
      mret irf
  end.

(** [read_input], lines 476-477. *)
Definition read_input (path : string) : M res_ref :=
  _new_input_resource_file path None.

(** The dict comprehension of [read_input_group], line 539, over the items
    of [kwargs] in order. *)
Fixpoint input_members (root : string) (kwargs : list (string * string))
    (new_resources : list (string * res_ref)) : M (list (string * res_ref)) :=
  match kwargs with
  | [] => mret new_resources
  | (name, file) :: kwargs' =>
      r ← _new_input_resource_file file (Some root);
      input_members root kwargs' (dict_set name r new_resources)
  end.

(** [read_input_group], lines 538-542. *)
Definition read_input_group (kwargs : list (string * string)) : M res_ref :=
  root ← secret_alnum_string 5;
  new_resources ← input_members root kwargs [];
  rg ← new_resource_object resource.ResourceGroup root None new_resources;
  uid ← uid_of rg;
  Batch.register_all {[uid := rg]};;
  mret rg.
End methods.
End BatchInputs.

(** ** [Batch.run] and the backend (batch.py, lines 254-261 and 649-710) *)

(** What [self._backend._run] does with the Batch it is handed.  The
    backend module is not among the sources, but the methods that batch.py
    keeps for it are: while it runs, the backend may read the property
    [_fs] and may call [read_input], as [_serialize_python_to_input_file]
    (lines 222-237) does to stage code.  It goes on according to what such
    a call returned or raised, and in the end it returns a handle or [None],
    or raises. *)
Inductive BackendRun :=
| Returns (outcome : Result (option nat))
| ReadsFs (next : BackendRun)
| CallsReadInput (path : string) (next : Result res_ref → BackendRun).

(** The collaborators of [run]: [backend_run c w] is the conduct of [_run]
    for the arguments [c], handed the Batch as it is in [w], and
    [DEPRECATED_fs_close] the outcome of [self._DEPRECATED_fs.close()]. *)
Class RunExternals := {
  backend_run : BackendCall → World → BackendRun;
  DEPRECATED_fs_close : Result unit;
}.

Module BatchRun.
Section methods.
Context `{InputExternals} `{RunExternals}.

(** The property [_fs], lines 254-261: with a requester-pays project the
    Batch makes its own file system on first use and keeps it; without, it
    hands out the file system of the backend.  The model keeps whether the
    Batch holds a file system. *)
Definition _fs : M unit :=
  modify (with_self (λ b,
    if _DEPRECATED_project b is Some _ then with_DEPRECATED_fs true b else b)).

(** The backend at work on the Batch. *)
Fixpoint serve (conduct : BackendRun) : M (option nat) :=
  match conduct with
  | Returns outcome => λ w, Some (outcome, w)
  | ReadsFs next => λ w,
      match _fs w with
      | Some (_, w') => serve next w'
      | None => None
      end
  | CallsReadInput path next => λ w,
      match BatchInputs.read_input path w with
      | Some (r, w') => serve (next r) w'
      | None => None
      end
  end.

(** [self._backend._run(self, dry_run, verbose, delete_scratch_on_exit,
    **backend_kwargs)], line 705: the invocation is logged with the job list
    of that moment, and the backend works on the Batch. *)
Definition call_backend (dry_run verbose delete_scratch_on_exit : bool)
    (backend_kwargs : list (string * PyValue)) : M (option nat) := λ w,
  let c := mkBackendCall (_jobs (self w)) dry_run verbose
             delete_scratch_on_exit backend_kwargs in
  serve (backend_run c w)
    (mkWorld (self w) (job_store w) (resource_store w)
       (Resource_counter w) (Batch_counter w) (entropy w) (draws w)
       (backend_calls w ++ [c]) (fs_closed w)).

(** Lines 706-709: when the Batch holds a file system after the backend
    has run, it is closed and then forgotten; an exception of [close]
    leaves [run] before the file system is forgotten. *)
Definition close_DEPRECATED_fs : M unit := λ w,
  if _DEPRECATED_fs (self w)
  then
    match DEPRECATED_fs_close with
    | Ok _ =>
        Some (Ok tt,
              mkWorld (with_DEPRECATED_fs false (self w)) (job_store w)
                (resource_store w) (Resource_counter w) (Batch_counter w)
                (entropy w) (draws w) (backend_calls w) (S (fs_closed w)))
    | Raise e =>
        Some (Raise e,
              mkWorld (self w) (job_store w) (resource_store w)
                (Resource_counter w) (Batch_counter w) (entropy w) (draws w)
                (backend_calls w) (S (fs_closed w)))
    end
  else Some (Ok tt, w).

(** The loop of lines 697-702 on the job store of the world. *)
Definition check_order (job_index : gmap nat nat)
    (ordered_jobs : list job_ref) : M unit := λ w,
  let '(r, h') := assign_job_ids job_index ordered_jobs (job_store w) in
  Some (r, with_job_store (λ _, h') w).

(** Lines 705-710: the backend, then the deprecated file system. *)
Definition delegate (dry_run verbose delete_scratch_on_exit : bool)
    (backend_kwargs : list (string * PyValue)) : M (option nat) :=
  run_result ← call_backend dry_run verbose delete_scratch_on_exit
                  backend_kwargs;
  close_DEPRECATED_fs;;
  mret run_result.

(** [run], lines 680-710, called when [depth] calls of [schedule_job] may
    nest. *)
Definition run (depth : nat) (dry_run verbose delete_scratch_on_exit : bool)
    (backend_kwargs : list (string * PyValue)) : M (option nat) :=
  w ← get;
  match schedule_all (job_store w) depth (_jobs (self w)) (∅, []) with
  | Raise e => raise e
  | Ok (seen, ordered_jobs) =>
      if decide (size seen = length (_jobs (self w)))
      then
        check_order (job_index_of ordered_jobs) ordered_jobs;;
        modify (with_self (with_jobs ordered_jobs));;
        delegate dry_run verbose delete_scratch_on_exit backend_kwargs
      else raise AssertionError
  end.
End methods.
End BatchRun.

(** Collaborators for the concrete inputs: every path is accepted unless
    it starts with [ftp://], and no path is an Azure URL. *)
Definition example_input_externals : InputExternals := {|
  validate_file_scheme := λ _ path,
    if String.prefix "ftp://" path
    then Raise (OtherError "ValueError") else Ok tt;
  azure_valid_url := λ _, false;
  azure_get_name_parts := λ path, Ok (path, "");
|}.

(** The value of [file_name] in [_new_input_resource_file] (lines 409-413),
    or the exception raised before it is bound. *)
Definition input_file_name `{InputExternals} (b : Backend) (path : string)
    : Result string :=
  match validate_file_scheme b path with
  | Raise e => Raise e
  | Ok _ =>
      if azure_valid_url path
      then match azure_get_name_parts path with
           | Ok parts => Ok parts.1
           | Raise e => Raise e
           end
      else Ok path
  end.

(** The root that [root or secret_alnum_string(5)] does not replace. *)
Definition root_given (root : option string) : option string :=
  match root with
  | Some r => if decide (r = "") then None else Some r
  | None => None
  end.

(** [r] is an input resource file for [path] below [root]: it is named
    [root], a slash and the last component of the file name of [path], it
    has no source, and the Batch holds it in its registry, under its uid,
    and among its input resources. *)
Definition input_file `{InputExternals} (w : World) (root path : string)
    (r : res_ref) : Prop :=
  ∃ o fname,
    resource_store w !! r = Some o ∧
    resource.cls o = resource.InputResourceFile ∧
    resource._input_path o = Some path ∧
    resource._source o = None ∧
    resource._output_paths o = [] ∧
    input_file_name (_backend (self w)) path = Ok fname ∧
    resource._value o = root +:+ "/" +:+ basename (rstrip_slash fname) ∧
    resource._uid o < Resource_counter w ∧
    _resource_map (self w) !! resource._uid o = Some r ∧
    r ∈ _input_resources (self w).

(** The world after [_new_input_resource_file] has made the resource named
    [value] for [path]. *)
Definition minted_input (path value : string) (w : World) : World :=
  let r := fresh (dom (resource_store w)) in
  mkWorld
    (with_input_resources ({[r]} ∪ _input_resources (self w))
       (with_resource_map (<[Resource_counter w := r]> (_resource_map (self w)))
          (self w)))
    (job_store w)
    (<[r := resource.mk resource.InputResourceFile (Resource_counter w) value
              None (Some path) [] []]> (resource_store w))
    (S (Resource_counter w)) (Batch_counter w) (entropy w) (draws w)
    (backend_calls w) (fs_closed w).

(** Every path of [kwargs] passes the checks of
    [_new_input_resource_file]. *)
Definition accepted `{InputExternals} (b : Backend)
    (kwargs : list (string * string)) : Prop :=
  Forall (λ kv, ∃ fname, input_file_name b kv.2 = Ok fname) kwargs.

(** [r] is a new input resource file for the path of [kv] below [root]. *)
Definition input_member `{InputExternals} (w w' : World) (root : string)
    (kv : string * string) (r : res_ref) : Prop :=
  input_file w' root kv.2 r ∧ resource_store w !! r = None.

Definition input_group : list (string * string) :=
  [("bed", "data/x.bed"); ("bim", "data/x.bim")].

(** The second path has a scheme that [example_input_externals] rejects. *)
Definition rejected_group : list (string * string) :=
  [("bed", "data/x.bed"); ("bim", "ftp://host/x.bim"); ("fam", "data/x.fam")].

(** Every key of the registry is the uid of the resource object it maps
    to, and is below the class-level counter of uids. *)
Definition registry_wf (w : World) : Prop :=
  ∀ k r, _resource_map (self w) !! k = Some r →
         k < Resource_counter w ∧
         ∃ o, resource_store w !! r = Some o ∧ resource._uid o = k.

(** From [w] to [w'] the registry stays well formed and loses or changes
    no entry. *)
Definition extends (w w' : World) : Prop :=
  registry_wf w →
  registry_wf w' ∧ _resource_map (self w) ⊆ _resource_map (self w').

(** [output_world] with the input file 3 and the job file 5 in the
    registry. *)
Definition registry_world : World :=
  with_self (with_resource_map {[0 := 3; 1 := 5]}) output_world.

(** The destination that [write_output] records for [dest], lines 615-619. *)
Definition recorded_dest `{Externals} (b : Backend) (dest : string) : string :=
  match b with
  | LocalBackend =>
      if decide (url_scheme dest = "") then abspath (expanduser dest) else dest
  | ServiceBackend _ => dest
  end.

(** [write_output] checks the mentioned set of [jo] for the resource
    object [o]: a job resource file of a bash job, or a Python result of a
    Python job. *)
Definition checked (o : resource.Resource) (jo : job.Job) : Prop :=
  (resource.cls o = resource.JobResourceFile ∧ job.cls jo = job.BashJob) ∨
  (resource.cls o = resource.PythonResult ∧ job.cls jo = job.PythonJob).

(** [o'] is [o] with more output destinations after those it had. *)
Definition paths_added (o o' : resource.Resource) : Prop :=
  ∃ added, o' = foldl (λ o d, resource.add_path d o) o added.

(** [output_world] after job 1 has mentioned resource 5, and with the
    string form 9 of a result of the Python job 2, which has mentioned
    nothing. *)
Definition mentioned_world : World :=
  with_resource_store
    (<[9 := example_resource resource.JobResourceFile 4 (Some 2) []]>)
    (with_job_store
       (λ h, <[1 := job.mk job.BashJob "token" None ∅ None None None None None
                      None None None [] {[5]} {[5 := "ofile"]} None]>
             (<[2 := example_job job.PythonJob []]> h))
       output_world).

(** ** [select_jobs] (batch.py, line 643) *)

(** [re.match(pattern, string) is not None], or the exception that
    [re.match] raises, as for a pattern that does not compile. *)
Class Regex := {
  re_match : string → string → Result bool;
}.

(** The comprehension of [select_jobs] over the job list, in order:
    [re.match] is called for the jobs that have a name, and the first
    exception ends the comprehension. *)
Fixpoint select_loop `{Regex} (h : gmap nat job.Job) (pattern : string)
    (jobs : list job_ref) : option (Result (list job_ref)) :=
  match jobs with
  | [] => Some (Ok [])
  | j :: jobs' =>
      match h !! j with
      | None => None
      | Some o =>
          match job.name o with
          | None => select_loop h pattern jobs'
          | Some n =>
              match re_match pattern n with
              | Raise e => Some (Raise e)
              | Ok matched =>
                  match select_loop h pattern jobs' with
                  | Some (Ok selected) =>
                      Some (Ok (if matched then j :: selected else selected))
                  | other => other
                  end
              end
          end
      end
  end.

Definition select_jobs `{Regex} (pattern : string) : M (list job_ref) := λ w,
  match select_loop (job_store w) pattern (_jobs (self w)) with
  | None => None
  | Some r => Some (r, w)
  end.

(** Job [j] has a name that [pattern] matches. *)
Definition name_matches `{Regex} (w : World) (pattern : string) (j : job_ref)
    : Prop :=
  ∃ o n, job_store w !! j = Some o ∧ job.name o = Some n ∧
         re_match pattern n = Ok true.

(** No job of the Batch has a name. *)
Definition unnamed (w : World) : Prop :=
  ∀ j o, j ∈ _jobs (self w) → job_store w !! j = Some o → job.name o = None.

(** A matcher for the concrete inputs: a pattern matches the names it is a
    prefix of, and the pattern [(] does not compile. *)
Definition example_regex : Regex := {|
  re_match := λ pattern s,
    if decide (pattern = "(") then Raise (OtherError "re.error")
    else Ok (String.prefix pattern s);
|}.

Definition named_job (name : option string) : job.Job :=
  job.mk job.BashJob "token" name ∅ None None None None None None None None
    [] ∅ ∅ None.

(** Jobs [qc], an unnamed job, [merge] and [qc_plot], in this order. *)
Definition named_world : World :=
  example_world [4; 1; 3; 2]
    (<[4 := named_job (Some "qc")]>
     (<[1 := named_job None]>
      (<[3 := named_job (Some "merge")]>
       (<[2 := named_job (Some "qc_plot")]> ∅)))).

(** ** [RouterFS.exists], [is_file] and [is_dir] (router_fs.py, lines 190-209) *)

(** [afs_isfile path] is the outcome of [await self.afs.isfile(path)], and
    [exists_isdir_fails_first path] tells whether, when both probes of
    [exists] fail, the directory probe is the first to fail. *)
Class AsyncFiles := {
  afs_isfile : string → Result bool;
  exists_isdir_fails_first : string → bool;
}.

Module RouterFS_probes.
Section methods.
Context `{AsyncFS} `{AsyncFiles}.

(** [is_file], lines 200-201. *)
Definition is_file (path : string) : Result bool := afs_isfile path.

(** [is_dir], lines 208-209. *)
Definition is_dir (path : string) : Result bool := RouterFS._async_is_dir path.

(** [exists], lines 190-198; indexing the empty string raises before a
    probe is made.  [asyncio.gather] raises what the first failing probe
    raised. *)
Definition exists_ (path : string) : Result bool :=
  match last_char path with
  | None => Raise IndexError
  | Some c =>
      let dir_path := if decide (c ≠ "/"%char) then path +:+ "/" else path in
      match afs_isfile path, afs_isdir dir_path with
      | Raise e_file, Raise e_dir =>
          if exists_isdir_fails_first path then Raise e_dir else Raise e_file
      | Raise e, Ok _ => Raise e
      | Ok _, Raise e => Raise e
      | Ok f, Ok d => Ok (f || d)
      end
  end.
End methods.
End RouterFS_probes.

(** The files of [example_afs]. *)
Definition example_files : AsyncFiles := {|
  afs_isfile := λ path, Ok (bool_decide (path = "data/file"));
  exists_isdir_fails_first := λ _, false;
|}.

(** ** [RouterFS.open] (router_fs.py, lines 164-179) *)

(** [afs_open path] is the outcome of [await self.afs.open(path)], and
    [afs_create path] that of [await self.afs.create(path)] followed by
    entering the context manager it returns, as the constructor of
    [SyncWritableStream] does. *)
Class AsyncStreams (Readable Writable : Type) := {
  afs_open : string → Result Readable;
  afs_create : string → Result Writable;
}.

(** The streams [open] returns: the two raw streams of this module, and
    [io.TextIOWrapper] around one. *)
Inductive Stream (Readable Writable : Type) :=
| SyncReadableStream (ars : Readable) (name : string)
| SyncWritableStream (aws : Writable) (name : string)
| TextIOWrapper (raw : Stream Readable Writable).
Arguments SyncReadableStream {_ _} _ _.
Arguments SyncWritableStream {_ _} _ _.
Arguments TextIOWrapper {_ _} _.

Module RouterFS_open.
Section methods.
Context {Readable Writable : Type} `{AsyncStreams Readable Writable}.

(** [open]; [buffer_size] is deleted on entry, and the assertion of
    line 174 holds for each of the four modes. *)
Definition open (path mode : string) (buffer_size : Z)
    : Result (Stream Readable Writable) :=
  if decide (mode ∈ ["r"; "rb"; "w"; "wb"]) then
    match
      (if decide (String.get 0 mode = Some "r"%char)
       then match afs_open path with
            | Ok ars => Ok (SyncReadableStream ars path)
            | Raise e => Raise e
            end
       else match afs_create path with
            | Ok aws => Ok (SyncWritableStream aws path)
            | Raise e => Raise e
            end)
    with
    | Ok strm =>
        if negb (contains_char "b" mode) then Ok (TextIOWrapper strm)
        else Ok strm
    | Raise e => Raise e
    end
  else Raise (OtherError "ValueError").
End methods.
End RouterFS_open.

(** The stream under the text wrappers. *)
Fixpoint raw_stream {Readable Writable : Type} (s : Stream Readable Writable)
    : Stream Readable Writable :=
  match s with
  | TextIOWrapper raw => raw_stream raw
  | _ => s
  end.



(** ** Vocabulary for [run] and the backend *)

(** The world with the invocation [c] in the log. *)
Definition logged (c : BackendCall) (w : World) : World :=
  mkWorld (self w) (job_store w) (resource_store w) (Resource_counter w)
    (Batch_counter w) (entropy w) (draws w) (backend_calls w ++ [c])
    (fs_closed w).

(** What the backend can do to the Batch from [w] to [w'], and what it
    cannot: no job object, job list, token set, log or closing of a file
    system changes; resource objects are kept and the registry keeps its
    entries; random strings are drawn and uids taken, never given back; a
    file system that the Batch holds is kept, and none is made without a
    requester-pays project. *)
Record served (w w' : World) : Prop := mkServed {
  served_job_store : job_store w' = job_store w;
  served_jobs : _jobs (self w') = _jobs (self w);
  served_tokens : _job_tokens (self w') = _job_tokens (self w);
  served_backend : _backend (self w') = _backend (self w);
  served_project :
    _DEPRECATED_project (self w') = _DEPRECATED_project (self w);
  served_calls : backend_calls w' = backend_calls w;
  served_closed : fs_closed w' = fs_closed w;
  served_resources :
    ∀ x o, resource_store w !! x = Some o → resource_store w' !! x = Some o;
  served_registry : extends w w';
  served_draws : draws w ≤ draws w';
  served_counter : Resource_counter w ≤ Resource_counter w';
  served_fs_kept :
    _DEPRECATED_fs (self w) = true → _DEPRECATED_fs (self w') = true;
  served_fs_project :
    _DEPRECATED_project (self w) = None →
    _DEPRECATED_fs (self w') = _DEPRECATED_fs (self w);
}.



(** A backend that returns no handle and leaves the Batch alone, and a
    file system that closes. *)
Definition example_backend : RunExternals := {|
  backend_run := λ _ _, Returns (Ok None);
  DEPRECATED_fs_close := Ok tt;
|}.

(** A backend that stages one file of code unless the run is dry, as
    [_serialize_python_to_input_file] does: it reads [_fs] and calls
    [read_input]; it returns the handle 7, or raises what [read_input]
    raised.  Its file system fails to close. *)
Definition staging_backend : RunExternals := {|
  backend_run := λ c _,
    if call_dry_run c then Returns (Ok None)
    else ReadsFs (CallsReadInput "tmp/functions/code1.p"
                    (λ r, match r with
                          | Ok _ => Returns (Ok (Some 7))
                          | Raise e => Returns (Raise e)
                          end));
  DEPRECATED_fs_close := Raise (OtherError "OSError");
|}.

(** [chain_world] for a Batch made with a requester-pays project: it holds
    no file system yet. *)
Definition project_world : World :=
  with_self (λ b,
    mkBatch (_jobs b) (_resource_map b) (_input_resources b) (_uid b)
      (_job_tokens b) (_backend b) (name b) (attributes b)
      (requester_pays_project b) (_default_image b) (_default_memory b)
      (_default_cpu b) (_default_storage b) (_default_timeout b)
      (_default_shell b) (_default_python_image b) (_default_spot b)
      (Some "project") false (_cancel_after_n_failures b)) chain_world.

(** * Proofs *)

Set Warnings "-clear-no-such-hyp".

(** ** The depth-first traversal *)

Section dfs.
Context (h : gmap nat job.Job).







End dfs.


Lemma enumerate_snoc {A} (l : list A) s y :
  enumerate s (l ++ [y]) = enumerate s l ++ [(s + length l, y)].
Proof.
  revert s. induction l as [|x l IH]; intros s; simpl.
  - by rewrite Nat.add_0_r.
  - rewrite IH. replace (S s + length l) with (s + S (length l)) by lia. done.
Qed.

Lemma job_index_of_snoc l y :
  job_index_of (l ++ [y]) = <[y := S (length l)]> (job_index_of l).
Proof. unfold job_index_of. by rewrite enumerate_snoc, foldl_app. Qed.


Lemma job_index_of_lookup l i x :
  NoDup l → l !! i = Some x → job_index_of l !! x = Some (S i).
Proof.
  induction l as [|y l IH] using rev_ind; intros Hnd Hi; [done|].
  rewrite job_index_of_snoc.
  apply NoDup_app in Hnd as (Hnd & Hdisj & _).
  apply lookup_app_Some in Hi as [Hi|[Hlen Hi]].
  - rewrite lookup_insert_ne; [by apply IH|].
    intros <-. apply (Hdisj y); [by eapply list_elem_of_lookup_2|left].
  - apply list_lookup_singleton_Some in Hi as [Hz <-].
    rewrite lookup_insert_eq. f_equal. lia.
Qed.


Lemma deps_set_job_id h i j x :
  deps (alter (job.set_job_id i) j h) x = deps h x.
Proof.
  unfold deps. destruct (decide (j = x)) as [->|Hne].
  - rewrite lookup_alter_eq. by destruct (h !! x).
  - by rewrite lookup_alter_ne.
Qed.

Lemma check_dependencies_Ok idx i ds :
  check_dependencies idx i ds = Ok tt ↔
  ∀ d, d ∈ ds → ∃ k, idx !! d = Some k ∧ k < i.
Proof.
  induction ds as [|d ds IH]; simpl.
  - split; [|done]. intros _ ? []%elem_of_nil.
  - destruct (idx !! d) as [k|] eqn:Hk.
    + destruct (decide (i ≤ k)) as [Hle|Hlt].
      * split; [done|]. intros Hall.
        destruct (Hall d) as (k' & ? & ?); [left|]. simplify_eq. lia.
      * rewrite IH. split.
        -- intros Hall d' [->|?]%elem_of_cons; [|by apply Hall].
           exists k. split; [done|lia].
        -- intros Hall d' ?. apply Hall. by right.
    + split; [done|]. intros Hall.
      destruct (Hall d) as (k' & ? & ?); [left|]. simplify_eq.
Qed.



Lemma assign_job_ids_positions idx js : ∀ h h',
  assign_job_ids idx js h = (Ok tt, h') →
  (∀ x, deps h' x = deps h x) ∧
  (∀ x i, idx !! x = Some i →
     (x ∈ js ∧ is_Some (h !! x)) ∨ position_in h x = Some i →
     position_in h' x = Some i).
Proof.
  induction js as [|j js IH]; intros h h'; simpl.
  - intros [= <-]. split; [done|]. intros x i _ [[[]%elem_of_nil _]|?]; done.
  - destruct (idx !! j) as [i|] eqn:Hi; [|done].
    destruct (check_dependencies _ _ _) as [[]|]; [|done].
    intros Heq. destruct (IH _ _ Heq) as [Hdeps Hpos]. split.
    + intros x. by rewrite Hdeps, deps_set_job_id.
    + intros x i' Hx Hcase. apply Hpos; [done|].
      destruct (decide (x = j)) as [->|Hne].
      * right. assert (i' = i) as -> by congruence.
        unfold position_in. rewrite lookup_alter_eq.
        destruct Hcase as [[_ [o Ho]]|Hp].
        -- by rewrite Ho.
        -- unfold position_in in Hp. destruct (h !! j); [done|discriminate].
      * destruct Hcase as [[[?|?]%elem_of_cons Hs]|Hp]; [done| |].
        -- left. split; [done|]. by rewrite lookup_alter_ne.
        -- right. unfold position_in. by rewrite lookup_alter_ne.
Qed.

Lemma assign_job_ids_forward idx js h :
  forward idx h js → ∃ h', assign_job_ids idx js h = (Ok tt, h').
Proof.
  revert h. induction js as [|j js IH]; intros h Hfw; simpl; [by eexists|].
  destruct (Hfw j) as (i & Hi & Hd); [left|]. rewrite Hi, deps_set_job_id.
  apply check_dependencies_Ok in Hd. rewrite Hd. apply IH.
  intros x Hx. destruct (Hfw x) as (i' & ? & Hd'); [by right|].
  exists i'. split; [done|]. intros d. rewrite deps_set_job_id. apply Hd'.
Qed.

Section linearize.
Context (h : gmap nat job.Job).



End linearize.

(** ** [write_output] *)

Lemma add_output_path_Some r dest w :
  is_Some (resource_store w !! r) → ∃ w', _add_output_path r dest w = Some (Ok tt, w').
Proof.
  intros [o Ho]. unfold _add_output_path. rewrite Ho.
  destruct (resource.cls o); eauto.
Qed.

Lemma add_output_path_never_raises r dest w e w' :
  _add_output_path r dest w ≠ Some (Raise e, w').
Proof.
  unfold _add_output_path. destruct (resource_store w !! r) as [o|]; [|done].
  by destruct (resource.cls o).
Qed.

Lemma unmentioned_source_unchanged c r o w x w' :
  Batch.unmentioned_source c r o w = Some (x, w') → w' = w.
Proof.
  unfold Batch.unmentioned_source. intros Heq.
  repeat (case_match; simplify_eq); done.
Qed.

Lemma raise_undefined_raises jo r hint w :
  ∃ e, Batch.raise_undefined jo r hint w = Some (Raise e, w).
Proof.
  unfold Batch.raise_undefined. destruct (job._resources_inverse jo !! r); eauto.
Qed.

(** C10.  Whatever the argument and the destination, when [write_output]
    raises, the world is the one it was called in; in particular every
    resource has the output destinations it had before the call. *)
Theorem C10_write_output_atomic_on_error `{Externals} (w : World)
    (resource : Argument) (dest : string) (e : Exn) (w' : World) :
  Batch.write_output resource dest w = Some (Raise e, w') →
  w' = w ∧ ∀ r, output_paths w' r = output_paths w r.
Proof.
  intros Hraise. assert (w' = w) as ->; [|done].
  unfold Batch.write_output in Hraise.
  destruct resource as [r|v]; [|by inversion Hraise].
  unfold mbind, M_bind, get in Hraise.
  destruct (resource_store w !! r) as [o|] eqn:Ho; [|done].
  assert (Hsrc : ∀ rc jc,
    (if decide (resource.cls o = rc) then Batch.unmentioned_source jc r o
     else mret None) w = None ∨
    ∃ x, (if decide (resource.cls o = rc) then Batch.unmentioned_source jc r o
          else mret None) w = Some (Ok x, w)).
  { intros rc jc. destruct (decide (resource.cls o = rc)); [|right; exists None; reflexivity].
    destruct (Batch.unmentioned_source jc r o w) as [[[x|e'] w1]|] eqn:Hu; [| |by left].
    - right. apply unmentioned_source_unchanged in Hu as Hw. subst. eauto.
    - unfold Batch.unmentioned_source in Hu. repeat (case_match; simplify_eq). }
  destruct (Hsrc resource.JobResourceFile job.BashJob) as [Hs|[x Hs]];
    rewrite Hs in Hraise; [done|].
  destruct x as [jo|].
  { destruct (raise_undefined_raises jo r Batch.bash_hint w) as [e' He'].
    rewrite He' in Hraise. congruence. }
  destruct (Hsrc resource.PythonResult job.PythonJob) as [Hs2|[x Hs2]];
    rewrite Hs2 in Hraise; [done|].
  destruct x as [jo|].
  { destruct (raise_undefined_raises jo r Batch.python_hint w) as [e' He'].
    rewrite He' in Hraise. congruence. }
  by apply add_output_path_never_raises in Hraise.
Qed.

Lemma write_output_unfold `{Externals} r o dest w :
  resource_store w !! r = Some o →
  Batch.write_output (PyResource r) dest w =
  match (if decide (resource.cls o = resource.JobResourceFile)
         then Batch.unmentioned_source job.BashJob r o else mret None) w with
  | None => None
  | Some (Raise e, w1) => Some (Raise e, w1)
  | Some (Ok (Some jo), w1) => Batch.raise_undefined jo r Batch.bash_hint w1
  | Some (Ok None, w1) =>
      match (if decide (resource.cls o = resource.PythonResult)
             then Batch.unmentioned_source job.PythonJob r o else mret None) w1 with
      | None => None
      | Some (Raise e, w2) => Some (Raise e, w2)
      | Some (Ok (Some jo), w2) => Batch.raise_undefined jo r Batch.python_hint w2
      | Some (Ok None, w2) =>
          _add_output_path r
            match _backend (self w) with
            | LocalBackend =>
                if decide (url_scheme dest = "")
                then abspath (expanduser dest) else dest
            | ServiceBackend _ => dest
            end w2
      end
  end.
Proof.
  intros Ho. unfold Batch.write_output, mbind, M_bind, get. rewrite Ho.
  destruct ((if decide (resource.cls o = resource.JobResourceFile)
             then Batch.unmentioned_source job.BashJob r o else mret None) w)
    as [[[[jo|]|e] w1]|]; try done.
  destruct ((if decide (resource.cls o = resource.PythonResult)
             then Batch.unmentioned_source job.PythonJob r o else mret None) w1)
    as [[[[jo|]|e] w2]|]; done.
Qed.

Lemma add_output_path_file_paths r o dest w :
  resource_store w !! r = Some o →
  resource.cls o ≠ resource.ResourceGroup →
  ∃ w', _add_output_path r dest w = Some (Ok tt, w') ∧
        output_paths w' r = Some (resource._output_paths o ++ [dest]).
Proof.
  intros Ho Hcls. unfold _add_output_path. rewrite Ho.
  assert (output_paths (with_resource_store (add_output_path_file r dest) w) r
          = Some (resource._output_paths o ++ [dest])) as Hp.
  { unfold output_paths, add_output_path_file. simpl.
    by rewrite lookup_alter_eq, Ho. }
  destruct (resource.cls o); try done; eauto.
Qed.

(** C4.  On an [InputResourceFile], [write_output] returns normally for every
    destination, whatever the jobs have mentioned, and appends one
    destination to those recorded on the resource: the absolute path of the
    (user-expanded) destination when the backend is local and the
    destination has no scheme, and the destination as given otherwise. *)
Theorem C4_write_output_input `{Externals} (w : World) (r : res_ref)
    (o : resource.Resource) (dest : string) :
  resource_store w !! r = Some o →
  resource.cls o = resource.InputResourceFile →
  ∃ recorded w',
    Batch.write_output (PyResource r) dest w = Some (Ok tt, w') ∧
    output_paths w' r = Some (resource._output_paths o ++ [recorded]) ∧
    (_backend (self w) = LocalBackend → url_scheme dest = "" →
       recorded = abspath (expanduser dest)) ∧
    (_backend (self w) ≠ LocalBackend ∨ url_scheme dest ≠ "" → recorded = dest).
Proof.
  intros Ho Hcls.
  set (recorded := match _backend (self w) with
                   | LocalBackend =>
                       if decide (url_scheme dest = "")
                       then abspath (expanduser dest) else dest
                   | ServiceBackend _ => dest
                   end).
  destruct (add_output_path_file_paths r o recorded w Ho) as (w' & Hadd & Hpaths).
  { by rewrite Hcls. }
  exists recorded, w'. split_and!; [|done|..].
  - rewrite (write_output_unfold r o dest w Ho).
    rewrite !decide_False by by rewrite Hcls. done.
  - intros Hb Hs. unfold recorded. by rewrite Hb, decide_True.
  - intros [Hb|Hs]; unfold recorded.
    + by destruct (_backend (self w)).
    + destruct (_backend (self w)); [|done]. by rewrite decide_False.
Qed.

(** C3, as amended.  Let [r] be a [JobResourceFile] produced by a [BashJob],
    or a [PythonResult] produced by a [PythonJob]; let the producing job not
    hold [r] among its mentioned resources and know it under [name].  Then
    [write_output] raises, for every destination, the [BatchException] whose
    message starts with [undefined resource 'name'], and changes nothing. *)
Theorem C3_write_output_unmentioned `{Externals} (w : World) (r : res_ref)
    (o : resource.Resource) (j : job_ref) (jo : job.Job) (name dest : string) :
  resource_store w !! r = Some o →
  resource._source o = Some j →
  job_store w !! j = Some jo →
  r ∉ job._mentioned jo →
  job._resources_inverse jo !! r = Some name →
  (resource.cls o = resource.JobResourceFile ∧ job.cls jo = job.BashJob) ∨
  (resource.cls o = resource.PythonResult ∧ job.cls jo = job.PythonJob) →
  Batch.write_output (PyResource r) dest w =
    Some (Raise (BatchException
                   ("undefined resource '" +:+ name +:+ "'" +:+ newline +:+
                    (if decide (resource.cls o = resource.JobResourceFile)
                     then Batch.bash_hint else Batch.python_hint))), w).
Proof.
  intros Ho Hsrc Hjo Hnm Hname Hcls.
  rewrite (write_output_unfold r o dest w Ho).
  assert (Hu : ∀ c, job.cls jo = c →
            Batch.unmentioned_source c r o w = Some (Ok (Some jo), w)).
  { intros c Hc. unfold Batch.unmentioned_source. rewrite Hsrc, Hjo.
    by rewrite decide_True, decide_False. }
  destruct Hcls as [[Hc Hj]|[Hc Hj]]; rewrite Hc.
  - rewrite !decide_True by done. rewrite (Hu _ Hj).
    unfold Batch.raise_undefined. by rewrite Hname.
  - rewrite !(decide_False (P := resource.PythonResult = resource.JobResourceFile))
      by done.
    simpl. rewrite (Hu _ Hj).
    unfold Batch.raise_undefined. by rewrite Hname.
Qed.

(** C3 as stated fails for a grouped file set: resource 7 is a group
    produced by job 1, which has mentioned nothing, and [write_output]
    accepts it and records [out.bed] on its member. *)
Lemma C3_group_is_not_checked :
  unmentioned_product output_world 7 ∧
  ∃ w', Batch.write_output (H := example_externals) (PyResource 7) "out" output_world
          = Some (Ok tt, w') ∧
        output_paths w' 8 = Some ["/home/user/out.bed"].
Proof.
  split.
  - eexists _, 1, _.
    split_and!; [reflexivity|intros ?; discriminate|reflexivity|reflexivity|set_solver].
  - eexists. split; [vm_compute; reflexivity|]. vm_compute. reflexivity.
Qed.

(** C3 at [output_world]: resource 5, known to job 1 as [ofile]. *)
Lemma C3_write_output_unmentioned_witness :
  Batch.write_output (H := example_externals) (PyResource 5) "out" output_world =
    Some (Raise (BatchException
                   ("undefined resource '" +:+ "ofile" +:+ "'" +:+ newline +:+
                    Batch.bash_hint)), output_world).
Proof.
  apply (C3_write_output_unmentioned (H := example_externals) output_world 5
           (example_resource resource.JobResourceFile 1 (Some 1) []) 1
           (job.mk job.BashJob "token" None ∅ None None None None None None
              None None [] ∅ {[5 := "ofile"]} None) "ofile" "out");
    [reflexivity|reflexivity|reflexivity|set_solver|reflexivity|by left].
Defined.

(** C4 at [output_world]: the input file 3 and the relative path
    [out.txt]. *)
Lemma C4_write_output_input_witness :
  ∃ recorded w',
    Batch.write_output (H := example_externals) (PyResource 3) "out.txt" output_world
      = Some (Ok tt, w') ∧
    output_paths w' 3 = Some ([] ++ [recorded]) ∧
    (LocalBackend = LocalBackend → "" = "" → recorded = "/home/user/out.txt") ∧
    (LocalBackend ≠ LocalBackend ∨ "" ≠ "" → recorded = "out.txt").
Proof.
  apply (C4_write_output_input (H := example_externals) output_world 3
           (example_resource resource.InputResourceFile 0 None []) "out.txt");
    reflexivity.
Defined.

(** C10 at [output_world], for an integer passed as the resource. *)
Lemma C10_write_output_atomic_on_error_witness :
  output_world = output_world ∧
  ∀ r, output_paths output_world r = output_paths output_world r.
Proof.
  apply (C10_write_output_atomic_on_error (H := example_externals) output_world
           (PyOther (PyInt 5)) "out" (Batch.not_a_resource (PyInt 5))
           output_world).
  reflexivity.
Defined.

(** ** The job factories *)

Lemma quiet_bind {A B} (m : M A) (k : A → M B) :
  quiet m → (∀ a, quiet (k a)) → quiet (m ≫= k).
Proof.
  intros Hm Hk w r w'. unfold mbind, M_bind.
  destruct (m w) as [[[a|e] w1]|] eqn:Hmw; [| |done].
  - destruct (Hm _ _ _ Hmw) as [_ Ht]. intros Hkw.
    destruct (Hk a _ _ _ Hkw) as [Hr Ht']. split; [done|congruence].
  - destruct (Hm _ _ _ Hmw) as [[a Ha] _]. done.
Qed.

Lemma quiet_ret {A} (a : A) : quiet (mret a).
Proof. intros w r w' [= <- <-]. eauto. Qed.

Lemma quiet_get : quiet get.
Proof. intros w r w' [= <- <-]. eauto. Qed.

Lemma quiet_secret_alnum_string n : quiet (secret_alnum_string n).
Proof. intros w r w' [= <- <-]. eauto. Qed.

Lemma quiet_redraw fuel n token : quiet (Batch.redraw fuel n token).
Proof.
  revert token. induction fuel as [|fuel IH]; intros token; [done|].
  simpl. apply quiet_bind; [apply quiet_get|]. intros w.
  destruct (decide _); [|apply quiet_ret].
  apply quiet_bind; [apply quiet_secret_alnum_string|done].
Qed.

Lemma quiet_new_job_object c token name attributes shell :
  quiet (new_job_object c token name attributes shell).
Proof. intros w r w' [= <- <-]. eauto. Qed.

Lemma quiet_update_job j f : quiet (update_job j f).
Proof.
  intros w r w'. unfold update_job. destruct (job_store w !! j); [|done].
  intros [= <- <-]. eauto.
Qed.

Lemma quiet_apply_default {A} (x : option A) setter j :
  quiet (apply_default x setter j).
Proof. destruct x; [apply quiet_update_job|apply quiet_ret]. Qed.

Lemma quiet_apply_regions j : quiet (Batch.apply_regions j).
Proof.
  apply quiet_bind; [apply quiet_get|]. intros w.
  destruct (_backend (self w)); [apply quiet_ret|apply quiet_update_job].
Qed.

Lemma quiet_append_job j : quiet (Batch.append_job j).
Proof. intros w r w' [= <- <-]. eauto. Qed.

Create HintDb quiet.

#[local] Hint Resolve quiet_ret quiet_get quiet_secret_alnum_string
  quiet_redraw quiet_new_job_object quiet_update_job quiet_apply_default
  quiet_apply_regions quiet_append_job : quiet.

(** No call of [new_bash_job] raises, whatever the attributes, and none
    adds to [self._job_tokens]. *)
Lemma quiet_new_bash_job fuel name attributes shell :
  quiet (Batch.new_bash_job fuel name attributes shell).
Proof.
  unfold Batch.new_bash_job, Batch._unique_job_token.
  repeat (apply quiet_bind; [auto with quiet|intros ?]); auto with quiet.
Qed.

Lemma quiet_new_python_job fuel name attributes :
  quiet (Batch.new_python_job fuel name attributes).
Proof.
  unfold Batch.new_python_job, Batch._unique_job_token.
  repeat (apply quiet_bind; [auto with quiet|intros ?]); auto with quiet.
Qed.

(** When the loop of [_unique_job_token] ends, its token is not in the
    used-token set. *)
Lemma redraw_absent fuel n : ∀ token w t w',
  Batch.redraw fuel n token w = Some (Ok t, w') →
  t ∉ _job_tokens (self w').
Proof.
  induction fuel as [|fuel IH]; intros token w t w'; [done|].
  simpl. unfold mbind, M_bind, get.
  destruct (decide (token ∈ _job_tokens (self w))) as [Hin|Hnin].
  - simpl. apply IH.
  - by intros [= <- <-].
Qed.

(** The loop ends as soon as a draw is not in the used-token set. *)
Lemma redraw_returns fuel n : ∀ token w k,
  k < fuel →
  (if k is S k' then entropy w (draws w + k') else token) ∉ _job_tokens (self w) →
  ∃ t w', Batch.redraw fuel n token w = Some (Ok t, w').
Proof.
  induction fuel as [|fuel IH]; intros token w k Hk Hfree; [lia|].
  simpl. unfold mbind, M_bind, get.
  destruct (decide (token ∈ _job_tokens (self w))) as [Hin|Hnin]; [|by eexists _, _].
  simpl. destruct k as [|k]; [done|].
  apply (IH _ _ k); [lia|]. simpl.
  destruct k as [|k].
  - by rewrite Nat.add_0_r in Hfree.
  - by replace (S (draws w + k)) with (draws w + S k) by lia.
Qed.

(** C5 fails on the code.  With a random source that returns [aaaaa] twice,
    two calls of [new_bash_job] on one Batch create two jobs with the same
    token: no token is ever added to [self._job_tokens], which is still
    empty after both calls, so the loop of [_unique_job_token] compares the
    candidate with nothing. *)
Theorem C5_tokens_collide :
  ∃ j1 w1 j2 w2,
    Batch.new_bash_job 1 None None None empty_world
      = Some (Ok j1, w1) ∧
    Batch.new_bash_job 1 None None None w1
      = Some (Ok j2, w2) ∧
    j1 ≠ j2 ∧
    token_of w2 j1 = Some "aaaaa" ∧ token_of w2 j2 = Some "aaaaa" ∧
    _job_tokens (self w2) = ∅.
Proof.
  eexists _, _, _, _. split; [vm_compute; reflexivity|].
  split; [vm_compute; reflexivity|].
  split_and!; [intros ?; discriminate|vm_compute; reflexivity..].
Qed.

(** C6 fails on the code.  [new_bash_job], [new_job] and [new_python_job]
    accept an attribute mapping with the key [name]: each returns a job,
    appends it to the Batch and leaves the key in the attributes of the job.
    [Batch.__init__] rejects the same mapping with a [BatchException]. *)
Theorem C6_name_attribute_accepted :
  (∃ j w', Batch.new_bash_job 1 None (Some reserved_name) None
             empty_world = Some (Ok j, w') ∧
           _jobs (self w') = [j] ∧ attributes_of w' j = Some reserved_name) ∧
  (∃ j w', Batch.new_job 1 None (Some reserved_name) None
             empty_world = Some (Ok j, w') ∧
           _jobs (self w') = [j] ∧ attributes_of w' j = Some reserved_name) ∧
  (∃ j w', Batch.new_python_job 1 None (Some reserved_name)
             empty_world = Some (Ok j, w') ∧
           _jobs (self w') = [j] ∧ attributes_of w' j = Some reserved_name) ∧
  (∃ w', Batch.__init__ None None (Some reserved_name) None None None None None
           None None None None None None "local" [] empty_world
           = Some (Raise Batch.name_error, w')).
Proof.
  split_and!.
  - eexists _, _. split_and!; vm_compute; reflexivity.
  - eexists _, _. split_and!; vm_compute; reflexivity.
  - eexists _, _. split_and!; vm_compute; reflexivity.
  - eexists. vm_compute. reflexivity.
Qed.

(** ** The file-system classes *)

(** C8.  Let the directory probe of [stat] answer [is_dir].  When the
    file-size lookup returns [n], [stat] returns size [n] with the type
    given by [is_dir]; when the lookup raises [FileNotFoundError], [stat]
    returns a directory of size 0 if [is_dir] holds and raises
    [FileNotFoundError] for the path if not; and [stat] raises
    [FileNotFoundError] only when the lookup did and [is_dir] is false. *)
Theorem C8_stat `{AsyncFS} (path : string) (is_dir : bool) :
  RouterFS._async_is_dir path = Ok is_dir →
  (∀ n, afs_statfile_size path = Ok n →
     RouterFS.stat path =
       Ok (stat_result.mk path n
             (if is_dir then stat_result.DIRECTORY else stat_result.FILE)
             None None)) ∧
  (∀ a, afs_statfile_size path = Raise (FileNotFoundError a) → is_dir = true →
     RouterFS.stat path =
       Ok (stat_result.mk path 0 stat_result.DIRECTORY None None)) ∧
  (∀ a, afs_statfile_size path = Raise (FileNotFoundError a) → is_dir = false →
     RouterFS.stat path = Raise (FileNotFoundError path)) ∧
  (∀ a, RouterFS.stat path = Raise (FileNotFoundError a) →
     (∃ a', afs_statfile_size path = Raise (FileNotFoundError a')) ∧
     is_dir = false).
Proof.
  intros Hdir. unfold RouterFS.stat, RouterFS.size_bytes_or_none. rewrite Hdir.
  split_and!.
  - intros n ->. done.
  - intros a -> ->. done.
  - intros a -> ->. done.
  - intros a. destruct (afs_statfile_size path) as [n|[]]; try done.
    destruct is_dir; [done|]. eauto.
Qed.

(** C8 at [example_afs] and the path [data], which is no object but a
    directory. *)
Lemma C8_stat_witness :
  (∀ n, @afs_statfile_size example_afs "data" = Ok n →
     RouterFS.stat (H := example_afs) "data" =
       Ok (stat_result.mk "data" n stat_result.DIRECTORY None None)) ∧
  (∀ a, @afs_statfile_size example_afs "data" = Raise (FileNotFoundError a) →
     true = true →
     RouterFS.stat (H := example_afs) "data" =
       Ok (stat_result.mk "data" 0 stat_result.DIRECTORY None None)) ∧
  (∀ a, @afs_statfile_size example_afs "data" = Raise (FileNotFoundError a) →
     true = false →
     RouterFS.stat (H := example_afs) "data" = Raise (FileNotFoundError "data")) ∧
  (∀ a, RouterFS.stat (H := example_afs) "data" = Raise (FileNotFoundError a) →
     (∃ a', @afs_statfile_size example_afs "data" = Raise (FileNotFoundError a')) ∧
     true = false).
Proof.
  apply (C8_stat (H := example_afs) "data" true). reflexivity.
Defined.

Example stat_missing_file_present_directory :
  RouterFS.stat (H := example_afs) "data" =
    Ok (stat_result.mk "data" 0 stat_result.DIRECTORY None None).
Proof. reflexivity. Qed.

Example stat_empty_path :
  RouterFS.stat (H := example_afs) "" = Raise IndexError.
Proof. reflexivity. Qed.

(** When [os.makedirs] itself raises, that exception leaves [open] and the
    open is not tried again. *)
Lemma open_makedirs_fails `{OperatingSystem OS Handle} path mode buffer_size
    (s s1 s2 : OS) a e :
  contains_char "w" mode = true →
  builtin_open path mode buffer_size s = (Raise (FileNotFoundError a), s1) →
  os_makedirs (os_path_dirname path) s1 = (Raise e, s2) →
  LocalFS.open path mode buffer_size s =
    (Raise e, s2,
     [SysOpen path mode buffer_size; SysMakedirs (os_path_dirname path)]).
Proof.
  intros Hw Hopen Hmk. unfold LocalFS.open. by rewrite Hw, Hopen, Hmk.
Qed.

(** An error of the first open other than [FileNotFoundError] leaves
    [open] at once, in write mode too. *)
Lemma open_other_error `{OperatingSystem OS Handle} path mode buffer_size
    (s s1 : OS) e :
  (∀ a, e ≠ FileNotFoundError a) →
  builtin_open path mode buffer_size s = (Raise e, s1) →
  LocalFS.open path mode buffer_size s =
    (Raise e, s1, [SysOpen path mode buffer_size]).
Proof.
  intros He Hopen. unfold LocalFS.open. rewrite Hopen.
  destruct (contains_char "w" mode); [|done].
  destruct e; try done. by destruct (He arg).
Qed.

(** C9.  In a mode that contains [w], when the first [open] raises
    [FileNotFoundError] and [os.makedirs] on the directory name of the path
    returns, [LocalFS.open] makes exactly three calls, the first [open],
    [os.makedirs] and one more [open], and its outcome is the outcome of that
    second [open], an exception included.  In a mode without [w] it makes
    the one call to [open] and its outcome is the outcome of that call. *)
Theorem C9_open `{OperatingSystem OS Handle} (path mode : string)
    (buffer_size : Z) (s : OS) :
  (contains_char "w" mode = true →
   ∀ a s1 s2,
     builtin_open path mode buffer_size s = (Raise (FileNotFoundError a), s1) →
     os_makedirs (os_path_dirname path) s1 = (Ok tt, s2) →
     LocalFS.open path mode buffer_size s =
       (builtin_open path mode buffer_size s2,
        [SysOpen path mode buffer_size;
         SysMakedirs (os_path_dirname path);
         SysOpen path mode buffer_size]) ∧
     ∀ e s3, builtin_open path mode buffer_size s2 = (Raise e, s3) →
       (LocalFS.open path mode buffer_size s).1 = (Raise e, s3)) ∧
  (contains_char "w" mode = false →
   LocalFS.open path mode buffer_size s =
     (builtin_open path mode buffer_size s, [SysOpen path mode buffer_size])).
Proof.
  split.
  - intros Hw a s1 s2 Hopen Hmk.
    assert (Heq : LocalFS.open path mode buffer_size s =
       (builtin_open path mode buffer_size s2,
        [SysOpen path mode buffer_size;
         SysMakedirs (os_path_dirname path);
         SysOpen path mode buffer_size])).
    { unfold LocalFS.open. rewrite Hw, Hopen, Hmk.
      by destruct (builtin_open path mode buffer_size s2). }
    split; [done|]. intros e s3 He. by rewrite Heq, He.
  - intros Hw. unfold LocalFS.open. rewrite Hw.
    by destruct (builtin_open path mode buffer_size s).
Qed.

(** C9 at [example_os] with no directory: writing [out/file.txt] creates
    [out] and succeeds at the second attempt; reading it fails at once. *)
Lemma C9_open_witness :
  LocalFS.open (H := example_os) "out/file.txt" "w" (-1) [] =
    (Ok "out/file.txt", ["out"],
     [SysOpen "out/file.txt" "w" (-1); SysMakedirs "out";
      SysOpen "out/file.txt" "w" (-1)]) ∧
  LocalFS.open (H := example_os) "out/file.txt" "r" (-1) [] =
    (Raise (FileNotFoundError "out/file.txt"), [],
     [SysOpen "out/file.txt" "r" (-1)]).
Proof.
  destruct (C9_open (H := example_os) "out/file.txt" "w" (-1) []) as [Hwrite _].
  destruct (C9_open (H := example_os) "out/file.txt" "r" (-1) []) as [_ Hread].
  split.
  - by destruct (Hwrite eq_refl "out/file.txt" [] ["out"] eq_refl eq_refl) as [-> _].
  - by rewrite (Hread eq_refl).
Defined.

(** ** [_new_resource_group] *)

Lemma new_job_resource_file_eq source value w :
  Batch._new_job_resource_file source (Some value) w =
    Some (Ok (fresh (dom (resource_store w))), minted_file source value w).
Proof.
  unfold Batch._new_job_resource_file, mbind, M_bind. simpl.
  unfold uid_of. simpl. by rewrite lookup_insert_eq.
Qed.

Lemma uid_of_minted source value w :
  uid_of (fresh (dom (resource_store w))) (minted_file source value w) =
    Some (Ok (Resource_counter w), minted_file source value w).
Proof. unfold uid_of. simpl. by rewrite lookup_insert_eq. Qed.

Lemma fresh_not_allocated (w : World) o r :
  resource_store w !! r = Some o → r ≠ fresh (dom (resource_store w)).
Proof.
  intros Hr ->. apply (is_fresh (dom (resource_store w))).
  apply elem_of_dom. eauto.
Qed.

Lemma registered_file_minted source value w :
  registered_file (minted_file source value w) source value
    (fresh (dom (resource_store w))).
Proof.
  exists (resource.mk resource.JobResourceFile (Resource_counter w) value
            source None [] []).
  simpl. rewrite !lookup_insert_eq. split_and!; try done. lia.
Qed.

Lemma registered_file_kept source value w source' value' r :
  registered_file w source' value' r →
  registered_file (minted_file source value w) source' value' r.
Proof.
  intros (o & Ho & ? & ? & ? & Hlt & Hreg). exists o. simpl.
  rewrite lookup_insert_ne by (symmetry; by eapply fresh_not_allocated).
  rewrite lookup_insert_ne by lia. split_and!; try done. lia.
Qed.

Lemma group_members_step `{Externals} source root name code value items d nrm w :
  eval_fstring root name code = Ok value →
  Batch.group_members source root ((name, PyStr code) :: items) d nrm w =
    Batch.group_members source root items
      (dict_set name (fresh (dom (resource_store w))) d)
      (<[Resource_counter w := fresh (dom (resource_store w))]> nrm)
      (minted_file source value w).
Proof.
  intros Heval. simpl. rewrite Heval. unfold mbind, M_bind.
  by rewrite new_job_resource_file_eq, uid_of_minted.
Qed.

(** The loop over a mapping whose templates all expand: every member is
    minted, named by its expansion and registered, and what the loop put
    into [new_resource_map] is in the registry already. *)
Lemma group_members_Ok `{Externals} source root items : ∀ d nrm w,
  Forall (expands root) items →
  nrm ⊆ _resource_map (self w) →
  ∃ members nrm' w',
    Batch.group_members source root items d nrm w =
      Some (Ok (foldl (λ d nr, dict_set nr.1 nr.2 d) d (zip items.*1 members),
                nrm'), w') ∧
    nrm' ⊆ _resource_map (self w') ∧
    Forall2 (member_of w' root source) items members ∧
    (∀ s v r, registered_file w s v r → registered_file w' s v r).
Proof.
  induction items as [|[name v] items IH]; intros d nrm w Hall Hsub.
  - exists [], nrm, w. split_and!; [done|done|constructor|done].
  - apply Forall_cons in Hall as [(code & value & Hv & Heval) Hall].
    simpl in Hv, Heval. subst v.
    rewrite (group_members_step _ _ _ _ _ _ _ _ _ Heval).
    destruct (IH (dict_set name (fresh (dom (resource_store w))) d)
                 (<[Resource_counter w := fresh (dom (resource_store w))]> nrm)
                 (minted_file source value w) Hall)
      as (members & nrm' & w' & Heq & Hsub' & Hmem & Hkept).
    { simpl. by apply insert_mono. }
    exists (fresh (dom (resource_store w)) :: members), nrm', w'.
    split_and!; [done|done| |].
    + constructor; [|done]. exists code, value. split_and!; [done..|].
      apply Hkept, registered_file_minted.
    + intros s v r Hr. by apply Hkept, registered_file_kept.
Qed.

(** The loop up to the first value that is not a string. *)
Lemma group_members_raise `{Externals} source root name v post pre : ∀ d nrm w,
  Forall (expands root) pre →
  (∀ code, v ≠ PyStr code) →
  ∃ w', Batch.group_members source root (pre ++ (name, v) :: post) d nrm w =
          Some (Raise (Batch.not_a_string name v), w').
Proof.
  induction pre as [|[n c] pre IH]; intros d nrm w Hall Hv.
  - exists w. simpl. destruct v; try done. by destruct (Hv s).
  - apply Forall_cons in Hall as [(code & value & Hc & Heval) Hall].
    simpl in Hc, Heval. subst c. rewrite <- app_comm_cons.
    rewrite (group_members_step _ _ _ _ _ _ _ _ _ Heval). by apply IH.
Qed.

(** C7, as amended.  When the value of [name] is the first one in
    [mappings] that is not a string and the templates before it expand
    without error, [_new_resource_group] raises the [BatchException] that
    names [name] and the type of the value.  When every value is a string
    whose template expands without error, the call returns a group that is
    registered under its uid and whose members, one per entry and in the
    order of the entries, are job resource files named by the expansions
    and registered under their uids. *)
Theorem C7_new_resource_group `{Externals} (w : World)
    (source : option job_ref) (mappings : list (string * PyValue))
    (root : option string) :
  (∀ pre name v post,
     mappings = pre ++ (name, v) :: post →
     (∀ code, v ≠ PyStr code) →
     Forall (expands (root_in_use w root)) pre →
     ∃ w', Batch._new_resource_group source mappings root w =
             Some (Raise (BatchException
                            ("value for name '" +:+ name +:+
                             "' is not a string. Found '" +:+ type_repr v +:+
                             "' instead.")), w')) ∧
  (Forall (expands (root_in_use w root)) mappings →
   ∃ rg w' members og,
     Batch._new_resource_group source mappings root w = Some (Ok rg, w') ∧
     resource_store w' !! rg = Some og ∧
     resource.cls og = resource.ResourceGroup ∧
     resource._value og = root_in_use w root ∧
     resource._source og = source ∧
     resource._resources og =
       foldl (λ d nr, dict_set nr.1 nr.2 d) [] (zip mappings.*1 members) ∧
     _resource_map (self w') !! resource._uid og = Some rg ∧
     Forall2 (member_of w' (root_in_use w root) source) mappings members).
Proof.
  assert (Hroot : ∃ w0,
    (match root with None => secret_alnum_string 5 | Some r => mret r end) w
      = Some (Ok (root_in_use w root), w0) ∧
    _resource_map (self w0) = _resource_map (self w)).
  { destruct root; eexists; (split; [reflexivity|done]). }
  destruct Hroot as (w0 & Hroot & Hreg0).
  split.
  - intros pre name v post -> Hv Hall.
    destruct (group_members_raise source (root_in_use w root) name v post pre
                [] ∅ w0 Hall Hv) as [w' Hraise].
    exists w'. unfold Batch._new_resource_group, mbind, M_bind.
    by rewrite Hroot, Hraise.
  - intros Hall.
    destruct (group_members_Ok source (root_in_use w root) mappings [] ∅ w0 Hall)
      as (members & nrm' & w1 & Heq & Hsub & Hmem & _);
      [apply map_empty_subseteq|].
    unfold Batch._new_resource_group, mbind, M_bind.
    rewrite Hroot, Heq. simpl. unfold uid_of. simpl.
    rewrite lookup_insert_eq. simpl.
    eexists _, _, members, _. split; [reflexivity|]. simpl.
    rewrite lookup_insert_eq. split_and!; try done.
    + apply lookup_union_Some_l, lookup_singleton_eq.
    + eapply Forall2_impl; [exact Hmem|].
      intros item r (code & value & ? & ? & o & Ho & ? & ? & ? & Hlt & Hreg).
      exists code, value. split_and!; [done..|]. exists o. simpl.
      rewrite lookup_insert_ne by (symmetry; by eapply fresh_not_allocated).
      split_and!; [done..|lia|].
      rewrite lookup_union_r by (apply lookup_singleton_ne; lia).
      rewrite (map_subseteq_union _ _ Hsub). done.
Qed.

(** C7 as stated fails: a call that raises has registered resources.  For
    [{'a': 'x', 'b': 5}] the member minted for [a] is in the registry,
    which was empty, when the exception for [b] is raised. *)
Lemma C7_members_stay_registered :
  ∃ w' o,
    Batch._new_resource_group (H := example_externals) None bad_mapping
      (Some "root") empty_world
      = Some (Raise (Batch.not_a_string "b" (PyInt 5)), w') ∧
    _resource_map (self empty_world) = ∅ ∧
    _resource_map (self w') !! 0 = Some 0 ∧
    resource_store w' !! 0 = Some o ∧
    resource._value o = "x".
Proof.
  eexists _, _. split_and!; [vm_compute; reflexivity|reflexivity|..];
    vm_compute; reflexivity.
Qed.

Lemma good_mapping_expands :
  Forall (expands (H := example_externals) "root") good_mapping.
Proof. repeat constructor; eexists _, _; (split; reflexivity). Qed.

(** C7 at [good_mapping], two plain templates. *)
Lemma C7_new_resource_group_witness :
  ∃ rg w' members og,
    Batch._new_resource_group (H := example_externals) None good_mapping
      (Some "root") empty_world = Some (Ok rg, w') ∧
    resource_store w' !! rg = Some og ∧
    resource.cls og = resource.ResourceGroup ∧
    resource._value og = "root" ∧
    resource._source og = None ∧
    resource._resources og =
      foldl (λ d nr, dict_set nr.1 nr.2 d) [] (zip good_mapping.*1 members) ∧
    _resource_map (self w') !! resource._uid og = Some rg ∧
    Forall2 (member_of (H := example_externals) w' "root" None) good_mapping members.
Proof.
  destruct (C7_new_resource_group (H := example_externals) empty_world None
              good_mapping (Some "root")) as [_ Hok].
  apply Hok, good_mapping_expands.
Defined.

Example new_resource_group_good_mapping :
  ∃ w', Batch._new_resource_group (H := example_externals) None good_mapping
          (Some "root") empty_world = Some (Ok 2, w') ∧
        _resource_map (self w') !! 0 = Some 0 ∧
        _resource_map (self w') !! 1 = Some 1 ∧
        _resource_map (self w') !! 2 = Some 2 ∧
        (resource._resources <$> resource_store w' !! 2)
          = Some [("bed", 0); ("bim", 1)] ∧
        (resource._value <$> resource_store w' !! 0) = Some "x.bed".
Proof. eexists. split_and!; vm_compute; reflexivity. Qed.

(** ** The job list under the factories *)

Lemma hoare_bind {A B} P Q R (m : M A) (k : A → M B) :
  hoare P m Q → (∀ a, hoare (Q a) (k a) R) → hoare P (m ≫= k) R.
Proof.
  intros Hm Hk w r w' HP. unfold mbind, M_bind.
  destruct (m w) as [[[a|e] w1]|] eqn:Hmw; [| |done].
  - destruct (Hm _ _ _ HP Hmw) as (a' & [= <-] & HQ). by apply Hk.
  - by destruct (Hm _ _ _ HP Hmw) as (a' & ? & _).
Qed.

Lemma hoare_ret {A} (P : World → Prop) (a : A) : hoare P (mret a) (λ _, P).
Proof. intros w r w' HP [= <- <-]. eauto. Qed.

Lemma hoare_ret_value {A} (Q : A → World → Prop) (a : A) :
  hoare (Q a) (mret a) Q.
Proof. intros w r w' HQ [= <- <-]. eauto. Qed.

Lemma hoare_get (P : World → Prop) : hoare P get (λ _, P).
Proof. intros w r w' HP [= <- <-]. eauto. Qed.

Lemma hoare_secret_alnum_string P n :
  (∀ w, P w → P (mkWorld (self w) (job_store w) (resource_store w)
                   (Resource_counter w) (Batch_counter w) (entropy w)
                   (S (draws w)) (backend_calls w) (fs_closed w))) →
  hoare P (secret_alnum_string n) (λ _, P).
Proof. intros HP w r w' Hw [= <- <-]. eauto. Qed.

Lemma batch_wf_draw w :
  batch_wf w →
  batch_wf (mkWorld (self w) (job_store w) (resource_store w)
              (Resource_counter w) (Batch_counter w) (entropy w)
              (S (draws w)) (backend_calls w) (fs_closed w)).
Proof. done. Qed.

Lemma hoare_redraw fuel n token :
  hoare batch_wf (Batch.redraw fuel n token) (λ _, batch_wf).
Proof.
  revert token. induction fuel as [|fuel IH]; intros token; [done|].
  simpl. eapply hoare_bind; [apply hoare_get|]. intros w.
  destruct (decide _); [|apply hoare_ret].
  eapply hoare_bind; [apply hoare_secret_alnum_string, batch_wf_draw|done].
Qed.

Lemma hoare_unique_job_token fuel n :
  hoare batch_wf (Batch._unique_job_token fuel n) (λ _, batch_wf).
Proof.
  eapply hoare_bind; [apply hoare_secret_alnum_string, batch_wf_draw|].
  intros token. apply hoare_redraw.
Qed.

Lemma hoare_new_job_object c token name attributes shell :
  hoare batch_wf (new_job_object c token name attributes shell) pending.
Proof.
  intros w r w' [Hnd Halloc] [= <- <-]. eexists. split; [done|].
  assert (Hfresh : fresh (dom (job_store w)) ∉ _jobs (self w)).
  { intros Hin. apply (is_fresh (dom (job_store w))), elem_of_dom. by apply Halloc. }
  unfold pending, batch_wf, allocated. simpl.
  split_and!; [done| |by rewrite lookup_insert_eq|done].
  intros j Hj. rewrite lookup_insert_ne; [by apply Halloc|].
  intros <-. by apply Hfresh.
Qed.

Lemma hoare_update_job j j' f :
  hoare (pending j) (update_job j' f) (λ _, pending j).
Proof.
  intros w r w' ([Hnd Halloc] & Hj & Hnin). unfold update_job.
  destruct (job_store w !! j') eqn:Hj'; [|done]. intros [= <- <-].
  eexists. split; [done|].
  assert (Hkeep : ∀ x, is_Some (job_store w !! x) →
                       is_Some (alter f j' (job_store w) !! x)).
  { intros x [o Ho]. destruct (decide (j' = x)) as [->|?].
    - rewrite lookup_alter_eq, Ho. eauto.
    - rewrite lookup_alter_ne by done. eauto. }
  unfold pending, batch_wf, allocated. simpl.
  split_and!; [done| |by apply Hkeep|done].
  intros x Hx. by apply Hkeep, Halloc.
Qed.

Lemma hoare_apply_default {A} j (x : option A) setter :
  hoare (pending j) (apply_default x setter j) (λ _, pending j).
Proof. destruct x; [apply hoare_update_job|apply hoare_ret]. Qed.

Lemma hoare_apply_regions j :
  hoare (pending j) (Batch.apply_regions j) (λ _, pending j).
Proof.
  eapply hoare_bind; [apply hoare_get|]. intros w.
  destruct (_backend (self w)); [apply hoare_ret|apply hoare_update_job].
Qed.

Lemma hoare_append_job j :
  hoare (pending j) (Batch.append_job j)
    (λ _ w, batch_wf w ∧ j ∈ _jobs (self w)).
Proof.
  intros w r w' ([Hnd Halloc] & Hj & Hnin) [= <- <-]. eexists. split; [done|].
  unfold batch_wf, allocated. simpl. split_and!.
  - apply NoDup_app. split_and!; [done| |apply NoDup_singleton].
    intros x Hx ->%list_elem_of_singleton. done.
  - intros x [Hx| ->%list_elem_of_singleton]%elem_of_app; [by apply Halloc|done].
  - set_solver.
Qed.

(** The job factories never raise, and they keep the job list of the Batch
    a list of distinct, existing job objects; the job they return is in
    that list. *)
Lemma hoare_new_bash_job fuel name attributes shell :
  hoare batch_wf (Batch.new_bash_job fuel name attributes shell)
    (λ j w, batch_wf w ∧ j ∈ _jobs (self w)).
Proof.
  unfold Batch.new_bash_job.
  eapply hoare_bind; [apply hoare_get|]. intros w.
  eapply hoare_bind; [apply hoare_unique_job_token|]. intros token.
  eapply hoare_bind; [apply hoare_new_job_object|]. intros j.
  do 6 (eapply hoare_bind; [apply hoare_apply_default|]; intros ?).
  eapply hoare_bind; [apply hoare_apply_regions|]. intros ?.
  eapply hoare_bind; [apply hoare_append_job|]. intros ?.
  apply (hoare_ret_value (λ j w, batch_wf w ∧ j ∈ _jobs (self w))).
Qed.

Lemma hoare_new_python_job fuel name attributes :
  hoare batch_wf (Batch.new_python_job fuel name attributes)
    (λ j w, batch_wf w ∧ j ∈ _jobs (self w)).
Proof.
  unfold Batch.new_python_job.
  eapply hoare_bind; [apply hoare_get|]. intros w.
  eapply hoare_bind; [apply hoare_unique_job_token|]. intros token.
  eapply hoare_bind; [apply hoare_new_job_object|]. intros j.
  do 6 (eapply hoare_bind; [apply hoare_apply_default|]; intros ?).
  eapply hoare_bind; [apply hoare_apply_regions|]. intros ?.
  eapply hoare_bind; [apply hoare_append_job|]. intros ?.
  apply (hoare_ret_value (λ j w, batch_wf w ∧ j ∈ _jobs (self w))).
Qed.

(** A Batch that [__init__] has built has no job yet. *)
Lemma init_batch_wf name backend attributes rpp image memory cpu storage
    timeout shell python_image spot project cancel config regions w w' :
  Batch.__init__ name backend attributes rpp image memory cpu storage timeout
    shell python_image spot project cancel config regions w = Some (Ok tt, w') →
  batch_wf w'.
Proof.
  unfold Batch.__init__. intros Heq.
  repeat (case_match; simplify_eq); (split; [apply NoDup_nil_2|]);
    intros j []%elem_of_nil.
Qed.

(** ** More on the job factories *)

Lemma drawn_drawn j k w : drawn j (drawn k w) = drawn (j + k) w.
Proof. unfold drawn. simpl. f_equal. lia. Qed.

Lemma secret_alnum_string_eq n w :
  secret_alnum_string n w = Some (Ok (entropy w (draws w)), drawn 1 w).
Proof. done. Qed.

(** The loop of [_unique_job_token] skips the draws that are used tokens
    and stops at the first one that is not. *)
Lemma redraw_first_free n : ∀ fuel k token w,
  k < fuel →
  (∀ i, i < k → (if i is S i' then entropy w (draws w + i') else token)
                  ∈ _job_tokens (self w)) →
  (if k is S k' then entropy w (draws w + k') else token) ∉ _job_tokens (self w) →
  Batch.redraw fuel n token w =
    Some (Ok (if k is S k' then entropy w (draws w + k') else token), drawn k w).
Proof.
  induction fuel as [|fuel IH]; intros k token w Hk Hused Hfree; [lia|].
  simpl. unfold mbind, M_bind, get.
  destruct k as [|k].
  - rewrite decide_False by done. by destruct w.
  - rewrite decide_True by (apply (Hused 0); lia).
    rewrite secret_alnum_string_eq.
    rewrite (IH k (entropy w (draws w)) (drawn 1 w)); [| lia | |].
    + rewrite drawn_drawn. replace (k + 1) with (S k) by lia.
      replace (if k is S k' then entropy (drawn 1 w) (draws (drawn 1 w) + k')
               else entropy w (draws w)) with (entropy w (draws w + k)); [done|].
      destruct k as [|k]; simpl; f_equal; lia.
    + intros i Hi. specialize (Hused (S i)). simpl.
      destruct i as [|i].
      * rewrite <- (Nat.add_0_r (draws w)). apply Hused. lia.
      * replace (S (draws w + i)) with (draws w + S i) by lia. apply Hused. lia.
    + simpl. destruct k as [|k].
      * by rewrite Nat.add_0_r in Hfree.
      * by replace (S (draws w + k)) with (draws w + S k) by lia.
Qed.

(** [_unique_job_token] after [k] used draws. *)
Lemma unique_job_token_skips (fuel n k : nat) (w : World) :
  k < fuel →
  (∀ i, i < k → entropy w (draws w + i) ∈ _job_tokens (self w)) →
  entropy w (draws w + k) ∉ _job_tokens (self w) →
  Batch._unique_job_token fuel n w =
    Some (Ok (entropy w (draws w + k)), drawn (S k) w).
Proof.
  intros Hk Hused Hfree. unfold Batch._unique_job_token, mbind, M_bind.
  rewrite secret_alnum_string_eq.
  rewrite (redraw_first_free n fuel k (entropy w (draws w)) (drawn 1 w) Hk).
  - rewrite drawn_drawn. replace (k + 1) with (S k) by lia.
    replace (if k is S k' then entropy (drawn 1 w) (draws (drawn 1 w) + k')
             else entropy w (draws w)) with (entropy w (draws w + k)); [done|].
    destruct k as [|k]; simpl; f_equal; lia.
  - intros i Hi. simpl. specialize (Hused i Hi). destruct i as [|i].
    + by rewrite Nat.add_0_r in Hused.
    + by replace (S (draws w + i)) with (draws w + S i) by lia.
  - simpl. destruct k as [|k].
    + by rewrite Nat.add_0_r in Hfree.
    + by replace (S (draws w + k)) with (draws w + S k) by lia.
Qed.

(** X8.  [_unique_job_token] returns the first string of the random
    source that is not in [self._job_tokens]: when the next [k] draws are
    used tokens and the draw after them is not, the call returns that draw
    and has drawn [k + 1] strings (given a bound above [k] for the loop of
    the model); nothing else changes. *)
Theorem unique_job_token_first_free (fuel n k : nat) (w : World) :
  k < fuel →
  (∀ i, i < k → entropy w (draws w + i) ∈ _job_tokens (self w)) →
  entropy w (draws w + k) ∉ _job_tokens (self w) →
  Batch._unique_job_token fuel n w =
    Some (Ok (entropy w (draws w + k)), drawn (S k) w).
Proof. apply unique_job_token_skips. Qed.

(** X8 at [service_world]: two used draws, then [bbbbb]. *)
Lemma unique_job_token_first_free_witness :
  Batch._unique_job_token 5 5 service_world =
    Some (Ok "bbbbb", drawn 3 service_world).
Proof.
  apply (unique_job_token_first_free 5 5 2 service_world).
  - lia.
  - intros i Hi. destruct i as [|[|i]]; [vm_compute; set_solver..|lia].
  - vm_compute. set_solver.
Defined.

Lemma redraw_only_draws n : ∀ fuel token w r w1,
  Batch.redraw fuel n token w = Some (r, w1) →
  ∃ t k, r = Ok t ∧ w1 = drawn k w ∧ t ∉ _job_tokens (self w).
Proof.
  induction fuel as [|fuel IH]; intros token w r w1; [done|].
  simpl. unfold mbind, M_bind, get.
  destruct (decide (token ∈ _job_tokens (self w))) as [Hin|Hnin].
  - rewrite secret_alnum_string_eq. intros Heq.
    destruct (IH _ _ _ _ Heq) as (t & k & -> & -> & Ht).
    exists t, (k + 1). by rewrite drawn_drawn.
  - intros [= <- <-]. exists token, 0. by destruct w.
Qed.

Lemma unique_job_token_only_draws fuel n w r w1 :
  Batch._unique_job_token fuel n w = Some (r, w1) →
  ∃ t k, r = Ok t ∧ w1 = drawn k w ∧ t ∉ _job_tokens (self w).
Proof.
  unfold Batch._unique_job_token, mbind, M_bind. rewrite secret_alnum_string_eq.
  intros (t & k & -> & -> & Ht)%redraw_only_draws.
  exists t, (k + 1). by rewrite drawn_drawn.
Qed.

Lemma update_job_placed j f o w :
  update_job j f (placed j o w) = Some (Ok tt, placed j (f o) w).
Proof.
  unfold update_job, placed. simpl. rewrite lookup_insert_eq.
  unfold with_job_store. simpl. by rewrite alter_insert_eq.
Qed.

Lemma apply_default_placed {A} (x : option A) setter j o w :
  apply_default x setter j (placed j o w)
    = Some (Ok tt, placed j (opt_set x setter o) w).
Proof. destruct x; [apply update_job_placed|done]. Qed.

(** What both factories do once the token is minted: create the object,
    apply the defaults and append the job. *)
Lemma factory_tail c token name attributes shell image w0 w :
  self w = self w0 →
  (j ← new_job_object c token name attributes shell;
   apply_default image set_image j;;
   apply_default (_default_memory (self w0)) set_memory j;;
   apply_default (_default_cpu (self w0)) set_cpu j;;
   apply_default (_default_storage (self w0)) set_storage j;;
   apply_default (_default_timeout (self w0)) set_timeout j;;
   apply_default (_default_spot (self w0)) set_spot j;;
   Batch.apply_regions j;;
   Batch.append_job j;;
   mret j) w =
  let j := fresh (dom (job_store w)) in
  Some (Ok j,
        with_self (with_jobs (_jobs (self w) ++ [j]))
          (placed j
             (with_defaults (self w0) image
                (job.mk c token name attributes shell None None None None None
                   None None [] ∅ ∅ None)) w)).
Proof.
  intros Hself. unfold mbind at 1. unfold M_bind at 1.
  unfold new_job_object. fold (placed (fresh (dom (job_store w)))
    (job.mk c token name attributes shell None None None None None
       None None [] ∅ ∅ None) w).
  do 6 (unfold mbind at 1; unfold M_bind at 1; rewrite apply_default_placed).
  unfold mbind at 1. unfold M_bind at 1.
  unfold Batch.apply_regions, mbind at 1. unfold M_bind at 1. unfold get.
  unfold with_defaults. simpl. rewrite <- Hself.
  destruct (_backend (self w)); [done|].
  by rewrite update_job_placed.
Qed.

Lemma with_defaults_fields b image o :
  let o' := with_defaults b image o in
  job.cls o' = job.cls o ∧ job._token o' = job._token o ∧
  job.name o' = job.name o ∧ job.attributes o' = job.attributes o ∧
  job._shell o' = job._shell o ∧
  job._image o' = (if image is Some v then Some v else job._image o) ∧
  job._memory o' = (if _default_memory b is Some v then Some v else job._memory o) ∧
  job._cpu o' = (if _default_cpu b is Some v then Some v else job._cpu o) ∧
  job._storage o' = (if _default_storage b is Some v then Some v else job._storage o) ∧
  job._timeout o' = (if _default_timeout b is Some v then Some v else job._timeout o) ∧
  job._spot o' = (if _default_spot b is Some v then Some v else job._spot o) ∧
  job._regions o' = (if _backend b is ServiceBackend r then Some r else job._regions o) ∧
  job._dependencies o' = job._dependencies o ∧
  job._mentioned o' = job._mentioned o ∧
  job._job_id o' = job._job_id o.
Proof.
  unfold with_defaults.
  destruct image, (_default_memory b), (_default_cpu b), (_default_storage b),
    (_default_timeout b), (_default_spot b), (_backend b); simpl; done.
Qed.

(** X5.  A call of [new_bash_job] that returns has created one job object
    that did not exist, appended it to the end of the job list and changed
    nothing else of the Batch, the other jobs or the resources.  The new
    job is a bash job with the name and attributes given, a token that is
    not a used token, the shell given or else the default shell of the
    Batch, the default image, memory, cpu, storage, timeout and spot
    setting of the Batch, the regions of the backend when that is the
    service backend, no dependency and no position. *)
Theorem new_bash_job_spec (fuel : nat) (name : option string)
    (attributes : option (gmap string string)) (shell : option string)
    (w : World) (r : Result job_ref) (w' : World) :
  Batch.new_bash_job fuel name attributes shell w = Some (r, w') →
  ∃ j o,
    r = Ok j ∧
    job_store w !! j = None ∧
    job_store w' = <[j := o]> (job_store w) ∧
    self w' = with_jobs (_jobs (self w) ++ [j]) (self w) ∧
    resource_store w' = resource_store w ∧
    job.cls o = job.BashJob ∧
    (job._token o ∉ _job_tokens (self w)) ∧
    job.name o = name ∧
    job.attributes o = default ∅ attributes ∧
    job._shell o = (if shell is Some s then Some s else _default_shell (self w)) ∧
    job._image o = _default_image (self w) ∧
    job._memory o = _default_memory (self w) ∧
    job._cpu o = _default_cpu (self w) ∧
    job._storage o = _default_storage (self w) ∧
    job._timeout o = _default_timeout (self w) ∧
    job._spot o = _default_spot (self w) ∧
    job._regions o =
      (if _backend (self w) is ServiceBackend regions then Some regions else None) ∧
    job._dependencies o = [] ∧
    job._job_id o = None.
Proof.
  unfold Batch.new_bash_job. unfold mbind at 1. unfold M_bind at 1. unfold get.
  unfold mbind at 1. unfold M_bind at 1.
  destruct (Batch._unique_job_token fuel 5 w) as [[r1 w1]|] eqn:Htok; [|done].
  destruct (unique_job_token_only_draws _ _ _ _ _ Htok) as (t & k & -> & -> & Ht).
  rewrite (factory_tail job.BashJob t name (default ∅ attributes) _
             (_default_image (self w)) w (drawn k w) eq_refl).
  intros [= <- <-]. eexists _, _. split; [done|].
  pose proof (with_defaults_fields (self w) (_default_image (self w))
    (job.mk job.BashJob t name (default ∅ attributes)
       (match shell with None => _default_shell (self w) | Some s => Some s end)
       None None None None None None None [] ∅ ∅ None)) as Hf.
  simpl in Hf.
  destruct Hf as (Hcl & Htk & Hnm & Hat & Hsh & Hi & Hm & Hc & Hs & Hti & Hsp
                  & Hr & Hd & _ & Hid).
  split_and!; try done; try (by apply not_elem_of_dom, is_fresh);
    rewrite ?Hcl, ?Htk, ?Hnm, ?Hat, ?Hsh, ?Hi, ?Hm, ?Hc, ?Hs, ?Hti, ?Hsp, ?Hr,
      ?Hd, ?Hid;
    try done;
    match goal with |- match ?x with _ => _ end = _ => by destruct x end.
Qed.

(** X6.  [new_python_job] does the same for a Python job, with two
    differences: the job has no shell, and its image is the default Python
    image of the Batch, never the default image. *)
Theorem new_python_job_spec (fuel : nat) (name : option string)
    (attributes : option (gmap string string))
    (w : World) (r : Result job_ref) (w' : World) :
  Batch.new_python_job fuel name attributes w = Some (r, w') →
  ∃ j o,
    r = Ok j ∧
    job_store w !! j = None ∧
    job_store w' = <[j := o]> (job_store w) ∧
    self w' = with_jobs (_jobs (self w) ++ [j]) (self w) ∧
    resource_store w' = resource_store w ∧
    job.cls o = job.PythonJob ∧
    (job._token o ∉ _job_tokens (self w)) ∧
    job.name o = name ∧
    job.attributes o = default ∅ attributes ∧
    job._shell o = None ∧
    job._image o = _default_python_image (self w) ∧
    job._memory o = _default_memory (self w) ∧
    job._cpu o = _default_cpu (self w) ∧
    job._storage o = _default_storage (self w) ∧
    job._timeout o = _default_timeout (self w) ∧
    job._spot o = _default_spot (self w) ∧
    job._regions o =
      (if _backend (self w) is ServiceBackend regions then Some regions else None) ∧
    job._dependencies o = [] ∧
    job._job_id o = None.
Proof.
  unfold Batch.new_python_job. unfold mbind at 1. unfold M_bind at 1. unfold get.
  unfold mbind at 1. unfold M_bind at 1.
  destruct (Batch._unique_job_token fuel 5 w) as [[r1 w1]|] eqn:Htok; [|done].
  destruct (unique_job_token_only_draws _ _ _ _ _ Htok) as (t & k & -> & -> & Ht).
  rewrite (factory_tail job.PythonJob t name (default ∅ attributes) None
             (_default_python_image (self w)) w (drawn k w) eq_refl).
  intros [= <- <-]. eexists _, _. split; [done|].
  pose proof (with_defaults_fields (self w) (_default_python_image (self w))
    (job.mk job.PythonJob t name (default ∅ attributes) None
       None None None None None None None [] ∅ ∅ None)) as Hf.
  simpl in Hf.
  destruct Hf as (Hcl & Htk & Hnm & Hat & Hsh & Hi & Hm & Hc & Hs & Hti & Hsp
                  & Hr & Hd & _ & Hid).
  split_and!; try done; try (by apply not_elem_of_dom, is_fresh);
    rewrite ?Hcl, ?Htk, ?Hnm, ?Hat, ?Hsh, ?Hi, ?Hm, ?Hc, ?Hs, ?Hti, ?Hsp, ?Hr,
      ?Hd, ?Hid;
    try done;
    match goal with |- match ?x with _ => _ end = _ => by destruct x end.
Qed.

(** X5 at [service_world]. *)
Lemma new_bash_job_spec_witness :
  ∃ w',
    Batch.new_bash_job 5 (Some "align") None None service_world
      = Some (Ok 1, w') ∧
    ∃ j o,
      Ok 1 = Ok j ∧
      job_store service_world !! j = None ∧
      job_store w' = <[j := o]> (job_store service_world) ∧
      self w' = with_jobs (_jobs (self service_world) ++ [j]) (self service_world) ∧
      resource_store w' = resource_store service_world ∧
      job.cls o = job.BashJob ∧
      (job._token o ∉ _job_tokens (self service_world)) ∧
      job.name o = Some "align" ∧
      job.attributes o = ∅ ∧
      job._shell o = Some "/bin/sh" ∧
      job._image o = Some "ubuntu:22.04" ∧
      job._memory o = Some "4Gi" ∧
      job._cpu o = None ∧
      job._storage o = None ∧
      job._timeout o = None ∧
      job._spot o = None ∧
      job._regions o = Some ["us-central1"] ∧
      job._dependencies o = [] ∧
      job._job_id o = None.
Proof.
  eexists. split; [vm_compute; reflexivity|].
  apply (new_bash_job_spec 5 (Some "align") None None service_world).
  vm_compute. reflexivity.
Defined.

(** X6 at [service_world]. *)
Lemma new_python_job_spec_witness :
  ∃ w',
    Batch.new_python_job 5 None None service_world = Some (Ok 1, w') ∧
    ∃ j o,
      Ok 1 = Ok j ∧
      job_store service_world !! j = None ∧
      job_store w' = <[j := o]> (job_store service_world) ∧
      self w' = with_jobs (_jobs (self service_world) ++ [j]) (self service_world) ∧
      resource_store w' = resource_store service_world ∧
      job.cls o = job.PythonJob ∧
      (job._token o ∉ _job_tokens (self service_world)) ∧
      job.name o = None ∧
      job.attributes o = ∅ ∧
      job._shell o = None ∧
      job._image o = Some "python:3.10" ∧
      job._memory o = Some "4Gi" ∧
      job._cpu o = None ∧
      job._storage o = None ∧
      job._timeout o = None ∧
      job._spot o = None ∧
      job._regions o = Some ["us-central1"] ∧
      job._dependencies o = [] ∧
      job._job_id o = None.
Proof.
  eexists. split; [vm_compute; reflexivity|].
  apply (new_python_job_spec 5 None None service_world).
  vm_compute. reflexivity.
Defined.

(** X7.  When the job list of the Batch holds distinct objects that all
    exist, each of [new_bash_job], [new_job] and [new_python_job] returns
    normally if it returns, the job it returns is in the job list, and the
    job list still holds distinct objects that all exist. *)
Theorem job_factories_keep_job_list (fuel : nat) (job_name : option string)
    (attrs : option (gmap string string)) (shell : option string)
    (w : World) (r : Result job_ref) (w' : World) :
  batch_wf w →
  Batch.new_bash_job fuel job_name attrs shell w = Some (r, w') ∨
  Batch.new_job fuel job_name attrs shell w = Some (r, w') ∨
  Batch.new_python_job fuel job_name attrs w = Some (r, w') →
  ∃ j, r = Ok j ∧ batch_wf w' ∧ j ∈ _jobs (self w').
Proof.
  intros Hwf [Hcall|[Hcall|Hcall]].
  - by apply (hoare_new_bash_job fuel job_name attrs shell w r w').
  - by apply (hoare_new_bash_job fuel job_name attrs shell w r w').
  - by apply (hoare_new_python_job fuel job_name attrs w r w').
Qed.

Lemma service_world_wf : batch_wf service_world.
Proof.
  split; [apply NoDup_singleton|].
  intros j ->%list_elem_of_singleton. vm_compute. eauto.
Qed.

(** X7 at [service_world]. *)
Lemma job_factories_keep_job_list_witness :
  ∃ w' j, Ok 1 = Ok j ∧ batch_wf w' ∧ j ∈ _jobs (self w').
Proof.
  eexists.
  apply (job_factories_keep_job_list 5 None None None service_world (Ok 1));
    [apply service_world_wf|].
  left. vm_compute. reflexivity.
Defined.

(** X9.  [Batch.__init__] advances the class counter of uids on every
    call, also when it raises, and touches no job and no resource.  When it
    returns, the Batch has the uid of the old counter, no job, an empty
    registry, an empty token set, the attributes given (without the key
    [name]) and the backend given or else the configured one.  When it
    raises, it is the [AssertionError] for a missing backend with a
    configuration other than [service] and [local], or the [BatchException]
    for the key [name]. *)
Theorem init_spec (batch_name : option string) (backend : option Backend)
    (attrs : option (gmap string string))
    (requester_pays_project default_image default_memory default_cpu
       default_storage : option string)
    (default_timeout : option Z)
    (default_shell default_python_image : option string)
    (default_spot : option bool) (project : option string)
    (cancel_after_n_failures : option nat)
    (backend_config : string) (service_regions : list string)
    (w : World) (r : Result unit) (w' : World) :
  Batch.__init__ batch_name backend attrs requester_pays_project default_image
    default_memory default_cpu default_storage default_timeout default_shell
    default_python_image default_spot project cancel_after_n_failures
    backend_config service_regions w = Some (r, w') →
  Batch_counter w' = S (Batch_counter w) ∧
  job_store w' = job_store w ∧ resource_store w' = resource_store w ∧
  match r with
  | Ok _ =>
      ("name" ∉ dom (default ∅ attrs)) ∧
      _uid (self w') = Batch_counter w ∧
      _jobs (self w') = [] ∧
      _resource_map (self w') = ∅ ∧
      _job_tokens (self w') = ∅ ∧
      name (self w') = batch_name ∧
      attributes (self w') = default ∅ attrs ∧
      match backend with
      | Some b => _backend (self w') = b
      | None =>
          backend_config = "service" ∧
          _backend (self w') = ServiceBackend service_regions ∨
          backend_config = "local" ∧ _backend (self w') = LocalBackend
      end
  | Raise e =>
      self w' = self w ∧
      (e = AssertionError ∧ backend = None ∧
       backend_config ≠ "service" ∧ backend_config ≠ "local" ∨
       e = Batch.name_error ∧ "name" ∈ dom (default ∅ attrs))
  end.
Proof.
  unfold Batch.__init__. intros Heq.
  destruct backend as [b|].
  - destruct (decide ("name" ∈ dom (default ∅ attrs))); simplify_eq; simpl;
      split_and!; try done. by right.
  - destruct (decide (backend_config = "service")) as [->|Hs].
    { destruct (decide ("name" ∈ dom (default ∅ attrs))); simplify_eq; simpl;
        split_and!; try done; [by right|by left]. }
    destruct (decide (backend_config = "local")) as [->|Hl].
    { destruct (decide ("name" ∈ dom (default ∅ attrs))); simplify_eq; simpl;
        split_and!; try done; by right. }
    simplify_eq. simpl. split_and!; try done. by left.
Qed.

(** X9 at [service_world], for a Batch named [qc] with the local
    configuration. *)
Lemma init_spec_witness :
  ∃ w',
    Batch.__init__ (Some "qc") None None None None None None None None None
      None None None None "local" [] service_world = Some (Ok tt, w') ∧
    Batch_counter w' = S (Batch_counter service_world) ∧
    job_store w' = job_store service_world ∧
    resource_store w' = resource_store service_world ∧
    ("name" ∉ dom (default (∅ : gmap string string) None)) ∧
    _uid (self w') = Batch_counter service_world ∧
    _jobs (self w') = [] ∧
    _resource_map (self w') = ∅ ∧
    _job_tokens (self w') = ∅ ∧
    name (self w') = Some "qc" ∧
    attributes (self w') = default ∅ None ∧
    ("local" = "service" ∧ _backend (self w') = ServiceBackend [] ∨
     "local" = "local" ∧ _backend (self w') = LocalBackend).
Proof.
  eexists. split; [vm_compute; reflexivity|].
  apply (init_spec (Some "qc") None None None None None None None None None
           None None None None "local" [] service_world (Ok tt)).
  vm_compute. reflexivity.
Defined.

(** ** Input resources *)

(** ** Input resources *)

Lemma basename_no_slash s : contains_char "/" (basename s) = false.
Proof.
  induction s as [|c s IH]; [done|]. simpl.
  destruct (contains_char "/" s) eqn:Hs; [done|].
  destruct (decide (c = "/"%char)) as [->|Hc]; [done|].
  simpl. by rewrite decide_False.
Qed.

Lemma new_input_resource_file_eq `{InputExternals} path root w fname :
  input_file_name (_backend (self w)) path = Ok fname →
  BatchInputs._new_input_resource_file path root w =
    let w0 := match root_given root with Some _ => w | None => drawn 1 w end in
    Some (Ok (fresh (dom (resource_store w))),
          minted_input path
            (default (entropy w (draws w)) (root_given root) +:+ "/" +:+
             basename (rstrip_slash fname)) w0).
Proof.
  unfold input_file_name, BatchInputs._new_input_resource_file.
  unfold mbind, M_bind. simpl. intros Hname.
  destruct (validate_file_scheme _ _) as [[]|e]; [|done].
  assert (Hfile : (if azure_valid_url path
                   then match azure_get_name_parts path with
                        | Ok parts => mret parts.1
                        | Raise e => raise e
                        end
                   else mret path) w = Some (Ok fname, w)).
  { destruct (azure_valid_url path); [|by simplify_eq].
    destruct (azure_get_name_parts path); by simplify_eq. }
  rewrite Hfile.
  destruct root as [r|]; simpl; [destruct (decide (r = "")); simpl|];
    unfold _add_input_path, uid_of; simpl;
    rewrite ?lookup_insert_eq; simpl;
    rewrite ?lookup_alter_eq, ?lookup_insert_eq; simpl;
    unfold minted_input, with_resource_store; simpl;
    by rewrite ?alter_insert_eq.
Qed.

Lemma new_input_resource_file_raise `{InputExternals} path root w e :
  input_file_name (_backend (self w)) path = Raise e →
  BatchInputs._new_input_resource_file path root w = Some (Raise e, w).
Proof.
  unfold input_file_name, BatchInputs._new_input_resource_file.
  unfold mbind, M_bind. simpl. intros Hname.
  destruct (validate_file_scheme _ _) as [[]|e']; [|by simplify_eq].
  destruct (azure_valid_url path); [|done].
  destruct (azure_get_name_parts path); by simplify_eq.
Qed.

Lemma input_file_minted `{InputExternals} path root fname w :
  input_file_name (_backend (self w)) path = Ok fname →
  input_file
    (minted_input path (root +:+ "/" +:+ basename (rstrip_slash fname)) w)
    root path (fresh (dom (resource_store w))).
Proof.
  intros Hname. eexists _, fname. simpl. rewrite !lookup_insert_eq.
  split_and!; try done; try (simpl; lia).
  - simpl. by rewrite lookup_insert_eq.
  - set_solver.
Qed.

Lemma input_file_kept `{InputExternals} path value w root' path' r :
  input_file w root' path' r →
  input_file (minted_input path value w) root' path' r.
Proof.
  intros (o & fname & Ho & ? & ? & ? & ? & ? & ? & Hlt & Hreg & Hin).
  exists o, fname. simpl.
  rewrite lookup_insert_ne by (symmetry; by eapply fresh_not_allocated).
  rewrite lookup_insert_ne by lia.
  split_and!; try done; try lia. set_solver.
Qed.

(** X10.  When the backend accepts the scheme of [path], [read_input]
    returns a resource that did not exist before: an input resource file
    for [path] whose name is the next random string, a slash and a name
    without slash, held by the registry under its uid and by the input
    resources of the Batch.  One random string is drawn; the jobs and every
    other resource object are untouched. *)
Theorem read_input_spec `{InputExternals} (path fname : string) (w : World) :
  input_file_name (_backend (self w)) path = Ok fname →
  ∃ r w',
    BatchInputs.read_input path w = Some (Ok r, w') ∧
    resource_store w !! r = None ∧
    input_file w' (entropy w (draws w)) path r ∧
    contains_char "/" (basename (rstrip_slash fname)) = false ∧
    draws w' = S (draws w) ∧
    _input_resources (self w') = {[r]} ∪ _input_resources (self w) ∧
    _jobs (self w') = _jobs (self w) ∧
    job_store w' = job_store w ∧
    (∀ x, x ≠ r → resource_store w' !! x = resource_store w !! x) ∧
    (∀ k, k ≠ Resource_counter w →
          _resource_map (self w') !! k = _resource_map (self w) !! k).
Proof.
  intros Hname. unfold BatchInputs.read_input.
  rewrite (new_input_resource_file_eq _ _ _ _ Hname). simpl.
  eexists _, _. split; [reflexivity|].
  split_and!; try done.
  - apply not_elem_of_dom, is_fresh.
  - by apply (input_file_minted path (entropy w (draws w)) fname (drawn 1 w)).
  - apply basename_no_slash.
  - intros x Hx. simpl. by rewrite lookup_insert_ne.
  - intros k Hk. simpl. by rewrite lookup_insert_ne.
Qed.

(** X10 at the path [data/hello.txt//] in [empty_world]: the resource is
    named [aaaaa/hello.txt]. *)
Lemma read_input_spec_witness :
  ∃ r w' o,
    BatchInputs.read_input (H := example_input_externals) "data/hello.txt//"
      empty_world = Some (Ok r, w') ∧
    resource_store w' !! r = Some o ∧
    resource._value o = "aaaaa/hello.txt" ∧
    _input_resources (self w') = {[r]} ∪ _input_resources (self empty_world).
Proof.
  destruct (read_input_spec (H := example_input_externals) "data/hello.txt//"
              "data/hello.txt//" empty_world eq_refl)
    as (r & w' & Hcall & _ & (o & fname & Ho & _ & _ & _ & _ & Hname & Hv & _)
        & _ & _ & Hin & _).
  exists r, w', o. split_and!; [done|done| |done].
  rewrite Hv. vm_compute in Hname. by simplify_eq.
Defined.

(** X11.  When the backend rejects the scheme of the path, or the path is
    an Azure URL that does not parse, [_new_input_resource_file] and
    [read_input] raise that exception and leave the world as it was: no
    resource is made or registered and no random string is drawn. *)
Theorem read_input_rejected `{InputExternals} (path : string)
    (root : option string) (e : Exn) (w : World) :
  input_file_name (_backend (self w)) path = Raise e →
  BatchInputs._new_input_resource_file path root w = Some (Raise e, w) ∧
  BatchInputs.read_input path w = Some (Raise e, w).
Proof.
  intros Hname. split; by apply new_input_resource_file_raise.
Qed.

(** X11 at an [ftp] URL. *)
Lemma read_input_rejected_witness :
  BatchInputs._new_input_resource_file (H := example_input_externals)
    "ftp://host/file" (Some "root") empty_world
    = Some (Raise (OtherError "ValueError"), empty_world) ∧
  BatchInputs.read_input (H := example_input_externals) "ftp://host/file"
    empty_world = Some (Raise (OtherError "ValueError"), empty_world).
Proof.
  apply (read_input_rejected (H := example_input_externals) "ftp://host/file"
           (Some "root") (OtherError "ValueError") empty_world).
  reflexivity.
Defined.

(** The comprehension over paths that are all accepted, below a root that
    is not empty. *)
Lemma input_members_Ok `{InputExternals} root kwargs (Hroot : root ≠ "") :
  ∀ d w,
  accepted (_backend (self w)) kwargs →
  ∃ members w',
    BatchInputs.input_members root kwargs d w =
      Some (Ok (foldl (λ d nr, dict_set nr.1 nr.2 d) d (zip kwargs.*1 members)),
            w') ∧
    Forall2 (input_member w w' root) kwargs members ∧
    (∀ rt p r, input_file w rt p r → input_file w' rt p r) ∧
    (∀ r o, resource_store w !! r = Some o → resource_store w' !! r = Some o) ∧
    draws w' = draws w ∧ _jobs (self w') = _jobs (self w) ∧
    job_store w' = job_store w ∧ _backend (self w') = _backend (self w) ∧
    size (dom (resource_store w')) = length kwargs + size (dom (resource_store w)).
Proof.
  induction kwargs as [|[name file] kwargs IH]; intros d w Hall.
  - exists [], w. by split_and!.
  - apply Forall_cons in Hall as [[fname Hname] Hall]. simpl in Hname.
    simpl. unfold mbind, M_bind.
    rewrite (new_input_resource_file_eq _ _ _ _ Hname). simpl.
    rewrite decide_False by done. simpl.
    destruct (IH (dict_set name (fresh (dom (resource_store w))) d)
                 (minted_input file
                    (root +:+ "/" +:+ basename (rstrip_slash fname)) w))
      as (members & w' & Heq & Hmem & Hkept & Hold & Hd & Hj & Hs & Hb & Hsz);
      [done|].
    exists (fresh (dom (resource_store w)) :: members), w'.
    split_and!; try done.
    + constructor.
      * split; [by apply Hkept, input_file_minted|].
        apply not_elem_of_dom, is_fresh.
      * eapply Forall2_impl; [exact Hmem|]. intros kv r [? Hnew].
        split; [done|]. simpl in Hnew.
        apply lookup_insert_None in Hnew. tauto.
    + intros rt p r Hr. by apply Hkept, input_file_kept.
    + intros r o Hr. apply Hold. simpl.
      rewrite lookup_insert_ne by (symmetry; by eapply fresh_not_allocated).
      done.
    + rewrite Hsz. simpl. rewrite dom_insert_L, size_union, size_singleton.
      * lia.
      * apply disjoint_singleton_l, is_fresh.
Qed.

Lemma input_members_app `{InputExternals} root l1 l2 : ∀ d w,
  BatchInputs.input_members root (l1 ++ l2) d w =
    (d' ← BatchInputs.input_members root l1 d;
     BatchInputs.input_members root l2 d') w.
Proof.
  induction l1 as [|[name file] l1 IH]; intros d w; [done|].
  simpl. unfold mbind, M_bind.
  destruct (BatchInputs._new_input_resource_file file (Some root) w)
    as [[[r|e] w']|]; [|done..].
  apply IH.
Qed.

(** X12.  When the random root is not empty and the backend accepts the
    scheme of every path, [read_input_group] returns a new resource group
    without source, named by the root, whose members are, in the order of
    the arguments, new input resource files for the paths, named below the
    root and held by the registry and by the input resources of the Batch;
    the group is registered under its uid.  One random string is drawn for
    the whole group, one resource object is made per path and one for the
    group, and the jobs are untouched. *)
Theorem read_input_group_spec `{InputExternals}
    (kwargs : list (string * string)) (w : World) :
  entropy w (draws w) ≠ "" →
  accepted (_backend (self w)) kwargs →
  ∃ rg w' og members,
    BatchInputs.read_input_group kwargs w = Some (Ok rg, w') ∧
    resource_store w !! rg = None ∧
    resource_store w' !! rg = Some og ∧
    resource.cls og = resource.ResourceGroup ∧
    resource._value og = entropy w (draws w) ∧
    resource._source og = None ∧
    resource._resources og =
      foldl (λ d nr, dict_set nr.1 nr.2 d) [] (zip kwargs.*1 members) ∧
    _resource_map (self w') !! resource._uid og = Some rg ∧
    Forall2 (input_member w w' (entropy w (draws w))) kwargs members ∧
    draws w' = S (draws w) ∧
    _jobs (self w') = _jobs (self w) ∧
    job_store w' = job_store w ∧
    size (dom (resource_store w')) =
      S (length kwargs) + size (dom (resource_store w)).
Proof.
  intros Hroot Hall.
  destruct (input_members_Ok (entropy w (draws w)) kwargs Hroot [] (drawn 1 w)
              Hall)
    as (members & w1 & Heq & Hmem & _ & Hold & Hd & Hj & Hs & _ & Hsz).
  unfold BatchInputs.read_input_group, mbind, M_bind. simpl.
  change (mkWorld (self w) (job_store w) (resource_store w)
            (Resource_counter w) (Batch_counter w) (entropy w) (S (draws w))
            (backend_calls w) (fs_closed w)) with (drawn 1 w).
  rewrite Heq. simpl. unfold uid_of. simpl. rewrite lookup_insert_eq. simpl.
  eexists _, _, _, members. split; [reflexivity|]. simpl.
  rewrite lookup_insert_eq.
  assert (Hnew : resource_store w1 !! fresh (dom (resource_store w1)) = None)
    by apply not_elem_of_dom, is_fresh.
  split_and!; try done.
  - destruct (resource_store w !! fresh (dom (resource_store w1))) as [o|] eqn:Ho;
      [|done].
    apply (Hold _ o) in Ho. congruence.
  - apply lookup_union_Some_l, lookup_singleton_eq.
  - eapply Forall2_impl; [exact Hmem|].
    intros kv r [(o & fname & Ho & ? & ? & ? & ? & ? & ? & Hlt & Hreg & Hin) ?].
    split; [|done]. exists o, fname. simpl.
    rewrite lookup_insert_ne by (symmetry; by eapply fresh_not_allocated).
    split_and!; try done; [lia|].
    rewrite lookup_union_r by (apply lookup_singleton_ne; lia). done.
  - rewrite dom_insert_L, size_union, size_singleton.
    + simpl in Hsz. lia.
    + apply disjoint_singleton_l, is_fresh.
Qed.

Lemma input_group_accepted :
  accepted (H := example_input_externals) (_backend (self empty_world))
    input_group.
Proof. repeat constructor; by eexists. Qed.

(** X12 at [input_group] in [empty_world]. *)
Lemma read_input_group_spec_witness :
  ∃ rg w' og members,
    BatchInputs.read_input_group (H := example_input_externals) input_group
      empty_world = Some (Ok rg, w') ∧
    resource_store w' !! rg = Some og ∧
    resource._value og = "aaaaa" ∧
    resource._resources og =
      foldl (λ d nr, dict_set nr.1 nr.2 d) [] (zip input_group.*1 members) ∧
    Forall2 (input_member (H := example_input_externals) empty_world w' "aaaaa")
      input_group members ∧
    draws w' = 1.
Proof.
  destruct (read_input_group_spec (H := example_input_externals) input_group
              empty_world)
    as (rg & w' & og & members & ? & ? & ? & ? & ? & ? & ? & ? & ? & ? & _);
    [done|apply input_group_accepted|].
  by exists rg, w', og, members.
Defined.

(** X13.  When the backend rejects the scheme of one of the paths and
    accepts the paths before it, [read_input_group] raises that exception
    after it has made the input resource files for the paths before it:
    they are in the registry and among the input resources of the Batch
    when the exception leaves, and no other resource object has been
    made. *)
Theorem read_input_group_rejected `{InputExternals}
    (pre post : list (string * string)) (name file : string) (e : Exn)
    (w : World) :
  entropy w (draws w) ≠ "" →
  accepted (_backend (self w)) pre →
  input_file_name (_backend (self w)) file = Raise e →
  ∃ w' members,
    BatchInputs.read_input_group (pre ++ (name, file) :: post) w =
      Some (Raise e, w') ∧
    Forall2 (input_member w w' (entropy w (draws w))) pre members ∧
    size (dom (resource_store w')) = length pre + size (dom (resource_store w)) ∧
    draws w' = S (draws w).
Proof.
  intros Hroot Hall Hname.
  destruct (input_members_Ok (entropy w (draws w)) pre Hroot [] (drawn 1 w)
              Hall)
    as (members & w1 & Heq & Hmem & _ & _ & Hd & _ & _ & Hb & Hsz).
  unfold BatchInputs.read_input_group, mbind, M_bind. simpl.
  change (mkWorld (self w) (job_store w) (resource_store w)
            (Resource_counter w) (Batch_counter w) (entropy w) (S (draws w))
            (backend_calls w) (fs_closed w)) with (drawn 1 w).
  rewrite input_members_app. unfold mbind, M_bind. rewrite Heq. simpl.
  unfold mbind, M_bind.
  rewrite (new_input_resource_file_raise file _ w1 e) by (by rewrite Hb).
  exists w1, members. by split_and!.
Qed.

(** X13 at [rejected_group] in [empty_world]: the file made for the first
    path stays behind. *)
Lemma read_input_group_rejected_witness :
  ∃ w' members,
    BatchInputs.read_input_group (H := example_input_externals) rejected_group
      empty_world = Some (Raise (OtherError "ValueError"), w') ∧
    Forall2 (input_member (H := example_input_externals) empty_world w' "aaaaa")
      [("bed", "data/x.bed")] members ∧
    size (dom (resource_store w')) = 1.
Proof.
  destruct (read_input_group_rejected (H := example_input_externals)
              [("bed", "data/x.bed")] [("fam", "data/x.fam")] "bim"
              "ftp://host/x.bim" (OtherError "ValueError") empty_world)
    as (w' & members & ? & ? & ? & _);
    [done|by repeat constructor; eexists|done|].
  by exists w', members.
Defined.

(** ** The registry of resources *)

Lemma extends_refl w : extends w w.
Proof. by intros Hwf. Qed.

Lemma extends_trans w1 w2 w3 : extends w1 w2 → extends w2 w3 → extends w1 w3.
Proof.
  intros H12 H23 Hwf. destruct (H12 Hwf) as [Hwf2 Hsub2].
  destruct (H23 Hwf2) as [Hwf3 Hsub3]. split; [done|by etrans].
Qed.

Lemma extends_same w w' :
  _resource_map (self w') = _resource_map (self w) →
  resource_store w' = resource_store w →
  Resource_counter w' = Resource_counter w →
  extends w w'.
Proof.
  intros Hm Hs Hc Hwf. unfold registry_wf. rewrite Hm, Hs, Hc. done.
Qed.

(** A new object that takes the uid of the counter and is registered
    under it. *)
Lemma extends_mint w w' o :
  _resource_map (self w') =
    <[Resource_counter w := fresh (dom (resource_store w))]>
      (_resource_map (self w)) →
  resource_store w' =
    <[fresh (dom (resource_store w)) := o]> (resource_store w) →
  resource._uid o = Resource_counter w →
  Resource_counter w' = S (Resource_counter w) →
  extends w w'.
Proof.
  intros Hm Hs Huid Hc Hwf. split.
  - intros k r. rewrite Hm, Hs, Hc. intros Hk.
    apply lookup_insert_Some in Hk as [[<- <-]|[Hne Hk]].
    + split; [lia|]. exists o. by rewrite lookup_insert_eq.
    + destruct (Hwf k r Hk) as [Hlt (o' & Ho' & Hu)]. split; [lia|].
      exists o'. split; [|done].
      rewrite lookup_insert_ne; [done|].
      symmetry. by eapply fresh_not_allocated.
  - rewrite Hm. apply insert_subseteq.
    destruct (_resource_map (self w) !! Resource_counter w) as [r|] eqn:Hk;
      [|done].
    destruct (Hwf _ _ Hk). lia.
Qed.

Lemma extends_new_job_resource_file source value w r w' :
  Batch._new_job_resource_file source value w = Some (r, w') → extends w w'.
Proof.
  unfold Batch._new_job_resource_file, mbind, M_bind.
  destruct value; simpl; unfold uid_of; simpl; rewrite lookup_insert_eq;
    simpl; intros [= <- <-]; by eapply extends_mint.
Qed.

Lemma extends_new_python_result source value w r w' :
  Batch._new_python_result source value w = Some (r, w') → extends w w'.
Proof.
  unfold Batch._new_python_result, mbind, M_bind.
  destruct value; simpl; unfold uid_of; simpl; rewrite lookup_insert_eq;
    simpl; intros [= <- <-]; by eapply extends_mint.
Qed.

Lemma extends_new_input_resource_file `{InputExternals} path root w r w' :
  BatchInputs._new_input_resource_file path root w = Some (r, w') →
  extends w w'.
Proof.
  destruct (input_file_name (_backend (self w)) path) as [fname|e] eqn:Hname.
  - rewrite (new_input_resource_file_eq _ _ _ _ Hname). simpl.
    intros [= <- <-]. destruct (root_given root); by eapply extends_mint.
  - rewrite (new_input_resource_file_raise _ _ _ _ Hname).
    intros [= <- <-]. apply extends_refl.
Qed.

Lemma extends_group_members `{Externals} source root items :
  ∀ d nrm w r w',
    registry_wf w →
    nrm ⊆ _resource_map (self w) →
    Batch.group_members source root items d nrm w = Some (r, w') →
    registry_wf w' ∧ _resource_map (self w) ⊆ _resource_map (self w') ∧
    ∀ dm, r = Ok dm → dm.2 ⊆ _resource_map (self w').
Proof.
  induction items as [|[name v] items IH]; intros d nrm w r w' Hwf Hsub.
  - intros [= <- <-]. split_and!; [done|done|]. by intros dm [= <-].
  - simpl. destruct v as [code| | |]; try (intros [= <- <-]; by split_and!).
    destruct (eval_fstring root name code) as [value|e];
      [|intros [= <- <-]; by split_and!].
    unfold mbind, M_bind.
    rewrite new_job_resource_file_eq, uid_of_minted. intros Hcall.
    destruct (extends_mint w (minted_file source value w)
                (resource.mk resource.JobResourceFile (Resource_counter w)
                   value source None [] []))
      as [Hwf1 Hsub1]; [done..|].
    destruct (IH _ _ _ _ _ Hwf1 (insert_mono _ _ _ _ Hsub) Hcall)
      as (Hwf' & Hsub' & Hnrm).
    split_and!; [done| |done]. by etrans.
Qed.

Lemma extends_new_resource_group `{Externals} source mappings root w r w' :
  Batch._new_resource_group source mappings root w = Some (r, w') →
  extends w w'.
Proof.
  intros Hcall Hwf. revert Hcall.
  unfold Batch._new_resource_group, mbind at 1, M_bind at 1.
  assert (Hroot : ∃ rt w0,
    (match root with None => secret_alnum_string 5 | Some r => mret r end) w
      = Some (Ok rt, w0) ∧ extends w w0).
  { destruct root; eexists _, _; (split; [reflexivity|]);
      [apply extends_refl|by apply extends_same]. }
  destruct Hroot as (rt & w0 & -> & Hext0).
  destruct (Hext0 Hwf) as [Hwf0 Hsub0].
  unfold mbind at 1, M_bind at 1.
  destruct (Batch.group_members source rt mappings [] ∅ w0)
    as [[[dm|e] w1]|] eqn:Hloop; [| |done].
  - destruct (extends_group_members _ _ _ _ _ _ _ _ Hwf0
                (map_empty_subseteq _) Hloop) as (Hwf1 & Hsub1 & Hdm).
    specialize (Hdm dm eq_refl).
    unfold mbind, M_bind. simpl. unfold uid_of. simpl.
    rewrite lookup_insert_eq. simpl. intros [= <- <-].
    rewrite (map_subseteq_union _ _ Hdm).
    destruct (extends_mint w1
      (mkWorld
         (with_resource_map
            ({[Resource_counter w1 := fresh (dom (resource_store w1))]} ∪
             _resource_map (self w1)) (self w1))
         (job_store w1)
         (<[fresh (dom (resource_store w1)) :=
              resource.mk resource.ResourceGroup (Resource_counter w1) rt
                source None dm.1 []]> (resource_store w1))
         (S (Resource_counter w1)) (Batch_counter w1) (entropy w1) (draws w1)
         (backend_calls w1) (fs_closed w1))
      (resource.mk resource.ResourceGroup (Resource_counter w1) rt source
         None dm.1 [])) as [Hwf2 Hsub2];
      [simpl; by rewrite insert_union_singleton_l|done..|].
    split; [|by do 2 (etrans; [eassumption|])].
    intros k x Hk. apply (Hwf2 k x).
    simpl in *. by destruct (self w1).
  - destruct (extends_group_members _ _ _ _ _ _ _ _ Hwf0
                (map_empty_subseteq _) Hloop) as (Hwf1 & Hsub1 & _).
    intros [= <- <-]. split; [done|by etrans].
Qed.

Lemma extends_input_members `{InputExternals} root kwargs :
  ∀ d w r w',
    BatchInputs.input_members root kwargs d w = Some (r, w') → extends w w'.
Proof.
  induction kwargs as [|[name file] kwargs IH]; intros d w r w'.
  - intros [= <- <-]. apply extends_refl.
  - simpl. unfold mbind, M_bind.
    destruct (BatchInputs._new_input_resource_file file (Some root) w)
      as [[[x|e] w1]|] eqn:Hnew; [| |done].
    + intros Hcall. eapply extends_trans; [|by eapply IH].
      by eapply extends_new_input_resource_file.
    + intros [= <- <-]. by eapply extends_new_input_resource_file.
Qed.

Lemma extends_read_input_group `{InputExternals} kwargs w r w' :
  BatchInputs.read_input_group kwargs w = Some (r, w') → extends w w'.
Proof.
  unfold BatchInputs.read_input_group, mbind at 1, M_bind at 1. simpl.
  unfold mbind at 1, M_bind at 1.
  destruct (BatchInputs.input_members _ kwargs [] _)
    as [[[members|e] w1]|] eqn:Hloop; [| |done].
  - unfold mbind, M_bind. simpl. unfold uid_of. simpl.
    rewrite lookup_insert_eq. simpl. intros [= <- <-].
    eapply extends_trans; [by apply (extends_same w (drawn 1 w))|].
    eapply extends_trans; [by eapply extends_input_members|].
    eapply extends_mint; simpl; [|done..].
    by rewrite insert_union_singleton_l.
  - intros [= <- <-].
    eapply extends_trans; [by apply (extends_same w (drawn 1 w))|].
    by eapply extends_input_members.
Qed.

(** X14.  Started with a registry in which every key is the uid of the
    resource object it maps to, below the counter of uids, each of
    [_new_job_resource_file], [_new_python_result], [_new_resource_group],
    [_new_input_resource_file] and [read_input_group] leaves such a
    registry, whether it returns or raises, and every entry the registry
    had is still there: no registration is removed or overwritten. *)
Theorem resource_factories_keep_registry `{Externals} `{InputExternals}
    (source : option job_ref) (value root : option string)
    (mappings : list (string * PyValue)) (path : string)
    (kwargs : list (string * string)) (w : World) (r : Result res_ref)
    (w' : World) :
  registry_wf w →
  Batch._new_job_resource_file source value w = Some (r, w') ∨
  Batch._new_python_result source value w = Some (r, w') ∨
  Batch._new_resource_group source mappings root w = Some (r, w') ∨
  BatchInputs._new_input_resource_file path root w = Some (r, w') ∨
  BatchInputs.read_input_group kwargs w = Some (r, w') →
  registry_wf w' ∧
  ∀ k x, _resource_map (self w) !! k = Some x →
         _resource_map (self w') !! k = Some x.
Proof.
  intros Hwf Hcall.
  assert (Hext : extends w w').
  { destruct Hcall as [Hcall|[Hcall|[Hcall|[Hcall|Hcall]]]].
    - by eapply extends_new_job_resource_file.
    - by eapply extends_new_python_result.
    - by eapply extends_new_resource_group.
    - by eapply extends_new_input_resource_file.
    - by eapply extends_read_input_group. }
  destruct (Hext Hwf) as [Hwf' Hsub]. split; [done|].
  intros k x Hk. by eapply lookup_weaken.
Qed.

Lemma registry_world_wf : registry_wf registry_world.
Proof.
  intros k r Hk. simpl in Hk.
  apply lookup_insert_Some in Hk as [[<- <-]|[_ Hk]].
  - split; [simpl; lia|]. by eexists.
  - apply lookup_singleton_Some in Hk as [<- <-].
    split; [simpl; lia|]. by eexists.
Qed.

(** X14 at [_new_python_result] in [registry_world]. *)
Lemma resource_factories_keep_registry_witness :
  ∃ r w',
    Batch._new_python_result (Some 1) None registry_world = Some (Ok r, w') ∧
    registry_wf w' ∧
    ∀ k x, _resource_map (self registry_world) !! k = Some x →
           _resource_map (self w') !! k = Some x.
Proof.
  eexists _, _. split; [vm_compute; reflexivity|].
  apply (resource_factories_keep_registry (H := example_externals)
           (H0 := example_input_externals) (Some 1) None None [] "" []
           registry_world (Ok (fresh (dom (resource_store registry_world)))));
    [apply registry_world_wf|].
  right. left. vm_compute. reflexivity.
Defined.

(** ** More on [write_output] *)

Lemma guard_cases rc jc r o w :
  let t := (if decide (resource.cls o = rc)
            then Batch.unmentioned_source jc r o else mret None) w in
  t = None ∨ (∃ jo, t = Some (Ok (Some jo), w)) ∨
  (t = Some (Ok None, w) ∧
   ∀ j jo, resource._source o = Some j → job_store w !! j = Some jo →
           resource.cls o = rc → job.cls jo = jc → r ∈ job._mentioned jo).
Proof.
  simpl. destruct (decide (resource.cls o = rc)) as [Hrc|Hrc];
    [|right; right; by split].
  unfold Batch.unmentioned_source.
  destruct (resource._source o) as [j|] eqn:Hj; [|right; right; by split].
  destruct (job_store w !! j) as [jo|] eqn:Hjo; [|by left].
  destruct (decide (job.cls jo = jc)) as [Hjc|Hjc].
  - destruct (decide (r ∈ job._mentioned jo)).
    + right; right. split; [done|]. intros j' jo' ? ? ? ?. by simplify_eq.
    + right; left. eauto.
  - right; right. split; [done|]. intros j' jo' ? ? ? ?. by simplify_eq.
Qed.

Lemma write_output_cases `{Externals} arg dest w res w' :
  Batch.write_output arg dest w = Some (res, w') →
  (w' = w ∧ ∃ e, res = Raise e) ∨
  ∃ r o, arg = PyResource r ∧ resource_store w !! r = Some o ∧ res = Ok tt ∧
         (∀ j jo, resource._source o = Some j → job_store w !! j = Some jo →
                  checked o jo → r ∈ job._mentioned jo) ∧
         _add_output_path r (recorded_dest (_backend (self w)) dest) w =
           Some (Ok tt, w').
Proof.
  destruct arg as [r|v]; [|intros [= <- <-]; left; eauto].
  destruct (resource_store w !! r) as [o|] eqn:Ho;
    [|unfold Batch.write_output, mbind, M_bind, get; by rewrite Ho].
  rewrite (write_output_unfold r o dest w Ho).
  destruct (guard_cases resource.JobResourceFile job.BashJob r o w)
    as [->|[[jo ->]|[-> Hbash]]]; [done| |].
  { destruct (raise_undefined_raises jo r Batch.bash_hint w) as [e ->].
    intros [= <- <-]. left. eauto. }
  destruct (guard_cases resource.PythonResult job.PythonJob r o w)
    as [->|[[jo ->]|[-> Hpy]]]; [done| |].
  { destruct (raise_undefined_raises jo r Batch.python_hint w) as [e ->].
    intros [= <- <-]. left. eauto. }
  intros Hadd. right. exists r, o.
  destruct res as [[]|e]; [|by apply add_output_path_never_raises in Hadd].
  split_and!; [done..| |done].
  intros j jo Hj Hjo [[? ?]|[? ?]]; eauto.
Qed.

(** The converse: a resource that passes the checks reaches
    [_add_output_path]. *)
Lemma write_output_passes `{Externals} r o dest w :
  resource_store w !! r = Some o →
  (∀ j, resource._source o = Some j → is_Some (job_store w !! j)) →
  (∀ j jo, resource._source o = Some j → job_store w !! j = Some jo →
           checked o jo → r ∈ job._mentioned jo) →
  Batch.write_output (PyResource r) dest w =
    _add_output_path r (recorded_dest (_backend (self w)) dest) w.
Proof.
  intros Ho Hsrc Hok. rewrite (write_output_unfold r o dest w Ho).
  assert (Hguard : ∀ rc jc,
    (rc = resource.JobResourceFile ∧ jc = job.BashJob) ∨
    (rc = resource.PythonResult ∧ jc = job.PythonJob) →
    (if decide (resource.cls o = rc)
     then Batch.unmentioned_source jc r o else mret None) w = Some (Ok None, w)).
  { intros rc jc Hpair. destruct (decide (resource.cls o = rc)) as [Hrc|]; [|done].
    unfold Batch.unmentioned_source.
    destruct (resource._source o) as [j|] eqn:Hj; [|done].
    destruct (Hsrc j eq_refl) as [jo Hjo]. rewrite Hjo.
    destruct (decide (job.cls jo = jc)) as [Hjc|]; [|done].
    rewrite decide_True; [done|].
    apply (Hok j jo eq_refl Hjo). unfold checked.
    destruct Hpair as [[-> ->]|[-> ->]]; eauto. }
  rewrite !Hguard by eauto. done.
Qed.

(** X15.  [write_output] accepts a file or a result whose producing job
    has mentioned it, and also one for which it does not look at the
    mentioned set: a job resource file of a Python job, a Python result of
    a bash job, an input file.  It then returns and appends to the
    destinations of the resource the absolute user-expanded path when the
    backend is local and the destination has no scheme, and the
    destination itself otherwise. *)
Theorem write_output_accepts `{Externals} (w : World) (r : res_ref)
    (o : resource.Resource) (j : job_ref) (jo : job.Job) (dest : string) :
  resource_store w !! r = Some o →
  resource.cls o ≠ resource.ResourceGroup →
  resource._source o = Some j →
  job_store w !! j = Some jo →
  (checked o jo → r ∈ job._mentioned jo) →
  ∃ w',
    Batch.write_output (PyResource r) dest w = Some (Ok tt, w') ∧
    output_paths w' r =
      Some (resource._output_paths o ++
            [recorded_dest (_backend (self w)) dest]).
Proof.
  intros Ho Hcls Hj Hjo Hok.
  rewrite (write_output_passes r o dest w Ho).
  - by apply add_output_path_file_paths.
  - intros j' Hj'. simplify_eq. eauto.
  - intros j' jo' Hj' Hjo'. by simplify_eq.
Qed.

(** X15 at [mentioned_world]: the mentioned file 5 of the bash job 1, and
    the file 9 of the Python job 2, which has mentioned nothing. *)
Lemma write_output_accepts_witness :
  (∃ w', Batch.write_output (H := example_externals) (PyResource 5)
           "gs://bucket/out" mentioned_world = Some (Ok tt, w') ∧
         output_paths w' 5 = Some ["gs://bucket/out"]) ∧
  (∃ w', Batch.write_output (H := example_externals) (PyResource 9) "out"
           mentioned_world = Some (Ok tt, w') ∧
         output_paths w' 9 = Some ["/home/user/out"]).
Proof.
  split.
  - apply (write_output_accepts (H := example_externals) mentioned_world 5
             (example_resource resource.JobResourceFile 1 (Some 1) []) 1
             (job.mk job.BashJob "token" None ∅ None None None None None
                None None None [] {[5]} {[5 := "ofile"]} None)
             "gs://bucket/out"); [done..|]. intros _. set_solver.
  - apply (write_output_accepts (H := example_externals) mentioned_world 9
             (example_resource resource.JobResourceFile 4 (Some 2) []) 2
             (example_job job.PythonJob []) "out"); [done..|].
    by intros [[_ ?]|[? _]].
Defined.

Lemma group_paths_other dest ms : ∀ s x,
  x ∉ ms.*2 →
  foldl (λ s (m : string * res_ref),
           add_output_path_file m.2 (dest +:+ "." +:+ m.1) s) s ms !! x
    = s !! x.
Proof.
  induction ms as [|[n m] ms IH]; intros s x Hx; [done|].
  simpl in *. apply not_elem_of_cons in Hx as [Hne Hx].
  rewrite IH by done. unfold add_output_path_file.
  by rewrite lookup_alter_ne.
Qed.

Lemma group_paths_member dest ms : ∀ s n x,
  NoDup ms.*2 → (n, x) ∈ ms →
  foldl (λ s (m : string * res_ref),
           add_output_path_file m.2 (dest +:+ "." +:+ m.1) s) s ms !! x
    = resource.add_path (dest +:+ "." +:+ n) <$> s !! x.
Proof.
  induction ms as [|[n' m] ms IH]; intros s n x Hnd Hin.
  - by apply elem_of_nil in Hin.
  - simpl in *. apply NoDup_cons in Hnd as [Hm Hnd].
    apply elem_of_cons in Hin as [[= <- <-]|Hin].
    + rewrite group_paths_other by done. unfold add_output_path_file.
      by rewrite lookup_alter_eq.
    + rewrite (IH _ n x Hnd Hin). unfold add_output_path_file.
      rewrite lookup_alter_ne; [done|].
      intros ->. apply Hm. apply list_elem_of_fmap. by exists (n, x).
Qed.

Lemma paths_added_refl o : paths_added o o.
Proof. by exists []. Qed.

Lemma paths_added_trans o1 o2 o3 :
  paths_added o1 o2 → paths_added o2 o3 → paths_added o1 o3.
Proof.
  intros [a1 ->] [a2 ->]. exists (a1 ++ a2). by rewrite foldl_app.
Qed.

Lemma paths_added_lookup_trans (s1 s2 s3 : gmap nat resource.Resource) x :
  option_Forall2 paths_added (s1 !! x) (s2 !! x) →
  option_Forall2 paths_added (s2 !! x) (s3 !! x) →
  option_Forall2 paths_added (s1 !! x) (s3 !! x).
Proof.
  intros H12 H23. destruct H12; inversion H23; subst; constructor.
  by eapply paths_added_trans.
Qed.

Lemma file_paths_added r d (s : gmap nat resource.Resource) x :
  option_Forall2 paths_added (s !! x) (add_output_path_file r d s !! x).
Proof.
  unfold add_output_path_file. destruct (decide (r = x)) as [->|Hne].
  - rewrite lookup_alter_eq. destruct (s !! x); constructor. by exists [d].
  - rewrite lookup_alter_ne by done.
    destruct (s !! x); constructor. apply paths_added_refl.
Qed.

Lemma group_paths_added dest ms : ∀ s x,
  option_Forall2 paths_added (s !! x)
    (foldl (λ s (m : string * res_ref),
              add_output_path_file m.2 (dest +:+ "." +:+ m.1) s) s ms !! x).
Proof.
  induction ms as [|[n m] ms IH]; intros s x.
  - simpl. destruct (s !! x); constructor. apply paths_added_refl.
  - simpl. eapply paths_added_lookup_trans; [|apply IH].
    apply file_paths_added.
Qed.

(** X16.  On a resource group, whatever its producing job has mentioned,
    [write_output] returns and appends [dest.name] to the destinations of
    the member called [name], for every member; no object that is not a
    member is touched, and the jobs are not read. *)
Theorem write_output_group `{Externals} (w : World) (g : res_ref)
    (og : resource.Resource) (dest : string) :
  resource_store w !! g = Some og →
  resource.cls og = resource.ResourceGroup →
  NoDup (resource._resources og).*2 →
  ∃ w',
    Batch.write_output (PyResource g) dest w = Some (Ok tt, w') ∧
    (∀ name m, (name, m) ∈ resource._resources og →
       output_paths w' m =
         (λ paths, paths ++ [recorded_dest (_backend (self w)) dest +:+ "."
                             +:+ name]) <$> output_paths w m) ∧
    (∀ x, x ∉ (resource._resources og).*2 →
          resource_store w' !! x = resource_store w !! x).
Proof.
  intros Hg Hcls Hnd.
  rewrite (write_output_unfold g og dest w Hg).
  rewrite !decide_False by by rewrite Hcls.
  unfold mret, M_ret, _add_output_path. rewrite Hg, Hcls.
  eexists. split; [reflexivity|]. split.
  - intros name m Hin. unfold output_paths. simpl.
    rewrite (group_paths_member _ _ _ name m Hnd Hin).
    by destruct (resource_store w !! m).
  - intros x Hx. simpl. by apply group_paths_other.
Qed.

(** X16 at the group 7 of [output_world], whose member [bed] is the
    file 8. *)
Lemma write_output_group_witness :
  ∃ w',
    Batch.write_output (H := example_externals) (PyResource 7) "gs://b/out"
      output_world = Some (Ok tt, w') ∧
    output_paths w' 8 = Some ["gs://b/out.bed"] ∧
    resource_store w' !! 5 = resource_store output_world !! 5.
Proof.
  destruct (write_output_group (H := example_externals) output_world 7
              (example_resource resource.ResourceGroup 3 (Some 1) [("bed", 8)])
              "gs://b/out")
    as (w' & Hcall & Hmem & Hother);
    [done|done|apply NoDup_singleton|].
  exists w'. split_and!; [done| |].
  - by rewrite (Hmem "bed" 8) by set_solver.
  - apply Hother. set_solver.
Defined.

(** X17.  Whatever its argument and whether it returns or raises,
    [write_output] leaves the Batch object, the jobs, the counter of uids
    and the random source as they were and does not call the backend; no
    resource object appears or disappears, and each is as before except
    that destinations may have been appended to those it had. *)
Theorem write_output_frame `{Externals} (arg : Argument) (dest : string)
    (w : World) (res : Result unit) (w' : World) :
  Batch.write_output arg dest w = Some (res, w') →
  self w' = self w ∧ job_store w' = job_store w ∧
  Resource_counter w' = Resource_counter w ∧ draws w' = draws w ∧
  backend_calls w' = backend_calls w ∧ fs_closed w' = fs_closed w ∧
  ∀ x, option_Forall2 paths_added (resource_store w !! x)
         (resource_store w' !! x).
Proof.
  intros Hcall.
  destruct (write_output_cases _ _ _ _ _ Hcall)
    as [[-> _]|(r & o & _ & Ho & _ & _ & Hadd)].
  { split_and!; try done. intros x.
    destruct (resource_store w !! x); constructor. apply paths_added_refl. }
  unfold _add_output_path in Hadd. rewrite Ho in Hadd.
  destruct (resource.cls o); simplify_eq; simpl;
    (split_and!; [done..|]); intros x; try apply file_paths_added.
  apply group_paths_added.
Qed.

(** X17 at the group 7 of [output_world]. *)
Lemma write_output_frame_witness :
  ∃ w',
    Batch.write_output (H := example_externals) (PyResource 7) "out"
      output_world = Some (Ok tt, w') ∧
    self w' = self output_world ∧ job_store w' = job_store output_world ∧
    backend_calls w' = backend_calls output_world ∧
    ∀ x, option_Forall2 paths_added (resource_store output_world !! x)
           (resource_store w' !! x).
Proof.
  eexists. split; [vm_compute; reflexivity|].
  destruct (write_output_frame (H := example_externals) (PyResource 7) "out"
              output_world (Ok tt) _ eq_refl)
    as (? & ? & _ & _ & ? & _ & ?).
  by split_and!.
Defined.

(** ** [select_jobs] *)

Lemma select_loop_spec `{Regex} h pattern jobs :
  (∀ j, j ∈ jobs → is_Some (h !! j)) →
  (∀ n, ∃ b, re_match pattern n = Ok b) →
  ∃ selected,
    select_loop h pattern jobs = Some (Ok selected) ∧
    selected `sublist_of` jobs ∧
    ∀ j, j ∈ selected ↔
         j ∈ jobs ∧ ∃ o n, h !! j = Some o ∧ job.name o = Some n ∧
                           re_match pattern n = Ok true.
Proof.
  intros Hall Hvalid. induction jobs as [|j jobs IH].
  - exists []. split_and!; [done|done|]. intros j. set_solver.
  - destruct IH as (selected & Heq & Hsub & Hiff).
    { intros j' Hj'. apply Hall. by right. }
    destruct (Hall j) as [o Ho]; [by left|].
    simpl. rewrite Ho, Heq.
    destruct (job.name o) as [n|] eqn:Hn.
    + destruct (Hvalid n) as [b Hb]. rewrite Hb. destruct b.
      * exists (j :: selected). split_and!; [done|by constructor|].
        intros j'. rewrite !elem_of_cons, Hiff. split.
        -- intros [->|[? ?]]; [|by eauto]. split; [by left|]. by exists o, n.
        -- intros [[->|?] ?]; eauto.
      * exists selected. split_and!; [done|by constructor|].
        intros j'. rewrite elem_of_cons, Hiff. split; [intros [? ?]; by eauto|].
        intros [[->|?] Hm]; [|done].
        destruct Hm as (o' & n' & ? & ? & ?). simplify_eq. congruence.
    + exists selected. split_and!; [done|by constructor|].
      intros j'. rewrite elem_of_cons, Hiff. split; [intros [? ?]; by eauto|].
      intros [[->|?] Hm]; [|done].
      destruct Hm as (o' & n' & ? & ? & ?). simplify_eq.
Qed.

(** X18.  When the jobs of the Batch exist and [re.match] answers for the
    pattern, [select_jobs] returns, in the order of the job list and
    without changing anything, the jobs of the Batch that have a name
    matched by the pattern; jobs without a name are never selected. *)
Theorem select_jobs_spec `{Regex} (pattern : string) (w : World) :
  allocated w →
  (∀ n, ∃ b, re_match pattern n = Ok b) →
  ∃ selected,
    select_jobs pattern w = Some (Ok selected, w) ∧
    selected `sublist_of` _jobs (self w) ∧
    ∀ j, j ∈ selected ↔ j ∈ _jobs (self w) ∧ name_matches w pattern j.
Proof.
  intros Hall Hvalid.
  destruct (select_loop_spec (job_store w) pattern (_jobs (self w)) Hall Hvalid)
    as (selected & Heq & Hsub & Hiff).
  exists selected. unfold select_jobs. rewrite Heq. by split_and!.
Qed.

Lemma named_world_allocated : allocated named_world.
Proof.
  intros j Hj. simpl in Hj.
  repeat (apply elem_of_cons in Hj as [->|Hj]; [vm_compute; eauto|]).
  by apply elem_of_nil in Hj.
Qed.

(** X18 at [named_world] and the pattern [qc]. *)
Lemma select_jobs_spec_witness :
  ∃ selected,
    select_jobs (H := example_regex) "qc" named_world
      = Some (Ok selected, named_world) ∧
    selected `sublist_of` [4; 1; 3; 2] ∧
    (4 ∈ selected ↔
       4 ∈ _jobs (self named_world) ∧
       name_matches (H := example_regex) named_world "qc" 4).
Proof.
  destruct (select_jobs_spec (H := example_regex) "qc" named_world)
    as (selected & ? & ? & Hiff);
    [apply named_world_allocated|by eexists|].
  exists selected. split_and!; [done|done|apply Hiff].
Defined.

(** X19.  In a Batch whose jobs have no name, [select_jobs] returns the
    empty list for every pattern and never calls [re.match]: a pattern that
    does not compile goes unnoticed. *)
Theorem select_jobs_unnamed `{Regex} (pattern : string) (w : World) :
  allocated w → unnamed w →
  select_jobs pattern w = Some (Ok [], w).
Proof.
  intros Hall Hun. unfold select_jobs.
  assert (Hloop : ∀ jobs, jobs ⊆ _jobs (self w) →
                          select_loop (job_store w) pattern jobs = Some (Ok [])).
  { induction jobs as [|j jobs IH]; intros Hsub; [done|].
    destruct (Hall j) as [o Ho]; [set_solver|].
    simpl. rewrite Ho, (Hun j o) by (done || set_solver).
    apply IH. set_solver. }
  by rewrite Hloop.
Qed.

(** X19 at a Batch with two unnamed jobs and the pattern [(]. *)
Lemma select_jobs_unnamed_witness :
  select_jobs (H := example_regex) "(" chain_world = Some (Ok [], chain_world) ∧
  re_match (Regex := example_regex) "(" "qc" = Raise (OtherError "re.error").
Proof.
  split; [|done].
  apply (select_jobs_unnamed (H := example_regex) "(" chain_world).
  - intros j Hj. simpl in Hj.
    repeat (apply elem_of_cons in Hj as [->|Hj]; [vm_compute; eauto|]).
    by apply elem_of_nil in Hj.
  - intros j o Hj Ho. simpl in Hj.
    repeat (apply elem_of_cons in Hj as [->|Hj];
            [vm_compute in Ho; by simplify_eq|]).
    by apply elem_of_nil in Hj.
Defined.

(** ** More on the file systems *)

Lemma last_char_slash s : last_char (s +:+ "/") = Some "/"%char.
Proof.
  induction s as [|c s IH]; [done|].
  simpl. rewrite IH. by destruct (s +:+ "/").
Qed.

Lemma last_char_None s : last_char s = None → s = "".
Proof.
  induction s as [|c s IH]; [done|]. simpl.
  destruct s; [done|]. intros Hs. by specialize (IH Hs).
Qed.

(** X20.  In every file system and for every path and mode,
    [LocalFS.open] first calls the built-in [open] with its own arguments,
    and calls it at most twice; it calls [os.makedirs] at most once, on the
    directory name of the path, and exactly when the mode contains [w] and
    the first [open] raised [FileNotFoundError]; it opens a second time
    exactly when that [os.makedirs] returned.  If the first [open] fails
    otherwise, or [os.makedirs] fails, that exception is the outcome. *)
Theorem local_open_calls `{OperatingSystem OS Handle} (path mode : string)
    (buffer_size : Z) (s : OS) :
  ∃ r s' calls,
    LocalFS.open path mode buffer_size s = (r, s', calls) ∧
    (calls = [SysOpen path mode buffer_size] ∨
     calls = [SysOpen path mode buffer_size;
              SysMakedirs (os_path_dirname path)] ∨
     calls = [SysOpen path mode buffer_size;
              SysMakedirs (os_path_dirname path);
              SysOpen path mode buffer_size]) ∧
    (SysMakedirs (os_path_dirname path) ∈ calls ↔
     contains_char "w" mode = true ∧
     ∃ a, (builtin_open path mode buffer_size s).1 =
            Raise (FileNotFoundError a)) ∧
    (calls = [SysOpen path mode buffer_size] →
     (r, s') = builtin_open path mode buffer_size s) ∧
    (calls = [SysOpen path mode buffer_size;
              SysMakedirs (os_path_dirname path)] →
     ∃ e, r = Raise e ∧
          (os_makedirs (os_path_dirname path)
             (builtin_open path mode buffer_size s).2).1 = Raise e) ∧
    (calls = [SysOpen path mode buffer_size;
              SysMakedirs (os_path_dirname path);
              SysOpen path mode buffer_size] →
     ∃ s2, os_makedirs (os_path_dirname path)
             (builtin_open path mode buffer_size s).2 = (Ok tt, s2) ∧
           (r, s') = builtin_open path mode buffer_size s2).
Proof.
  unfold LocalFS.open.
  destruct (builtin_open path mode buffer_size s) as [r1 s1] eqn:Hopen.
  assert (Hone : ¬ (contains_char "w" mode = true ∧
                    ∃ a, r1 = Raise (FileNotFoundError a)) →
    ∃ r s' calls,
      (r1, s1, [SysOpen path mode buffer_size]) = (r, s', calls) ∧
      (calls = [SysOpen path mode buffer_size] ∨
       calls = [SysOpen path mode buffer_size;
                SysMakedirs (os_path_dirname path)] ∨
       calls = [SysOpen path mode buffer_size;
                SysMakedirs (os_path_dirname path);
                SysOpen path mode buffer_size]) ∧
      (SysMakedirs (os_path_dirname path) ∈ calls ↔
       contains_char "w" mode = true ∧ ∃ a, r1 = Raise (FileNotFoundError a)) ∧
      (calls = [SysOpen path mode buffer_size] → (r, s') = (r1, s1)) ∧
      (calls = [SysOpen path mode buffer_size;
                SysMakedirs (os_path_dirname path)] →
       ∃ e, r = Raise e ∧
            (os_makedirs (os_path_dirname path) s1).1 = Raise e) ∧
      (calls = [SysOpen path mode buffer_size;
                SysMakedirs (os_path_dirname path);
                SysOpen path mode buffer_size] →
       ∃ s2, os_makedirs (os_path_dirname path) s1 = (Ok tt, s2) ∧
             (r, s') = builtin_open path mode buffer_size s2)).
  { intros Hno. eexists _, _, _. split; [reflexivity|].
    split_and!; [by left| |done|done|done].
    split; [|done]. intros Hin. set_solver. }
  destruct (contains_char "w" mode) eqn:Hw; [|apply Hone; by intros [? _]].
  destruct r1 as [h|e]; [apply Hone; by intros [_ [? ?]]|].
  destruct e as [| | | |a|]; try (apply Hone; by intros [_ [? ?]]).
  destruct (os_makedirs (os_path_dirname path) s1) as [[[]|e] s2] eqn:Hmk.
  - destruct (builtin_open path mode buffer_size s2) as [r3 s3] eqn:Hopen2.
    eexists _, _, _. split; [reflexivity|].
    split_and!; [by (right; right)| |done|done|].
    + split; [by eauto|]. intros _. set_solver.
    + intros _. by exists s2.
  - eexists _, _, _. split; [reflexivity|].
    split_and!; [by (right; left)| |done| |done].
    + split; [by eauto|]. intros _. set_solver.
    + intros _. exists e. simpl. by rewrite Hmk.
Qed.

(** X21.  When [stat] returns, [is_dir] answers for the same path, and the
    result has the type [DIRECTORY] exactly when [is_dir] answers true; it
    carries the path as given, no owner and no modification time, and the
    size of the file status, or 0 when there is no file status. *)
Theorem stat_agrees_with_is_dir `{AsyncFS} `{AsyncFiles} (path : string)
    (st : stat_result.StatResult) :
  RouterFS.stat path = Ok st →
  (∃ d, RouterFS_probes.is_dir path = Ok d ∧
        (d = true ↔ stat_result.typ st = stat_result.DIRECTORY)) ∧
  stat_result.path st = path ∧
  stat_result.owner st = None ∧
  stat_result.modification_time st = None ∧
  (afs_statfile_size path = Ok (stat_result.size st) ∨
   stat_result.size st = 0%Z ∧
   stat_result.typ st = stat_result.DIRECTORY ∧
   ∃ a, afs_statfile_size path = Raise (FileNotFoundError a)).
Proof.
  unfold RouterFS.stat, RouterFS_probes.is_dir, RouterFS.size_bytes_or_none.
  destruct (afs_statfile_size path) as [n|e] eqn:Hsize.
  - destruct (RouterFS._async_is_dir path) as [d|e]; [|done].
    intros [= <-]. split_and!; try done; [|by left].
    exists d. split; [done|]. by destruct d.
  - destruct (RouterFS._async_is_dir path) as [d|e'].
    + destruct e; try done. destruct d; [|done].
      intros [= <-]. split_and!; try done; [by exists true|]. right. eauto.
    + destruct e; try done; by destruct (stat_isdir_fails_first path).
Qed.

(** X21 at the directory [data] of [example_afs]. *)
Lemma stat_agrees_with_is_dir_witness :
  RouterFS_probes.is_dir (H := example_afs) "data" = Ok true ∧
  RouterFS.stat (H := example_afs) "data" =
    Ok (stat_result.mk "data" 0 stat_result.DIRECTORY None None).
Proof.
  split; [|reflexivity].
  destruct (stat_agrees_with_is_dir (H := example_afs) (H0 := example_files)
              "data" (stat_result.mk "data" 0 stat_result.DIRECTORY None None)
              eq_refl) as [(d & -> & Hd) _].
  f_equal. by apply Hd.
Defined.

(** X22.  On a path that is not empty, [is_dir] asks the file system
    about a path that ends with a slash: the path itself when it ends with
    one, and the path with a slash appended otherwise.  So a path without
    final slash and the same path with one get the same answer. *)
Theorem is_dir_probes_with_slash `{AsyncFS} (path : string) :
  path ≠ "" →
  (∃ probe, RouterFS_probes.is_dir path = afs_isdir probe ∧
            last_char probe = Some "/"%char ∧
            (probe = path ∨ probe = path +:+ "/")) ∧
  (last_char path ≠ Some "/"%char →
   RouterFS_probes.is_dir (path +:+ "/") = RouterFS_probes.is_dir path).
Proof.
  intros Hne. unfold RouterFS_probes.is_dir, RouterFS._async_is_dir.
  rewrite last_char_slash. rewrite (decide_False (P := "/"%char ≠ "/"%char)) by auto.
  destruct (last_char path) as [c|] eqn:Hlast.
  - destruct (decide (c ≠ "/"%char)) as [Hc|Hc].
    + split; [|done]. exists (path +:+ "/").
      split_and!; [done|apply last_char_slash|by right].
    + apply dec_stable in Hc as ->. split; [|done].
      exists path. split_and!; [done|done|by left].
  - by apply last_char_None in Hlast.
Qed.

(** X22 at the directory [data] of [example_afs]. *)
Lemma is_dir_probes_with_slash_witness :
  RouterFS_probes.is_dir (H := example_afs) "data/" =
    RouterFS_probes.is_dir (H := example_afs) "data" ∧
  RouterFS_probes.is_dir (H := example_afs) "data" = Ok true.
Proof.
  split; [|reflexivity].
  by apply (is_dir_probes_with_slash (H := example_afs) "data").
Defined.

(** X23.  [exists] answers exactly when both [is_file] and [is_dir]
    answer for the path, and then with their disjunction; on the empty
    path it raises [IndexError] whatever the file system holds. *)
Theorem exists_is_file_or_dir `{AsyncFS} `{AsyncFiles} (path : string)
    (b : bool) :
  (RouterFS_probes.exists_ path = Ok b ↔
   ∃ f d, RouterFS_probes.is_file path = Ok f ∧
          RouterFS_probes.is_dir path = Ok d ∧ b = f || d) ∧
  RouterFS_probes.exists_ "" = Raise IndexError.
Proof.
  split; [|done].
  unfold RouterFS_probes.exists_, RouterFS_probes.is_file,
    RouterFS_probes.is_dir, RouterFS._async_is_dir.
  destruct (last_char path) as [c|].
  - destruct (afs_isfile path) as [f|e];
      destruct (afs_isdir (if decide (c ≠ "/"%char) then path +:+ "/" else path))
        as [d|e'] eqn:Hd;
      (destruct (decide (c ≠ "/"%char)); rewrite Hd);
      try destruct (exists_isdir_fails_first path);
      (split; [intros [= <-]; by eauto|intros (f' & d' & ? & ? & ->)]);
      by simplify_eq.
  - split; [done|]. by intros (f & d & _ & ? & _).
Qed.

(** X24.  [RouterFS.open] raises [ValueError] for every mode other than
    [r], [rb], [w] and [wb].  When it returns, the stream is named by the
    path; it is a readable stream over what [afs.open] returned when the
    mode has no [w], the test of [LocalFS.open], and a writable stream over
    what [afs.create] returned otherwise; and it is wrapped for text, once,
    exactly when the mode has no [b].  The buffer size has no influence. *)
Theorem router_open_modes `{AsyncStreams Readable Writable}
    (path mode : string) (buffer_size buffer_size' : Z) :
  RouterFS_open.open path mode buffer_size =
    RouterFS_open.open path mode buffer_size' ∧
  (mode ∉ ["r"; "rb"; "w"; "wb"] →
   RouterFS_open.open path mode buffer_size = Raise (OtherError "ValueError")) ∧
  ∀ strm, RouterFS_open.open path mode buffer_size = Ok strm →
    (if contains_char "w" mode
     then ∃ aws, afs_create path = Ok aws ∧
                 raw_stream strm = SyncWritableStream aws path
     else ∃ ars, afs_open path = Ok ars ∧
                 raw_stream strm = SyncReadableStream ars path) ∧
    (if contains_char "b" mode then strm = raw_stream strm
     else strm = TextIOWrapper (raw_stream strm)).
Proof.
  split; [done|]. unfold RouterFS_open.open. split.
  - intros Hmode. by rewrite decide_False.
  - intros strm. destruct (decide (mode ∈ ["r"; "rb"; "w"; "wb"])) as [Hin|]; [|done].
    repeat (apply elem_of_cons in Hin as [->|Hin]);
      [| | | |by apply elem_of_nil in Hin]; simpl;
      [destruct (afs_open path)|destruct (afs_open path)|
       destruct (afs_create path)|destruct (afs_create path)];
      intros [= <-]; simpl; eauto.
Qed.

(** ** [run] *)

(** *** The backend at work *)

Lemma served_refl w : served w w.
Proof. split; try done. Qed.

Lemma served_trans w1 w2 w3 : served w1 w2 → served w2 w3 → served w1 w3.
Proof.
  intros [Hj1 Hl1 Ht1 Hb1 Hp1 Hc1 Hf1 Hr1 He1 Hd1 Hn1 Hk1 Hq1]
         [Hj2 Hl2 Ht2 Hb2 Hp2 Hc2 Hf2 Hr2 He2 Hd2 Hn2 Hk2 Hq2].
  split; try congruence; try lia; eauto.
  - by eapply extends_trans.
  - intros Hp. rewrite Hq2 by congruence. eauto.
Qed.

Lemma fs_served `{InputExternals} `{RunExternals} w :
  ∃ w1, BatchRun._fs w = Some (Ok tt, w1) ∧ served w w1.
Proof.
  eexists. split; [reflexivity|].
  destruct (_DEPRECATED_project (self w)) as [p|] eqn:Hp;
    split; simpl; rewrite ?Hp; simpl; try done;
    by apply extends_same; simpl; rewrite ?Hp.
Qed.

Lemma read_input_served `{InputExternals} path w :
  ∃ r w1, BatchInputs.read_input path w = Some (r, w1) ∧ served w w1.
Proof.
  unfold BatchInputs.read_input.
  destruct (input_file_name (_backend (self w)) path) as [fname|e] eqn:Hname.
  - pose proof (extends_new_input_resource_file path None w) as Hext.
    rewrite (new_input_resource_file_eq _ _ _ _ Hname) in *. simpl in *.
    eexists _, _. split; [reflexivity|].
    split; simpl; try done; try lia.
    + intros x o Hx.
      rewrite lookup_insert_ne by (symmetry; by eapply fresh_not_allocated).
      done.
    + by eapply Hext.
  - rewrite (new_input_resource_file_raise _ _ _ _ Hname).
    eexists _, _. split; [reflexivity|apply served_refl].
Qed.

Lemma serve_served `{InputExternals} `{RunExternals} conduct : ∀ w,
  ∃ r w', BatchRun.serve conduct w = Some (r, w') ∧ served w w'.
Proof.
  induction conduct as [outcome|next IH|path next IH]; intros w.
  - eexists _, _. split; [reflexivity|apply served_refl].
  - destruct (fs_served w) as (w1 & Hfs & Hs1).
    destruct (IH w1) as (r & w' & Hserve & Hs).
    exists r, w'. split; [|by eapply served_trans].
    change (match BatchRun._fs w with
            | Some (_, w2) => BatchRun.serve next w2
            | None => None
            end = Some (r, w')).
    by rewrite Hfs.
  - destruct (read_input_served path w) as (r1 & w1 & Hread & Hs1).
    destruct (IH r1 w1) as (r & w' & Hserve & Hs).
    exists r, w'. split; [|by eapply served_trans].
    change (match BatchInputs.read_input path w with
            | Some (r2, w2) => BatchRun.serve (next r2) w2
            | None => None
            end = Some (r, w')).
    by rewrite Hread.
Qed.

(** The call of the backend: the invocation is logged, and the backend
    leaves the Batch served. *)
Lemma call_backend_served `{InputExternals} `{RunExternals} dry verbose del
    kwargs w :
  ∃ r1 w1,
    BatchRun.call_backend dry verbose del kwargs w = Some (r1, w1) ∧
    served
      (logged (mkBackendCall (_jobs (self w)) dry verbose del kwargs) w) w1.
Proof. apply serve_served. Qed.

(** Lines 705-710 by cases: the backend raises; it returns and the Batch
    holds no file system; it returns and the file system closes, or fails
    to close. *)
Lemma delegate_cases `{InputExternals} `{RunExternals} dry verbose del
    kwargs w :
  ∃ r1 w1,
    BatchRun.call_backend dry verbose del kwargs w = Some (r1, w1) ∧
    served
      (logged (mkBackendCall (_jobs (self w)) dry verbose del kwargs) w) w1 ∧
    ∃ r w',
      BatchRun.delegate dry verbose del kwargs w = Some (r, w') ∧
      job_store w' = job_store w1 ∧ resource_store w' = resource_store w1 ∧
      with_DEPRECATED_fs false (self w') = with_DEPRECATED_fs false (self w1) ∧
      Resource_counter w' = Resource_counter w1 ∧ draws w' = draws w1 ∧
      backend_calls w' = backend_calls w1 ∧
      match r1 with
      | Raise e => r = Raise e ∧ w' = w1
      | Ok v =>
          if _DEPRECATED_fs (self w1)
          then fs_closed w' = S (fs_closed w1) ∧
               match DEPRECATED_fs_close with
               | Ok _ => r = Ok v ∧ _DEPRECATED_fs (self w') = false
               | Raise e => r = Raise e ∧ _DEPRECATED_fs (self w') = true
               end
          else r = Ok v ∧ w' = w1
      end.
Proof.
  destruct (call_backend_served dry verbose del kwargs w)
    as (r1 & w1 & Hcall & Hs).
  exists r1, w1. split_and!; [done..|].
  unfold BatchRun.delegate, mbind, M_bind. rewrite Hcall.
  destruct r1 as [v|e]; [|by eexists _, _].
  unfold BatchRun.close_DEPRECATED_fs.
  destruct (_DEPRECATED_fs (self w1)) eqn:Hfs; [|by eexists _, _].
  destruct DEPRECATED_fs_close as [[]|e] eqn:Hclose; simpl;
    eexists _, _; (split; [reflexivity|]); simpl;
    split_and!; try done.
Qed.

(** What every outcome of lines 705-710 has in common. *)
Lemma delegate_jobs `{InputExternals} `{RunExternals} dry verbose del
    kwargs w :
  ∃ r w',
    BatchRun.delegate dry verbose del kwargs w = Some (r, w') ∧
    job_store w' = job_store w ∧ _jobs (self w') = _jobs (self w) ∧
    backend_calls w' = backend_calls w ++
      [mkBackendCall (_jobs (self w)) dry verbose del kwargs].
Proof.
  destruct (delegate_cases dry verbose del kwargs w)
    as (r1 & w1 & _ & Hs & r & w' & Hd & Hj & _ & Hself & _ & _ & Hc & _).
  exists r, w'.
  pose proof (served_job_store _ _ Hs) as Hs1.
  pose proof (served_jobs _ _ Hs) as Hs2.
  pose proof (served_calls _ _ Hs) as Hs3. simpl in *.
  split_and!; [done|congruence| |congruence].
  rewrite <- Hs2.
  change (_jobs (self w')) with (_jobs (with_DEPRECATED_fs false (self w'))).
  by rewrite Hself.
Qed.

Lemma run_unfold `{InputExternals} `{RunExternals} depth dry verbose del
    kwargs w :
  BatchRun.run depth dry verbose del kwargs w =
  match schedule_all (job_store w) depth (_jobs (self w)) (∅, []) with
  | Raise e => Some (Raise e, w)
  | Ok (seen, ordered_jobs) =>
      if decide (size seen = length (_jobs (self w))) then
        match assign_job_ids (job_index_of ordered_jobs) ordered_jobs
                (job_store w) with
        | (Raise e, h') => Some (Raise e, with_job_store (λ _, h') w)
        | (Ok _, h') =>
            BatchRun.delegate dry verbose del kwargs
              (with_self (with_jobs ordered_jobs)
                 (with_job_store (λ _, h') w))
        end
      else Some (Raise AssertionError, w)
  end.
Proof.
  unfold BatchRun.run, mbind, M_bind, get.
  destruct (schedule_all _ _ _ _) as [[seen ordered_jobs]|]; [|done].
  destruct (decide _) as [Hsz|Hsz]; [|done].
  unfold BatchRun.check_order.
  by destruct (assign_job_ids _ _ _) as [[[]|e0] h1].
Qed.

(** [run] always comes to an end. *)
Lemma run_total `{InputExternals} `{RunExternals} depth dry verbose del
    kwargs w :
  ∃ r w', BatchRun.run depth dry verbose del kwargs w = Some (r, w').
Proof.
  rewrite run_unfold.
  destruct (schedule_all _ _ _ _) as [[seen ord]|e0]; [|by eexists _, _].
  destruct (decide _); [|by eexists _, _].
  destruct (assign_job_ids _ _ _) as [[[]|e'] h']; [|by eexists _, _].
  destruct (delegate_jobs dry verbose del kwargs
              (with_self (with_jobs ord) (with_job_store (λ _, h') w)))
    as (r & w' & -> & _). by eexists _, _.
Qed.








(** *** A dependency chain deeper than the recursion limit *)














(** ** More on [run] *)

Lemma schedule_seen_loop h f ds st :
  (∀ p, p ∈ ds → p ∈ st.1) →
  foldl (λ acc p, acc ≫= schedule_job h (S f) p) (Ok st) ds = Ok st.
Proof.
  induction ds as [|p ds IH]; intros Hin; [done|].
  simpl. rewrite decide_True by (apply Hin; left).
  apply IH. intros q ?. apply Hin. by right.
Qed.

Lemma schedule_all_in_order h f l : ∀ pre,
  NoDup (pre ++ l) → in_dependency_order h (pre ++ l) →
  schedule_all h (S (S f)) l (list_to_set pre, pre)
    = Ok (list_to_set (pre ++ l), pre ++ l).
Proof.
  induction l as [|x l IH]; intros pre Hnd Hord.
  - by rewrite app_nil_r.
  - unfold schedule_all. simpl. rewrite decide_False; last first.
    { apply NoDup_app in Hnd as (_ & Hdisj & _). intros Hx.
      apply elem_of_list_to_set in Hx. apply (Hdisj x Hx). left. }
    assert (Hready : ∀ d, d ∈ deps h x → d ∈ (list_to_set pre : gset nat)).
    { intros d Hd. destruct (Hord (length pre) x d) as (k & Hk & Hlk); [|done|].
      - by rewrite lookup_app_r, Nat.sub_diag by lia.
      - apply elem_of_list_to_set. rewrite lookup_app_l in Hlk by done.
        by eapply list_elem_of_lookup_2. }
    rewrite (schedule_seen_loop h f (deps h x) ({[x]} ∪ list_to_set pre, pre));
      [|intros p Hp; simpl; apply elem_of_union_r; by apply Hready].
    simpl.
    replace ({[x]} ∪ list_to_set pre : gset nat) with
      (list_to_set (pre ++ [x]) : gset nat)
      by (rewrite list_to_set_app_L; set_solver).
    replace (pre ++ x :: l) with ((pre ++ [x]) ++ l) by by rewrite <- app_assoc.
    apply (IH (pre ++ [x])); by rewrite <- app_assoc.
Qed.

Lemma in_dependency_order_forward h l :
  NoDup l → in_dependency_order h l → forward (job_index_of l) h l.
Proof.
  intros Hnd Hord x [i Hi]%list_elem_of_lookup. exists (S i).
  split; [by apply job_index_of_lookup|]. intros d Hd.
  destruct (Hord i x d Hi Hd) as (k & Hk & Hlk).
  exists (S k). split; [by apply job_index_of_lookup|lia].
Qed.

Lemma assign_job_ids_frame idx js : ∀ h r h',
  assign_job_ids idx js h = (r, h') →
  ∀ x, match h !! x with
       | Some o => ∃ o', h' !! x = Some o' ∧ same_but_job_id o o'
       | None => h' !! x = None
       end.
Proof.
  induction js as [|j js IH]; intros h r h' Heq x; simpl in Heq.
  - injection Heq as <- <-. destruct (h !! x); [|done]. eexists. split; [done|by left].
  - destruct (idx !! j) as [i|].
    2:{ injection Heq as <- <-. destruct (h !! x); [|done].
        eexists. split; [done|by left]. }
    assert (Hstep : match h !! x with
                    | Some o => ∃ o', alter (job.set_job_id i) j h !! x = Some o' ∧
                                      same_but_job_id o o'
                    | None => alter (job.set_job_id i) j h !! x = None
                    end).
    { destruct (decide (j = x)) as [->|Hne].
      - rewrite lookup_alter_eq. destruct (h !! x); [|done].
        eexists. split; [done|]. right. by eexists.
      - rewrite lookup_alter_ne by done. destruct (h !! x); [|done].
        eexists. split; [done|by left]. }
    destruct (check_dependencies _ _ _) as [[]|e].
    + specialize (IH _ _ _ Heq x).
      destruct (h !! x) as [o|].
      * destruct Hstep as (o1 & Ho1 & Hs1). rewrite Ho1 in IH.
        destruct IH as (o2 & Ho2 & Hs2). exists o2. split; [done|].
        destruct Hs1 as [->|[i1 ->]]; [done|].
        destruct Hs2 as [->|[i2 ->]]; right; by eexists.
      * by rewrite Hstep in IH.
    + by injection Heq as <- <-.
Qed.

Lemma with_jobs_same b : with_jobs (_jobs b) b = b.
Proof. by destruct b. Qed.

(** [run] on a job list that is in dependency order. *)
Lemma run_in_order `{InputExternals} `{RunExternals} (w : World)
    (depth : nat) (dry_run verbose delete_scratch_on_exit : bool)
    (backend_kwargs : list (string * PyValue)) :
  NoDup (_jobs (self w)) → allocated w →
  in_dependency_order (job_store w) (_jobs (self w)) →
  2 ≤ depth →
  ∃ h' r w',
    BatchRun.run depth dry_run verbose delete_scratch_on_exit backend_kwargs w
      = Some (r, w') ∧
    BatchRun.delegate dry_run verbose delete_scratch_on_exit backend_kwargs
      (with_job_store (λ _, h') w) = Some (r, w') ∧
    _jobs (self w') = _jobs (self w) ∧
    (∀ i j, _jobs (self w) !! i = Some j → position w' j = Some (S i)) ∧
    backend_calls w' = backend_calls w ++
      [mkBackendCall (_jobs (self w)) dry_run verbose delete_scratch_on_exit
         backend_kwargs].
Proof.
  intros Hnd Halloc Hord Hdepth.
  destruct depth as [|[|f]]; [lia..|].
  pose proof (schedule_all_in_order (job_store w) f (_jobs (self w)) [] Hnd Hord) as Heq.
  simpl in Heq.
  pose proof (in_dependency_order_forward _ _ Hnd Hord) as Hfw.
  destruct (assign_job_ids_forward _ _ _ Hfw) as [h' Hassign].
  destruct (assign_job_ids_positions _ _ _ _ Hassign) as [_ Hpos].
  assert (Hposition : ∀ i j, _jobs (self w) !! i = Some j →
                              position_in h' j = Some (S i)).
  { intros i j Hi. apply Hpos; [by apply job_index_of_lookup|].
    left. split; [by eapply list_elem_of_lookup_2|].
    by eapply Halloc, list_elem_of_lookup_2. }
  assert (Hw0 : with_self (with_jobs (_jobs (self w)))
                  (with_job_store (λ _, h') w) = with_job_store (λ _, h') w).
  { unfold with_self, with_job_store. simpl. by rewrite with_jobs_same. }
  destruct (delegate_jobs dry_run verbose delete_scratch_on_exit backend_kwargs
              (with_job_store (λ _, h') w)) as (r & w' & Hrun & Hs & Hj & Hb).
  simpl in Hs, Hj, Hb.
  exists h', r, w'. unfold position. rewrite Hs.
  split_and!; try done.
  rewrite run_unfold, Heq.
  rewrite decide_True by by rewrite size_list_to_set.
  by rewrite Hassign, Hw0.
Qed.

(** X1.  When the job list of the Batch holds distinct, existing jobs and
    every dependency of a job stands earlier in the list (jobs were created
    after the jobs they depend on), [run] keeps the list exactly as it is:
    the backend gets the jobs in creation order and the job at index [i]
    has position [i + 1].  A recursion depth of two is enough, however long
    the list.  The outcome of [run] is that of the backend and of closing
    the file system, lines 705-710, on the Batch with its positions
    assigned. *)
Theorem run_keeps_dependency_order `{InputExternals} `{RunExternals}
    (w : World) (depth : nat)
    (dry_run verbose delete_scratch_on_exit : bool)
    (backend_kwargs : list (string * PyValue)) :
  NoDup (_jobs (self w)) → allocated w →
  in_dependency_order (job_store w) (_jobs (self w)) →
  2 ≤ depth →
  ∃ h' r w',
    BatchRun.run depth dry_run verbose delete_scratch_on_exit backend_kwargs w
      = Some (r, w') ∧
    BatchRun.delegate dry_run verbose delete_scratch_on_exit backend_kwargs
      (with_job_store (λ _, h') w) = Some (r, w') ∧
    _jobs (self w') = _jobs (self w) ∧
    (∀ i j, _jobs (self w) !! i = Some j → position w' j = Some (S i)) ∧
    backend_calls w' = backend_calls w ++
      [mkBackendCall (_jobs (self w)) dry_run verbose delete_scratch_on_exit
         backend_kwargs].
Proof. apply run_in_order. Qed.

Lemma ordered_world_in_order :
  in_dependency_order (job_store ordered_world) (_jobs (self ordered_world)).
Proof.
  intros i x d Hi Hd. simpl in Hi.
  destruct i as [|[|[|i]]]; simplify_eq/=; vm_compute in Hd.
  - by apply elem_of_nil in Hd.
  - apply list_elem_of_singleton in Hd as ->. exists 0. split; [lia|done].
  - apply elem_of_cons in Hd as [->|Hd].
    + exists 1. split; [lia|done].
    + apply list_elem_of_singleton in Hd as ->. exists 0. split; [lia|done].
Qed.

(** X1 at [ordered_world]. *)
Lemma run_keeps_dependency_order_witness :
  ∃ h' r w',
    BatchRun.run (H := example_input_externals) (H0 := example_backend) 2
      true false true [] ordered_world = Some (r, w') ∧
    BatchRun.delegate (H := example_input_externals) (H0 := example_backend)
      true false true [] (with_job_store (λ _, h') ordered_world)
      = Some (r, w') ∧
    _jobs (self w') = [1; 2; 3] ∧
    (∀ i j, [1; 2; 3] !! i = Some j → position w' j = Some (S i)) ∧
    backend_calls w' = [] ++ [mkBackendCall [1; 2; 3] true false true []].
Proof.
  apply (run_keeps_dependency_order (H := example_input_externals)
           (H0 := example_backend) ordered_world 2 true false true []).
  - simpl. repeat (apply NoDup_cons; split; [set_solver|]). apply NoDup_nil_2.
  - intros j Hj. simpl in Hj.
    repeat (apply elem_of_cons in Hj as [->|Hj]; [vm_compute; eauto|]).
    by apply elem_of_nil in Hj.
  - apply ordered_world_in_order.
  - lia.
Defined.




(** [run] by the place it leaves from: before the backend, with the world
    as it was or with positions assigned, or through lines 705-710. *)
Lemma run_cases `{InputExternals} `{RunExternals} depth dry verbose del
    kwargs w r w' :
  BatchRun.run depth dry verbose del kwargs w = Some (r, w') →
  ((∃ e, r = Raise e) ∧ ∃ h',
     w' = with_job_store (λ _, h') w ∧
     ∀ x, match job_store w !! x with
          | Some o => ∃ o', h' !! x = Some o' ∧ same_but_job_id o o'
          | None => h' !! x = None
          end) ∨
  ∃ ordered_jobs h',
    BatchRun.delegate dry verbose del kwargs
      (with_self (with_jobs ordered_jobs) (with_job_store (λ _, h') w))
      = Some (r, w') ∧
    ∀ x, match job_store w !! x with
         | Some o => ∃ o', h' !! x = Some o' ∧ same_but_job_id o o'
         | None => h' !! x = None
         end.
Proof.
  rewrite run_unfold.
  assert (Hsame : ∀ x, match job_store w !! x with
        | Some o => ∃ o', job_store w !! x = Some o' ∧ same_but_job_id o o'
        | None => job_store w !! x = None
        end).
  { intros x. destruct (job_store w !! x) eqn:E; [|done].
    eexists. split; [done|by left]. }
  assert (Hw : w = with_job_store (λ _, job_store w) w) by by destruct w.
  destruct (schedule_all _ _ _ _) as [[seen ord]|e0].
  2:{ intros [= <- <-]. left. split; [by eexists|].
      exists (job_store w). by split. }
  destruct (decide _) as [Hsz|Hsz].
  2:{ intros [= <- <-]. left. split; [by eexists|].
      exists (job_store w). by split. }
  destruct (assign_job_ids _ _ _) as [res h'] eqn:Hassign.
  pose proof (assign_job_ids_frame _ _ _ _ _ Hassign) as Hframe.
  destruct res as [[]|e0].
  - intros Hd. right. by exists ord, h'.
  - intros [= <- <-]. left. split; [by eexists|].
    by exists h'.
Qed.



(** X3.  Whatever [run] returns, it has invoked the backend at most once,
    with the final job list, the three flags and the keyword arguments as
    given.  When the backend raises, that is the outcome of [run], and the
    file system that the Batch may hold is neither closed nor forgotten.
    When the backend returns, [run] looks at the Batch as the backend has
    left it: a file system that the Batch then holds, also one that was
    made while the backend ran, is closed, once, and forgotten, and the
    outcome of [run] is the backend's; but if closing raises, that is the
    outcome and the file system is kept.  The backend leaves a file system
    in place that the Batch held, and makes none on a Batch without
    requester-pays project. *)
Theorem run_backend_and_file_system `{InputExternals} `{RunExternals}
    (w : World) (depth : nat)
    (dry_run verbose delete_scratch_on_exit : bool)
    (backend_kwargs : list (string * PyValue))
    (r : Result (option nat)) (w' : World) :
  BatchRun.run depth dry_run verbose delete_scratch_on_exit backend_kwargs w
    = Some (r, w') →
  (backend_calls w' = backend_calls w ∧ (∃ e, r = Raise e) ∧
   _DEPRECATED_fs (self w') = _DEPRECATED_fs (self w) ∧
   fs_closed w' = fs_closed w) ∨
  ∃ w0 r1 w1,
    BatchRun.call_backend dry_run verbose delete_scratch_on_exit
      backend_kwargs w0 = Some (r1, w1) ∧
    _jobs (self w0) = _jobs (self w') ∧
    backend_calls w' = backend_calls w ++
      [mkBackendCall (_jobs (self w')) dry_run verbose
         delete_scratch_on_exit backend_kwargs] ∧
    fs_closed w1 = fs_closed w ∧
    (_DEPRECATED_fs (self w) = true → _DEPRECATED_fs (self w1) = true) ∧
    (_DEPRECATED_project (self w) = None →
     _DEPRECATED_fs (self w1) = _DEPRECATED_fs (self w)) ∧
    match r1 with
    | Raise e => r = Raise e ∧ w' = w1
    | Ok handle =>
        if _DEPRECATED_fs (self w1)
        then fs_closed w' = S (fs_closed w) ∧
             match DEPRECATED_fs_close with
             | Ok _ => r = Ok handle ∧ _DEPRECATED_fs (self w') = false
             | Raise e => r = Raise e ∧ _DEPRECATED_fs (self w') = true
             end
        else r = Ok handle ∧ w' = w1
    end.
Proof.
  intros Hrun.
  destruct (run_cases _ _ _ _ _ _ _ _ Hrun)
    as [[He (h' & -> & _)]|(ord & h' & Hd & _)]; [by left|].
  right.
  destruct (delegate_cases dry_run verbose delete_scratch_on_exit
              backend_kwargs
              (with_self (with_jobs ord) (with_job_store (λ _, h') w)))
    as (r1 & w1 & Hcall & Hs & r2 & w2 & Hd2 & _ & _ & Hself & _ & _ & Hb
        & Hout).
  rewrite Hd in Hd2. injection Hd2 as <- <-.
  pose proof (f_equal _jobs Hself) as Hjobs.
  destruct Hs as [_ Hs2 _ _ _ Hs6 Hs7 _ _ _ _ Hs12 Hs13].
  simpl in *.
  exists (with_self (with_jobs ord) (with_job_store (λ _, h') w)), r1, w1.
  rewrite Hjobs, Hs2.
  split_and!; try done.
  - congruence.
  - destruct r1 as [handle|e]; [|done].
    destruct (_DEPRECATED_fs (self w1)); [|done].
    destruct Hout as [Hcl Hout]. split; [congruence|done].
Qed.

(** X3 at [project_world] with a backend that stages a file through the
    file system of the Batch, which then fails to close. *)
Lemma run_backend_and_file_system_witness :
  ∃ w',
    BatchRun.run (H := example_input_externals) (H0 := staging_backend) 3
      false false true [] project_world
      = Some (Raise (OtherError "OSError"), w') ∧
    _DEPRECATED_fs (self project_world) = false ∧
    _DEPRECATED_fs (self w') = true ∧
    fs_closed w' = 1 ∧
    ((backend_calls w' = backend_calls project_world ∧
      (∃ e, @Raise (option nat) (OtherError "OSError") = Raise e) ∧
      _DEPRECATED_fs (self w') = _DEPRECATED_fs (self project_world) ∧
      fs_closed w' = fs_closed project_world) ∨
     ∃ w0 r1 w1,
       BatchRun.call_backend (H := example_input_externals)
         (H0 := staging_backend) false false true [] w0 = Some (r1, w1) ∧
       _jobs (self w0) = _jobs (self w') ∧
       backend_calls w' = backend_calls project_world ++
         [mkBackendCall (_jobs (self w')) false false true []] ∧
       fs_closed w1 = fs_closed project_world ∧
       (_DEPRECATED_fs (self project_world) = true →
        _DEPRECATED_fs (self w1) = true) ∧
       (_DEPRECATED_project (self project_world) = None →
        _DEPRECATED_fs (self w1) = _DEPRECATED_fs (self project_world)) ∧
       match r1 with
       | Raise e => @Raise (option nat) (OtherError "OSError") = Raise e ∧ w' = w1
       | Ok handle =>
           if _DEPRECATED_fs (self w1)
           then fs_closed w' = S (fs_closed project_world) ∧
                match @DEPRECATED_fs_close staging_backend with
                | Ok _ => @Raise (option nat) (OtherError "OSError") = Ok handle ∧
                          _DEPRECATED_fs (self w') = false
                | Raise e => @Raise (option nat) (OtherError "OSError") = Raise e ∧
                             _DEPRECATED_fs (self w') = true
                end
           else @Raise (option nat) (OtherError "OSError") = Ok handle ∧ w' = w1
       end).
Proof.
  eexists. split; [vm_compute; reflexivity|].
  split_and!; [reflexivity..|].
  apply (run_backend_and_file_system (H := example_input_externals)
           (H0 := staging_backend) project_world 3 false false true []
           (Raise (OtherError "OSError"))).
  vm_compute. reflexivity.
Defined.
(** ** The methods together *)

(** What [run] needs to know of a job fresh from a factory. *)
Lemma factory_appends fuel name attributes shell w r w1 :
  Batch.new_bash_job fuel name attributes shell w = Some (r, w1) ∨
  Batch.new_python_job fuel name attributes w = Some (r, w1) →
  ∃ j o, r = Ok j ∧ job_store w !! j = None ∧
         job_store w1 = <[j := o]> (job_store w) ∧
         _jobs (self w1) = _jobs (self w) ++ [j] ∧
         job._dependencies o = [].
Proof.
  intros [Hcall|Hcall]; revert Hcall.
  - unfold Batch.new_bash_job. unfold mbind at 1. unfold M_bind at 1. unfold get.
    unfold mbind at 1. unfold M_bind at 1.
    destruct (Batch._unique_job_token fuel 5 w) as [[r1 w0]|] eqn:Htok; [|done].
    destruct (unique_job_token_only_draws _ _ _ _ _ Htok) as (t & k & -> & -> & Ht).
    rewrite (factory_tail job.BashJob t name (default ∅ attributes) _
               (_default_image (self w)) w (drawn k w) eq_refl).
    intros [= <- <-]. eexists _, _. split; [done|].
    split_and!; [by apply not_elem_of_dom, is_fresh|done|done|].
    apply with_defaults_fields.
  - unfold Batch.new_python_job. unfold mbind at 1. unfold M_bind at 1. unfold get.
    unfold mbind at 1. unfold M_bind at 1.
    destruct (Batch._unique_job_token fuel 5 w) as [[r1 w0]|] eqn:Htok; [|done].
    destruct (unique_job_token_only_draws _ _ _ _ _ Htok) as (t & k & -> & -> & Ht).
    rewrite (factory_tail job.PythonJob t name (default ∅ attributes) None
               (_default_python_image (self w)) w (drawn k w) eq_refl).
    intros [= <- <-]. eexists _, _. split; [done|].
    split_and!; [by apply not_elem_of_dom, is_fresh|done|done|].
    apply with_defaults_fields.
Qed.

(** A job without dependencies at the end of a list in dependency order. *)
Lemma in_dependency_order_snoc h l j o :
  (∀ x, x ∈ l → is_Some (h !! x)) →
  h !! j = None → job._dependencies o = [] →
  in_dependency_order h l →
  in_dependency_order (<[j := o]> h) (l ++ [j]).
Proof.
  intros Hall Hj Hdeps Hord i x d Hi Hd.
  assert (Hnotin : j ∉ l).
  { intros Hin. destruct (Hall j Hin) as [? ?]. congruence. }
  destruct (decide (x = j)) as [->|Hne].
  - unfold deps in Hd. rewrite lookup_insert_eq, Hdeps in Hd.
    by apply elem_of_nil in Hd.
  - unfold deps in Hd. rewrite lookup_insert_ne in Hd by done.
    apply lookup_app_Some in Hi as [Hi|[Hlen Hi]].
    + destruct (Hord i x d Hi Hd) as (k & Hk & Hlk).
      exists k. split; [done|]. by apply lookup_app_l_Some.
    + apply list_lookup_singleton_Some in Hi as [_ ?]. congruence.
Qed.

(** X25.  The factories and [run] compose.  Let the job list of the Batch
    hold distinct, existing jobs in dependency order.  A job made by
    [new_bash_job] or [new_python_job] leaves the list so, and a [run]
    straight after submits the old jobs in their order and the new job
    last: the backend gets the list with the new job at the end, and the
    new job has the position after all others.  The outcome of that [run]
    is the outcome of the backend and of closing the file system, lines
    705-710, on the Batch with its positions assigned. *)
Theorem factory_job_runs_last `{InputExternals} `{RunExternals}
    (fuel depth : nat)
    (name : option string) (attributes : option (gmap string string))
    (shell : option string) (dry_run verbose delete_scratch_on_exit : bool)
    (backend_kwargs : list (string * PyValue))
    (w : World) (r : Result job_ref) (w1 : World) :
  batch_wf w →
  in_dependency_order (job_store w) (_jobs (self w)) →
  Batch.new_bash_job fuel name attributes shell w = Some (r, w1) ∨
  Batch.new_python_job fuel name attributes w = Some (r, w1) →
  2 ≤ depth →
  ∃ j h' r2 w2,
    r = Ok j ∧
    batch_wf w1 ∧
    in_dependency_order (job_store w1) (_jobs (self w1)) ∧
    BatchRun.run depth dry_run verbose delete_scratch_on_exit backend_kwargs
      w1 = Some (r2, w2) ∧
    BatchRun.delegate dry_run verbose delete_scratch_on_exit backend_kwargs
      (with_job_store (λ _, h') w1) = Some (r2, w2) ∧
    backend_calls w2 = backend_calls w1 ++
      [mkBackendCall (_jobs (self w) ++ [j]) dry_run verbose
         delete_scratch_on_exit backend_kwargs] ∧
    position w2 j = Some (S (length (_jobs (self w)))) ∧
    ∀ i x, _jobs (self w) !! i = Some x → position w2 x = Some (S i).
Proof.
  intros [Hnd Halloc] Hord Hcall Hdepth.
  destruct (factory_appends _ _ _ _ _ _ _ Hcall)
    as (j & o & -> & Hj & Hstore & Hjobs & Hdeps).
  assert (Hnotin : j ∉ _jobs (self w)).
  { intros Hin. destruct (Halloc j Hin) as [? ?]. congruence. }
  assert (Hnd1 : NoDup (_jobs (self w1))).
  { rewrite Hjobs. apply NoDup_app. split_and!; [done| |apply NoDup_singleton].
    intros x Hx ->%list_elem_of_singleton. done. }
  assert (Halloc1 : allocated w1).
  { intros x. rewrite Hjobs, Hstore, elem_of_app, list_elem_of_singleton.
    intros [Hx| ->]; [|by rewrite lookup_insert_eq].
    rewrite lookup_insert_ne by (intros ->; done). by apply Halloc. }
  assert (Hord1 : in_dependency_order (job_store w1) (_jobs (self w1))).
  { rewrite Hjobs, Hstore. by apply in_dependency_order_snoc. }
  destruct (run_in_order w1 depth dry_run verbose delete_scratch_on_exit
              backend_kwargs Hnd1 Halloc1 Hord1 Hdepth)
    as (h' & r2 & w2 & Hrun & Hdel & _ & Hpos & Hcalls).
  exists j, h', r2, w2. rewrite Hjobs in Hpos, Hcalls.
  split_and!; [done..| |].
  - apply Hpos. by rewrite lookup_app_r, Nat.sub_diag.
  - intros i x Hi. apply Hpos. by apply lookup_app_l_Some.
Qed.

(** X25 at [service_world], which holds job 0: the new job 1 gets the
    position 2. *)
Lemma factory_job_runs_last_witness :
  ∃ w1 r2 w2,
    Batch.new_python_job 5 None None service_world = Some (Ok 1, w1) ∧
    BatchRun.run (H := example_input_externals) (H0 := example_backend) 2
      false false true [] w1 = Some (r2, w2) ∧
    backend_calls w2 = backend_calls w1 ++
      [mkBackendCall [0; 1] false false true []] ∧
    position w2 1 = Some 2 ∧ position w2 0 = Some 1.
Proof.
  assert (Hcall : ∃ w1, Batch.new_python_job 5 None None service_world
                          = Some (Ok 1, w1))
    by (eexists; vm_compute; reflexivity).
  destruct Hcall as [w1 Hcall]. exists w1.
  destruct (factory_job_runs_last (H := example_input_externals)
              (H0 := example_backend) 5 2 None None None
              false false true [] service_world (Ok 1) w1 service_world_wf)
    as (j & h' & r2 & w2 & [= <-] & _ & _ & Hrun & _ & Hcalls & Hj & Hpos);
    [|by right|lia|].
  - intros i x d Hi Hd. simpl in Hi.
    apply list_lookup_singleton_Some in Hi as [-> <-].
    vm_compute in Hd. by apply elem_of_nil in Hd.
  - exists r2, w2.
    split_and!; [exact Hcall|exact Hrun|exact Hcalls|exact Hj|by apply (Hpos 0)].
Defined.

(** X26.  [read_input] and [write_output] compose: the resource that
    [read_input] returns is accepted by [write_output] straight away, for
    every destination; afterwards it has that one destination, and no
    other resource and no job has changed. *)
Theorem read_input_then_write_output `{Externals} `{InputExternals}
    (path fname dest : string) (w : World) :
  input_file_name (_backend (self w)) path = Ok fname →
  ∃ r w1 w2,
    BatchInputs.read_input path w = Some (Ok r, w1) ∧
    Batch.write_output (PyResource r) dest w1 = Some (Ok tt, w2) ∧
    output_paths w2 r = Some [recorded_dest (_backend (self w)) dest] ∧
    (∀ x, x ≠ r → resource_store w2 !! x = resource_store w !! x) ∧
    job_store w2 = job_store w ∧
    _resource_map (self w2) !! Resource_counter w = Some r.
Proof.
  intros Hname.
  set (o := resource.mk resource.InputResourceFile (Resource_counter w)
              (entropy w (draws w) +:+ "/" +:+ basename (rstrip_slash fname))
              None (Some path) [] []).
  set (r := fresh (dom (resource_store w))).
  set (w1 := minted_input path (resource._value o) (drawn 1 w)).
  assert (Hread : BatchInputs.read_input path w = Some (Ok r, w1)).
  { unfold BatchInputs.read_input.
    by rewrite (new_input_resource_file_eq _ _ _ _ Hname). }
  assert (Ho : resource_store w1 !! r = Some o) by apply lookup_insert_eq.
  exists r, w1. eexists. split; [exact Hread|].
  rewrite (write_output_passes r o dest w1 Ho) by done.
  unfold _add_output_path. rewrite Ho. simpl.
  split; [reflexivity|]. unfold output_paths, add_output_path_file. simpl.
  split_and!.
  - by rewrite lookup_alter_eq, lookup_insert_eq.
  - intros x Hx. by rewrite lookup_alter_ne, lookup_insert_ne.
  - done.
  - by rewrite lookup_insert_eq.
Qed.

(** X26 at the path [data/hello.txt] and the destination [out]. *)
Lemma read_input_then_write_output_witness :
  ∃ r w1 w2,
    BatchInputs.read_input (H := example_input_externals) "data/hello.txt"
      empty_world = Some (Ok r, w1) ∧
    Batch.write_output (H := example_externals) (PyResource r) "out" w1
      = Some (Ok tt, w2) ∧
    output_paths w2 r = Some ["/home/user/out"].
Proof.
  destruct (read_input_then_write_output (H := example_externals)
              (H0 := example_input_externals) "data/hello.txt"
              "data/hello.txt" "out" empty_world eq_refl)
    as (r & w1 & w2 & ? & ? & ? & _).
  by exists r, w1, w2.
Defined.

(** X27.  When [write_output] finds that the producing job has not
    mentioned the resource and the job does not know the resource under any
    name, the lookup of the name for the error message fails: the call
    raises [KeyError], not a [BatchException], and changes nothing. *)
Theorem write_output_unknown_name `{Externals} (w : World) (r : res_ref)
    (o : resource.Resource) (j : job_ref) (jo : job.Job) (dest : string) :
  resource_store w !! r = Some o →
  resource._source o = Some j →
  job_store w !! j = Some jo →
  checked o jo →
  r ∉ job._mentioned jo →
  job._resources_inverse jo !! r = None →
  Batch.write_output (PyResource r) dest w = Some (Raise KeyError, w).
Proof.
  intros Ho Hsrc Hjo Hcls Hnm Hname.
  rewrite (write_output_unfold r o dest w Ho).
  assert (Hu : ∀ c, job.cls jo = c →
            Batch.unmentioned_source c r o w = Some (Ok (Some jo), w)).
  { intros c Hc. unfold Batch.unmentioned_source. rewrite Hsrc, Hjo.
    by rewrite decide_True, decide_False. }
  destruct Hcls as [[Hc Hj]|[Hc Hj]]; rewrite Hc.
  - rewrite !decide_True by done. rewrite (Hu _ Hj).
    unfold Batch.raise_undefined. by rewrite Hname.
  - rewrite !(decide_False (P := resource.PythonResult = resource.JobResourceFile))
      by done.
    simpl. rewrite (Hu _ Hj).
    unfold Batch.raise_undefined. by rewrite Hname.
Qed.

(** X27 at [output_world]: job 1 made the file 8 and knows only the
    file 5 by name. *)
Lemma write_output_unknown_name_witness :
  Batch.write_output (H := example_externals) (PyResource 8) "out" output_world
    = Some (Raise KeyError, output_world).
Proof.
  apply (write_output_unknown_name (H := example_externals) output_world 8
           (example_resource resource.JobResourceFile 2 (Some 1) []) 1
           (job.mk job.BashJob "token" None ∅ None None None None None None
              None None [] ∅ {[5 := "ofile"]} None) "out");
    [reflexivity|reflexivity|reflexivity|by left|set_solver|reflexivity].
Defined.

(** X28.  [_new_job_resource_file] and [_new_python_result] never raise.
    Each returns a resource that did not exist, of its class, produced by
    the source given and named by the value given, or by the next random
    string when there is none, and registers it under its uid, the value
    of the counter.  Nothing else changes: a random string is drawn only
    when no value is given, and every other resource object and every job
    is as before. *)
Theorem resource_minting (source : option job_ref) (value : option string)
    (w : World) :
  ∀ mint c,
    (mint = Batch._new_job_resource_file ∧ c = resource.JobResourceFile) ∨
    (mint = Batch._new_python_result ∧ c = resource.PythonResult) →
    ∃ r w',
      mint source value w = Some (Ok r, w') ∧
      resource_store w !! r = None ∧
      resource_store w' =
        <[r := resource.mk c (Resource_counter w)
                 (default (entropy w (draws w)) value) source None [] []]>
          (resource_store w) ∧
      _resource_map (self w') =
        <[Resource_counter w := r]> (_resource_map (self w)) ∧
      Resource_counter w' = S (Resource_counter w) ∧
      draws w' = (if value is Some _ then draws w else S (draws w)) ∧
      _jobs (self w') = _jobs (self w) ∧
      _input_resources (self w') = _input_resources (self w) ∧
      job_store w' = job_store w.
Proof.
  intros mint c [[-> ->]|[-> ->]];
    unfold Batch._new_job_resource_file, Batch._new_python_result,
      mbind, M_bind;
    destruct value; simpl; unfold uid_of; simpl; rewrite lookup_insert_eq;
    simpl; eexists _, _; (split; [reflexivity|]); simpl;
    (split_and!; try done); apply not_elem_of_dom, is_fresh.
Qed.

(** X28 at a result of job 1 in [output_world]. *)
Lemma resource_minting_witness :
  ∃ r w',
    Batch._new_python_result (Some 1) None output_world = Some (Ok r, w') ∧
    resource_store output_world !! r = None ∧
    resource_store w' !! r =
      Some (resource.mk resource.PythonResult 4 "aaaaa" (Some 1) None [] []) ∧
    _resource_map (self w') !! 4 = Some r.
Proof.
  destruct (resource_minting (Some 1) None output_world
              Batch._new_python_result resource.PythonResult)
    as (r & w' & Hcall & Hnew & Hstore & Hreg & _); [by right|].
  exists r, w'. split_and!; [done|done| |].
  - by rewrite Hstore, lookup_insert_eq.
  - rewrite Hreg. by rewrite lookup_insert_eq.
Defined.

(** ** The job factories return *)

(** X29.  The job factories return.  When the next [k] random strings are
    used tokens and the one after them is not, [new_bash_job], [new_job]
    and [new_python_job] return a job, the same new object whichever is
    called, whose token is that string, after [k + 1] draws (given a bound
    above [k] for the token loop of the model). *)
Theorem job_factories_return (fuel k : nat) (name : option string)
    (attributes : option (gmap string string)) (shell : option string)
    (w : World) :
  k < fuel →
  (∀ i, i < k → entropy w (draws w + i) ∈ _job_tokens (self w)) →
  entropy w (draws w + k) ∉ _job_tokens (self w) →
  ∃ j w1 w2,
    Batch.new_bash_job fuel name attributes shell w = Some (Ok j, w1) ∧
    Batch.new_job fuel name attributes shell w = Some (Ok j, w1) ∧
    Batch.new_python_job fuel name attributes w = Some (Ok j, w2) ∧
    job_store w !! j = None ∧
    token_of w1 j = Some (entropy w (draws w + k)) ∧
    token_of w2 j = Some (entropy w (draws w + k)) ∧
    draws w1 = S k + draws w ∧ draws w2 = S k + draws w.
Proof.
  intros Hk Hused Hfree.
  pose proof (unique_job_token_skips fuel 5 k w Hk Hused Hfree) as Htok.
  eexists _, _, _.
  split_and!.
  - unfold Batch.new_bash_job. unfold mbind at 1. unfold M_bind at 1. unfold get.
    unfold mbind at 1. unfold M_bind at 1. rewrite Htok.
    rewrite (factory_tail job.BashJob _ name (default ∅ attributes) _
               (_default_image (self w)) w (drawn (S k) w) eq_refl).
    reflexivity.
  - unfold Batch.new_job, Batch.new_bash_job.
    unfold mbind at 1. unfold M_bind at 1. unfold get.
    unfold mbind at 1. unfold M_bind at 1. rewrite Htok.
    rewrite (factory_tail job.BashJob _ name (default ∅ attributes) _
               (_default_image (self w)) w (drawn (S k) w) eq_refl).
    reflexivity.
  - unfold Batch.new_python_job. unfold mbind at 1. unfold M_bind at 1. unfold get.
    unfold mbind at 1. unfold M_bind at 1. rewrite Htok.
    rewrite (factory_tail job.PythonJob _ name (default ∅ attributes) None
               (_default_python_image (self w)) w (drawn (S k) w) eq_refl).
    reflexivity.
  - apply not_elem_of_dom, is_fresh.
  - unfold token_of, placed. simpl. rewrite lookup_insert_eq. simpl.
    f_equal. apply with_defaults_fields.
  - unfold token_of, placed. simpl. rewrite lookup_insert_eq. simpl.
    f_equal. apply with_defaults_fields.
  - done.
  - done.
Qed.

(** X29 at [service_world]: two used draws, then [bbbbb]. *)
Lemma job_factories_return_witness :
  ∃ j w1 w2,
    Batch.new_bash_job 5 None None None service_world = Some (Ok j, w1) ∧
    Batch.new_python_job 5 None None service_world = Some (Ok j, w2) ∧
    token_of w1 j = Some "bbbbb" ∧ draws w1 = 3.
Proof.
  destruct (job_factories_return 5 2 None None None service_world)
    as (j & w1 & w2 & ? & _ & ? & _ & ? & _ & ? & _).
  - lia.
  - intros i Hi. destruct i as [|[|i]]; [vm_compute; set_solver..|lia].
  - vm_compute. set_solver.
  - by exists j, w1, w2.
Defined.
